(** * dvb-exporter: the exposition writer and the device registry

    A shallow embedding of [main.go] of k3a/dvb-exporter.  The repository
    holds two revisions of the file: the one that polls the legacy (v3)
    frontend API only, and the one that polls the extended (v5) statistics
    first and the v3 readings afterwards.  Both are embedded by one
    definition of [handleMetrics], selected by a flag; everything else is
    the same text in both revisions.

    Go's [string] is a byte sequence and is embedded as Rocq's [string];
    Go's fixed-width integers are embedded as [Z]; Go's built-in [map] is
    embedded as stdpp's [gmap], with the iteration order of [range] made
    an explicit input of the model. *)

From Stdlib Require Import ZArith Lia String Ascii List SpecFloat.
From stdpp Require Import base option list gmap strings.

Local Open Scope Z_scope.

#[local] Arguments String.append : simpl nomatch.

(** ** Characters that Rocq string literals cannot spell *)

Definition dq : string := String "034"%char EmptyString.
Definition nl : string := String "010"%char EmptyString.
Definition tab : string := String "009"%char EmptyString.

(** Go's [(T, error)] results. *)

Definition error := string.

Inductive result (A : Type) : Type :=
| Ok (a : A)
| Err (e : error).
Arguments Ok {A} a.
Arguments Err {A} e.

(** ** The parts of Go's [strconv] and [fmt] that the program calls *)

Module strconv.

Definition digit_char (d : Z) : ascii := ascii_of_N (Z.to_N (48 + d)).

Definition digit_of (c : ascii) : option Z :=
  let n := Z.of_N (N_of_ascii c) in
  if (48 <=? n) && (n <=? 57) then Some (n - 48) else None.

(** Decimal digits of a non-negative integer, least significant digit
    produced first and pushed in front of what is already there. *)
Fixpoint utoa_loop (fuel : nat) (n : Z) (acc : string) : string :=
  match fuel with
  | O => acc
  | S fuel' =>
      let acc' := String (digit_char (n mod 10)) acc in
      if n <? 10 then acc' else utoa_loop fuel' (n / 10) acc'
  end.

Definition utoa (n : Z) : string :=
  utoa_loop (S (Z.to_nat (Z.log2 n))) n EmptyString.

(** [strconv.Itoa], which is also what [fmt]'s [%d] prints. *)
Definition Itoa (n : Z) : string :=
  if n <? 0 then "-" +:+ utoa (- n) else utoa n.

Fixpoint parse_digits (acc : Z) (s : string) : option Z :=
  match s with
  | EmptyString => Some acc
  | String c s' =>
      match digit_of c with
      | Some d => parse_digits (10 * acc + d) s'
      | None => None
      end
  end.

Definition intMin : Z := - 2 ^ 63.
Definition intMax : Z := 2 ^ 63 - 1.

Definition syntaxError (s : string) : error :=
  "strconv.Atoi: parsing " +:+ dq +:+ s +:+ dq +:+ ": invalid syntax".
Definition rangeError (s : string) : error :=
  "strconv.Atoi: parsing " +:+ dq +:+ s +:+ dq +:+ ": value out of range".

(** [strconv.Atoi] on a 64-bit platform: an optional sign, then at
    least one decimal digit and nothing else; the value has to fit
    [int]. *)
Definition Atoi (s : string) : result Z :=
  let '(neg, body) :=
    match s with
    | String "-"%char r => (true, r)
    | String "+"%char r => (false, r)
    | _ => (false, s)
    end in
  match body with
  | EmptyString => Err (syntaxError s)
  | _ =>
      match parse_digits 0 body with
      | None => Err (syntaxError s)
      | Some u =>
          let n := if neg then - u else u in
          if (intMin <=? n) && (n <=? intMax) then Ok n
          else Err (rangeError s)
      end
  end.

End strconv.

Module fmt.

(** [%d] of any integer type. *)
Definition verb_d (n : Z) : string := strconv.Itoa n.

(** Six decimal digits, most significant first, of [n mod 10^6]. *)
Definition frac6 (n : Z) : string :=
  String (strconv.digit_char ((n / 100000) mod 10))
 (String (strconv.digit_char ((n / 10000) mod 10))
 (String (strconv.digit_char ((n / 1000) mod 10))
 (String (strconv.digit_char ((n / 100) mod 10))
 (String (strconv.digit_char ((n / 10) mod 10))
 (String (strconv.digit_char (n mod 10)) EmptyString))))).

(** [num / den] rounded to the nearest integer, ties to even
    ([num >= 0], [den > 0]). *)
Definition round_half_even (num den : Z) : Z :=
  let q := num / den in
  let r := num mod den in
  if (den <? 2 * r) || ((2 * r =? den) && Z.odd q) then q + 1 else q.

(** The magnitude [m * 2^e], in millionths, correctly rounded. *)
Definition millionths (m : positive) (e : Z) : Z :=
  if 0 <=? e then Z.pos m * 2 ^ e * 1000000
  else round_half_even (Z.pos m * 1000000) (2 ^ (- e)).

Definition fixed6 (neg : bool) (q : Z) : string :=
  (if neg then "-" else EmptyString)
    +:+ strconv.utoa (q / 1000000) +:+ "." +:+ frac6 q.

(** [%f] of a [float32] or [float64] (default precision 6).  A binary
    float is a [spec_float]: zero, infinity, NaN, or [(-1)^s * m * 2^e].
    The conversion is exact and correctly rounded, so both widths print
    the same way. *)
Definition verb_f (x : spec_float) : string :=
  match x with
  | S754_nan => "NaN"
  | S754_infinity false => "+Inf"
  | S754_infinity true => "-Inf"
  | S754_zero s => fixed6 s 0
  | S754_finite s m e => fixed6 s (millionths m e)
  end.

End fmt.

(** ** Dynamic values: Go's [interface{}] as the program uses it *)

Inductive IntType : Type :=
| Tint | Tint8 | Tint16 | Tint32 | Tint64
| Tuint | Tuint8 | Tuint16 | Tuint32 | Tuint64.

(** A value boxed in an [interface{}]: its dynamic type and its payload.
    [VOther] stands for every dynamic type that [valToString] has no case
    for (strings, structs, named integer types, the nil interface, ...);
    it carries what [%T] prints. *)
Inductive value : Type :=
| VInt (t : IntType) (n : Z)
| VFloat32 (x : spec_float)
| VFloat64 (x : spec_float)
| VBool (b : bool)
| VOther (typeName : string).

(** ** Label and value rendering ([main.go], lines 38-74) *)

(** The body of the [for i, it := range labelPairs] loop, from index [i]
    on, with [str] the string built so far. *)
Fixpoint formatLabels_loop (i : nat) (labelPairs : list string) (str : string)
  : string :=
  match labelPairs with
  | [] => str
  | it :: rest =>
      let str :=
        if (i mod 2 =? 0)%nat then
          let str := if (0 <? i)%nat then str +:+ "," else str in
          str +:+ (it +:+ "=" +:+ dq)
        else
          str +:+ (it +:+ dq) in
      formatLabels_loop (S i) rest str
  end.

Definition formatLabels (labelPairs : list string) : string :=
  let l := length labelPairs in
  if (l =? 0)%nat || negb (l mod 2 =? 0)%nat then EmptyString
  else
    let str := "{" in
    let str := formatLabels_loop 0 labelPairs str in
    str +:+ "}".

Definition valToString (v : value) : string * option error :=
  match v with
  | VInt _ n => (fmt.verb_d n, None)
  | VFloat32 x | VFloat64 x => (fmt.verb_f x, None)
  | VBool b => if b then ("1", None) else ("0", None)
  | VOther t => (EmptyString, Some ("unsupported value type: " +:+ t))
  end.

(** ** Collaborators outside the repository *)

Module io.
(** [io.Writer]: [Write] returns the writer after the call and the
    error it reports (the byte count is never looked at). *)
Class Writer (W : Type) := Write : W -> string -> W * option error.

(** A writer that keeps every chunk it was handed, in order. *)
#[global] Instance Buffer : Writer (list string) :=
  fun buf chunk => (buf ++ [chunk], None).

(** A writer whose peer has gone away: it keeps nothing and reports an
    error on every call. *)
Inductive Closed : Type := closed.
#[global] Instance Closed_Writer : Writer Closed :=
  fun c _ => (c, Some "write: broken pipe").
End io.

Module http.
Definition StatusOK : Z := 200.
End http.

Module echo.
(** [echo.Response]: the header map, the status line and the underlying
    writer.  [WriteHeader] is ignored once the response is committed. *)
Record Response (W : Type) : Type := mkResponse {
  Header : gmap string string;
  Status : Z;
  Committed : bool;
  Writer : W
}.
Arguments mkResponse {W}.
Arguments Header {W}.
Arguments Status {W}.
Arguments Committed {W}.
Arguments Writer {W}.

Definition HeaderSet {W} (k v : string) (r : Response W) : Response W :=
  mkResponse (<[k := v]> (Header r)) (Status r) (Committed r) (Writer r).

Definition WriteHeader {W} (code : Z) (r : Response W) : Response W :=
  if Committed r then r
  else mkResponse (Header r) code true (Writer r).

Definition setWriter {W} (wr : W) (r : Response W) : Response W :=
  mkResponse (Header r) (Status r) (Committed r) wr.

(** The response of a request that no handler has touched yet. *)
Definition fresh {W} (wr : W) : Response W :=
  mkResponse ∅ http.StatusOK false wr.
End echo.

Module slog.
Inductive Level : Type := LevelInfo | LevelError.
Inductive Value : Type := StringValue (s : string) | IntValue (n : Z).
Record Record_ : Type := mkRecord {
  level : Level;
  msg : string;
  attrs : list (string * Value)
}.
End slog.

(** The hardware access library ([github.com/ziutek/dvb/linuxdvb/frontend])
    as the program sees it. *)
Module frontend.

(** An open frontend: the device node it was opened on and the file
    descriptor the open returned. *)
Record Device : Type := mkDevice { path : string; fd : nat }.

(** Bits of the [Status] word (the kernel's [fe_status]). *)
Definition HasSignal : Z := 1.
Definition HasCarrier : Z := 2.
Definition HasViterbi : Z := 4.
Definition HasSync : Z := 8.
Definition HasLock : Z := 16.

Inductive Scale : Type :=
| ScaleNotAvailable | ScaleDecibel | ScaleRelative | ScaleCounter.

#[global] Instance Scale_eq_dec : EqDecision Scale.
Proof. solve_decision. Defined.

(** One v5 statistic: the scale it is expressed in and what its
    accessors [Decibel()] (a [float64]) and [Counter()] (a [uint64])
    return. *)
Record ValueStat : Type := mkValueStat {
  Scale_ : Scale;
  Decibel : spec_float;
  Counter : Z
}.

Record Stat_ : Type := mkStat {
  Signal : list ValueStat;
  CNR : list ValueStat;
  PreErrBit : list ValueStat;
  PreTotBit : list ValueStat;
  PostErrBit : list ValueStat;
  PostTotBit : list ValueStat;
  ErrBlk : list ValueStat;
  TotBlk : list ValueStat
}.

(** What the hardware answers to each query on each open device during
    one poll.  [Status], [BER] and [UncorrectedBlocks] are [uint32];
    [SNR] and [SignalStrength] are [int16]. *)
Record Driver : Type := mkDriver {
  Stat : Device -> result Stat_;
  Status : Device -> result Z;
  BER : Device -> result Z;
  SNR : Device -> result Z;
  SignalStrength : Device -> result Z;
  UncorrectedBlocks : Device -> result Z
}.

End frontend.

(** ** The registry ([main.go], lines 24-36) *)

Record frontendEntry : Type := mkFrontendEntry {
  feID : Z;
  feName : string;
  feDevice : frontend.Device
}.

Record adapterEntry : Type := mkAdapterEntry {
  aeID : Z;
  aeName : string;
  aeFrontends : gmap string frontendEntry
}.

(** ** Iteration over a Go map

    The order in which [range] visits the entries of a map is chosen by
    the runtime, anew for every loop.  The choice is an input of the
    model: the [n]-th [range] loop over a map that the program starts
    visits the entries in the order [permute (mapOrder n) entries]. *)

Fixpoint insert_at {A} (i : nat) (x : A) (l : list A) : list A :=
  match i, l with
  | O, _ => x :: l
  | S i', y :: l' => y :: insert_at i' x l'
  | S _, [] => [x]
  end.

Fixpoint permute {A} (seed : nat) (l : list A) : list A :=
  match l with
  | [] => []
  | x :: l' =>
      insert_at (seed mod S (length l')) x (permute (seed / S (length l')) l')
  end.

(** ** What a request handler runs in *)

Record World (W : Type) : Type := mkWorld {
  resp : echo.Response W;        (* c.Response() *)
  logged : list slog.Record_;    (* what slog has printed so far *)
  ranges : nat                   (* map loops started so far *)
}.
Arguments mkWorld {W}.
Arguments resp {W}.
Arguments logged {W}.
Arguments ranges {W}.

Definition M (W A : Type) : Type := World W -> A * World W.

#[global] Instance M_ret {W} : MRet (M W) := fun A a w => (a, w).
#[global] Instance M_bind {W} : MBind (M W) :=
  fun A B f m w => let '(a, w') := m w in f a w'.

Fixpoint forM_ {W A} (l : list A) (body : A -> M W unit) : M W unit :=
  match l with
  | [] => mret tt
  | x :: l' => body x ≫= fun _ => forM_ l' body
  end.

(** ** The exposition writer ([main.go], lines 76-184; lines 76-230 of the
    revision with the v5 readings)

    The [io.Writer] that the source passes around is [resp.Writer]; it
    lives in the [World], and the functions that take [wr] act on it
    there.  [hw] is what the hardware answers during the poll, [mapOrder]
    the orders the runtime picks for the map loops. *)

Section Exposition.
Context {W : Type} `{!io.Writer W}.
Variable hw : frontend.Driver.
Variable mapOrder : nat -> nat.

(** [for k, v := range m]: the entries in the order of this loop. *)
Definition rangeMap {V} (m : gmap string V) : M W (list (string * V)) :=
  fun w => (permute (mapOrder (ranges w)) (map_to_list m),
            mkWorld (resp w) (logged w) (S (ranges w))).

Definition slogError (msg : string) (attrs : list (string * slog.Value))
  : M W unit :=
  fun w => (tt, mkWorld (resp w)
                  (logged w ++ [slog.mkRecord slog.LevelError msg attrs])
                  (ranges w)).

(** The string that [writeSingle] hands to the writer. *)
Definition sampleText (typeStr name valStr help : string)
           (labelPairs : list string) : string :=
  let header := EmptyString in
  let header :=
    if (0 <? String.length help)%nat
    then "# HELP " +:+ name +:+ " " +:+ help +:+ nl
    else header in
  let header := header +:+ ("# TYPE " +:+ name +:+ " " +:+ typeStr +:+ nl) in
  header +:+ name +:+ formatLabels labelPairs +:+ " " +:+ valStr +:+ nl +:+ nl.

Definition writeSingle (typeStr name : string) (val : value) (help : string)
           (labelPairs : list string) : M W (option error) :=
  match valToString val with
  | (_, Some err) => mret (Some err)
  | (valStr, None) =>
      let str := sampleText typeStr name valStr help labelPairs in
      fun w =>
        let '(wr, err) := io.Write (echo.Writer (resp w)) str in
        (err, mkWorld (echo.setWriter wr (resp w)) (logged w) (ranges w))
  end.

Definition mkPairs (m : gmap string string) : M W (list string) :=
  entries ← rangeMap m;
  mret (foldl (fun arr kv => arr ++ [kv.1; kv.2]) [] entries).

Definition writeGauge (name : string) (val : value) (help : string)
           (labelPairs : list string) : M W (option error) :=
  writeSingle "gauge" name val help labelPairs.

Definition writeCounter (name : string) (val : value) (help : string)
           (labelPairs : list string) : M W (option error) :=
  writeSingle "counter" name val help labelPairs.

(** Lines 165 and 171: the [int16] reading is read back through a
    [uint16] pointer (its 16 bits taken as unsigned), converted to
    [int], multiplied by 100 and divided by [0xffff] with Go's
    truncating quotient. *)
Definition asUint16 (x : Z) : Z := Z.land x 65535.
Definition percentOfRaw (x : Z) : Z := Z.quot (asUint16 x * 100) 65535.

(** One v5 statistic of the [Stat] reply: its first value, if there is
    one and it is on the expected scale. *)
Definition statGauge (vs : list frontend.ValueStat) (name help : string)
           (labels : gmap string string) : M W unit :=
  match vs with
  | p :: _ =>
      if bool_decide (frontend.Scale_ p = frontend.ScaleDecibel) then
        pairs ← mkPairs labels;
        _ ← writeGauge name (VFloat64 (frontend.Decibel p)) help pairs;
        mret tt
      else mret tt
  | [] => mret tt
  end.

Definition statCounter (vs : list frontend.ValueStat) (name help : string)
           (labels : gmap string string) : M W unit :=
  match vs with
  | p :: _ =>
      if bool_decide (frontend.Scale_ p = frontend.ScaleCounter) then
        pairs ← mkPairs labels;
        _ ← writeCounter name (VInt Tuint64 (frontend.Counter p)) help pairs;
        mret tt
      else mret tt
  | [] => mret tt
  end.

(** Lines 128-187 of the revision with the v5 readings. *)
Definition handleMetrics_v5 (adapterName frontendName : string)
           (fe : frontend.Device) (labels : gmap string string) : M W unit :=
  match frontend.Stat hw fe with
  | Err err =>
      slogError "error getting fe status via v5 API"
        [("adapter", slog.StringValue adapterName);
         ("frontend", slog.StringValue frontendName);
         ("error", slog.StringValue err)]
  | Ok stat =>
      statGauge (frontend.CNR stat) "dvb_fe_snr"
        "Indicates the Signal to Noise ratio for the main carrier" labels;;
      statGauge (frontend.Signal stat) "dvb_fe_signal_strength_decibels"
        "Signal strength level at the analog part of the tuner or of the demodd"
        labels;;
      statCounter (frontend.PreErrBit stat) "dvb_fe_pre_error_bit_count"
        "Number of bit errors before the forward error correction (FEC) on the inner coding block (before Viterbi, LDPC or other inner code). Should be divided by _total_bit_counts."
        labels;;
      statCounter (frontend.PreTotBit stat) "dvb_fe_pre_total_bit_count"
        "Amount of bits received before the inner code block, during the same period as _error_bit_count"
        labels;;
      statCounter (frontend.PostErrBit stat) "dvb_fe_post_error_bit_count"
        "Number of bit errors after the forward error correction (FEC) done by inner code block (after Viterbi, LDPC or other inner code). Should be divided by _total_bit_counts."
        labels;;
      statCounter (frontend.PostTotBit stat) "dvb_fe_post_total_bit_count"
        "Amount of bits received after the inner coding, during the same period as _error_bit_count"
        labels;;
      statCounter (frontend.ErrBlk stat) "dvb_fe_error_block_count"
        "Number of block errors after the outer forward error correction coding (after Reed-Solomon or other outer code)."
        labels;;
      statCounter (frontend.TotBlk stat) "dvb_fe_total_block_count"
        "Total number of blocks received during the same period as _error_block_count"
        labels
  end.

(** A v3 flag of the status word: [st&flag > 0]. *)
Definition flagGauge (st flag : Z) (name help : string)
           (labels : gmap string string) : M W unit :=
  pairs ← mkPairs labels;
  _ ← writeGauge name (VBool (0 <? Z.land st flag)) help pairs;
  mret tt.

(** A v3 scalar: written when the query returned no error, skipped
    (without a word) otherwise. *)
Definition scalar (write : string -> value -> string -> list string ->
                           M W (option error))
           (r : result Z) (box : Z -> value) (name help : string)
           (labels : gmap string string) : M W unit :=
  match r with
  | Ok x =>
      pairs ← mkPairs labels;
      _ ← write name (box x) help pairs;
      mret tt
  | Err _ => mret tt
  end.

(** Lines 146-178 ([main.go]); the [continue] on a status error leaves
    the loop body, so nothing after it runs for this frontend. *)
Definition handleMetrics_v3 (adapterName frontendName : string)
           (fe : frontend.Device) (labels : gmap string string) : M W unit :=
  match frontend.Status hw fe with
  | Err err =>
      slogError "error getting fe status"
        [("adapter", slog.StringValue adapterName);
         ("frontend", slog.StringValue frontendName);
         ("error", slog.StringValue err)]
  | Ok st =>
      flagGauge st frontend.HasSignal "dvb_fe_has_signal"
        "Frontend found something above the noise levell" labels;;
      flagGauge st frontend.HasCarrier "dvb_fe_has_carrier"
        "Frontend found a DVB signal" labels;;
      flagGauge st frontend.HasViterbi "dvb_fe_has_viterbi"
        "FEC is stable" labels;;
      flagGauge st frontend.HasSync "dvb_fe_has_sync"
        "Frontend found sync bytes" labels;;
      flagGauge st frontend.HasLock "dvb_fe_has_lock"
        "Frontend is receiving data" labels;;
      scalar writeGauge (frontend.BER hw fe) (VInt Tuint32) "dvb_fe_ber"
        "Bit error rate for the signal currently received/demodulated"
        labels;;
      scalar writeGauge (frontend.SNR hw fe)
        (fun snr => VInt Tint (percentOfRaw snr)) "dvb_fe_snr_percent"
        "Signal-to-noise ratio for the signal currently received by the front-end"
        labels;;
      scalar writeGauge (frontend.SignalStrength hw fe)
        (fun ss => VInt Tint (percentOfRaw ss))
        "dvb_fe_signal_strength_percent"
        "Signal strength value for the signal currently received by the front-end"
        labels;;
      scalar writeCounter (frontend.UncorrectedBlocks hw fe) (VInt Tuint32)
        "dvb_fe_uncorrected_blocks_total"
        "Number of uncorrected blocks detected by the device driver during its lifetime"
        labels
  end.

(** The body of the inner loop.  [labels] is cleared first, so what it
    held in the previous round does not matter. *)
Definition handleMetrics_frontend (v5 : bool) (adapterName : string)
           (a : adapterEntry) (frontendName : string) (f : frontendEntry)
  : M W unit :=
  let labels : gmap string string := ∅ in
  let labels := <["adapter" := strconv.Itoa (aeID a)]> labels in
  let labels := <["frontend" := strconv.Itoa (feID f)]> labels in
  let fe := feDevice f in
  (if v5 then handleMetrics_v5 adapterName frontendName fe labels
   else mret tt);;
  handleMetrics_v3 adapterName frontendName fe labels.

(** [handleMetrics false] is [main.go]; [handleMetrics true] is the
    revision that polls the v5 statistics as well. *)
Definition handleMetrics (v5 : bool) (adapters : gmap string adapterEntry)
  : M W (option error) :=
  (fun w => (tt, mkWorld
               (echo.WriteHeader http.StatusOK
                  (echo.HeaderSet "Content-Type" "text/plain" (resp w)))
               (logged w) (ranges w)));;
  entries ← rangeMap adapters;
  forM_ entries (fun '(adapterName, a) =>
    frontends ← rangeMap (aeFrontends a);
    forM_ frontends (fun '(frontendName, f) =>
      handleMetrics_frontend v5 adapterName a frontendName f));;
  mret None.

End Exposition.

(** ** Start-up and discovery ([main.go], lines 186-267) *)

Module filepath.

Definition isSlash (c : ascii) : bool := Ascii.eqb c "/"%char.

(** The characters after the last separator, collected in [cur]. *)
Fixpoint lastElem (p : string) (cur : string) : string :=
  match p with
  | EmptyString => cur
  | String c r =>
      if isSlash c then lastElem r EmptyString
      else lastElem r (cur +:+ String c EmptyString)
  end.

Fixpoint stripTrailing (p : string) : string :=
  match p with
  | EmptyString => EmptyString
  | String c r =>
      match stripTrailing r with
      | EmptyString => if isSlash c then EmptyString else String c EmptyString
      | r' => String c r'
      end
  end.

(** [filepath.Base]: the last element of the path, trailing separators
    removed first. *)
Definition Base (p : string) : string :=
  match p with
  | EmptyString => "."
  | _ =>
      match lastElem (stripTrailing p) EmptyString with
      | EmptyString => "/"
      | e => e
      end
  end.

(** [filepath.Join] of elements that need no cleaning. *)
Fixpoint Join (elems : list string) : string :=
  match elems with
  | [] => EmptyString
  | [e] => e
  | e :: rest => e +:+ "/" +:+ Join rest
  end.

End filepath.

(** [s[n:]]; [None] is the run-time panic for [n > len(s)]. *)
Fixpoint sliceFrom (n : nat) (s : string) : option string :=
  match n, s with
  | O, _ => Some s
  | S n', String _ r => sliceFrom n' r
  | S _, EmptyString => None
  end.

(** What the operating system answers during start-up. *)
Record FileSystem : Type := mkFileSystem {
  notExist : string -> bool;             (* os.IsNotExist of os.Stat's error *)
  Glob : string -> result (list string); (* filepath.Glob *)
  OpenRO : string -> option error        (* frontend.OpenRO: None is success *)
}.

(** The process: the global [adapters], what went to standard error, what
    [slog] printed, and the next free file descriptor. *)
Record Process : Type := mkProcess {
  adapters : gmap string adapterEntry;
  stderr : list string;
  infos : list slog.Record_;
  nextFd : nat
}.

Inductive Halt : Type :=
| Exit (code : Z)      (* os.Exit *)
| Panic.               (* a run-time panic *)

Definition P (A : Type) : Type := Process -> (Halt + A) * Process.

#[global] Instance P_ret : MRet P := fun A a s => (inr a, s).
#[global] Instance P_bind : MBind P :=
  fun A B f m s =>
    match m s with
    | (inl h, s') => (inl h, s')
    | (inr a, s') => f a s'
    end.

Definition halt {A} (h : Halt) : P A := fun s => (inl h, s).

Definition eprint (text : string) : P unit :=
  fun s => (inr tt, mkProcess (adapters s) (stderr s ++ [text]) (infos s)
                      (nextFd s)).

Definition slogInfo (msg : string) (attrs : list (string * slog.Value))
  : P unit :=
  fun s => (inr tt, mkProcess (adapters s) (stderr s)
                      (infos s ++ [slog.mkRecord slog.LevelInfo msg attrs])
                      (nextFd s)).

Fixpoint forP_ {A} (l : list A) (body : A -> P unit) : P unit :=
  match l with
  | [] => mret tt
  | x :: l' => body x ≫= fun _ => forP_ l' body
  end.

(** ** The command line (lines 19-22 and the call of [flag.Parse])

    [main.go] declares two string flags, [devpath] (read through the
    pointer [basePath]) and [listen], on the default flag set of the
    [flag] package, whose error handling is [ExitOnError].  [parseArgs]
    is the loop of [FlagSet.Parse] over [parseOne], on [os.Args[1:]]. *)

Module flag.

(** What the two flag variables hold. *)
Record Values : Type := mkValues { devpath : string; listen : string }.

(** Their default values (lines 20 and 21). *)
Definition defaults : Values := mkValues "/dev/dvb" ":8027".

Definition defined (name : string) : bool :=
  String.eqb name "devpath" || String.eqb name "listen".

(** [flag.Value.Set] on the flag of that name; a string flag takes every
    value. *)
Definition set (name value : string) (v : Values) : Values :=
  if String.eqb name "devpath" then mkValues value (listen v)
  else if String.eqb name "listen" then mkValues (devpath v) value
  else v.

(** The name up to the first [=] and the value after it, if there is
    one. *)
Fixpoint cut (s : string) : string * option string :=
  match s with
  | EmptyString => (EmptyString, None)
  | String c r =>
      if Ascii.eqb c "="%char then (EmptyString, Some r)
      else let '(name, value) := cut r in (String c name, value)
  end.

Inductive Outcome : Type :=
| Parsed (v : Values)         (* no error: the flags are set *)
| ErrHelp                     (* -h or -help, which are not defined *)
| Failed (msg : string).      (* the error of [failf] *)

(** The arguments are read until the first one that is not a flag, or
    the terminator [--].  A flag that has no [=value] takes the next
    argument as its value. *)
Fixpoint parseArgs (args : list string) (v : Values) : Outcome :=
  match args with
  | [] => Parsed v
  | s :: rest =>
      match s with
      | String c0 (String c1 r1) =>
          if negb (Ascii.eqb c0 "-"%char) then Parsed v
          else if Ascii.eqb c1 "-"%char && String.eqb r1 EmptyString
          then Parsed v
          else
            let name :=
              if Ascii.eqb c1 "-"%char then r1 else String c1 r1 in
            match name with
            | EmptyString => Failed ("bad flag syntax: " +:+ s)
            | String c r =>
                if Ascii.eqb c "-"%char || Ascii.eqb c "="%char
                then Failed ("bad flag syntax: " +:+ s)
                else
                  let '(name', value) := cut r in
                  let name := String c name' in
                  if negb (defined name) then
                    if String.eqb name "help" || String.eqb name "h"
                    then ErrHelp
                    else Failed ("flag provided but not defined: -"
                                   +:+ name)
                  else
                    match value with
                    | Some x => parseArgs rest (set name x v)
                    | None =>
                        match rest with
                        | x :: rest' => parseArgs rest' (set name x v)
                        | [] => Failed ("flag needs an argument: -"
                                          +:+ name)
                        end
                    end
            end
      | _ => Parsed v
      end
  end.

(** [flag.Usage]: the heading and one [Fprint] for each flag, in the
    order of the names, all on standard error. *)
Definition usage (prog : string) : P unit :=
  eprint ("Usage of " +:+ prog +:+ ":" +:+ nl);;
  eprint ("  -devpath string" +:+ nl +:+ "    " +:+ tab
            +:+ "Base path to dvb adapters (default "
            +:+ dq +:+ "/dev/dvb" +:+ dq +:+ ")" +:+ nl);;
  eprint ("  -listen string" +:+ nl +:+ "    " +:+ tab
            +:+ "Listen bind in format [host]:port (default "
            +:+ dq +:+ ":8027" +:+ dq +:+ ")" +:+ nl).

(** [flag.Parse()] under [ExitOnError]: the help request prints the
    usage and exits with code 0; an error is printed, then the usage,
    and the process exits with code 2. *)
Definition Parse (prog : string) (args : list string) : P Values :=
  match parseArgs args defaults with
  | Parsed v => mret v
  | ErrHelp => usage prog;; halt (Exit 0)
  | Failed msg => eprint (msg +:+ nl);; usage prog;; halt (Exit 2)
  end.

End flag.

Section Startup.
Variable fs : FileSystem.
Variable basePath : string.   (* what the pointer basePath holds *)

Definition openRO (fpath : string) : P (result frontend.Device) :=
  fun s =>
    match OpenRO fs fpath with
    | Some err => (inr (Err err), s)
    | None =>
        (inr (Ok (frontend.mkDevice fpath (nextFd s))),
         mkProcess (adapters s) (stderr s) (infos s) (S (nextFd s)))
    end.

(** Lines 237-255: both entries are created only when the map has none
    under the path; [a] is a pointer, so the new frontend shows in the
    entry that [adapters] holds. *)
Definition register (adapterName : string) (adapterNum : Z)
           (frontendName : string) (frontendNum : Z)
           (fdev : frontend.Device) : P unit :=
  fun s =>
    let '(a, reg) :=
      match adapters s !! adapterName with
      | Some a => (a, adapters s)
      | None =>
          let a := mkAdapterEntry adapterNum adapterName ∅ in
          (a, <[adapterName := a]> (adapters s))
      end in
    let reg :=
      match aeFrontends a !! frontendName with
      | Some _ => reg
      | None =>
          let f := mkFrontendEntry frontendNum frontendName fdev in
          <[adapterName :=
              mkAdapterEntry (aeID a) (aeName a)
                (<[frontendName := f]> (aeFrontends a))]> reg
      end in
    (inr tt, mkProcess reg (stderr s) (infos s) (nextFd s)).

(** The body of the loop over [frontendPaths] (lines 218-256). *)
Definition main_frontend (adapterName : string) (adapterNum : Z)
           (frontendName : string) : P unit :=
  match sliceFrom 8 (filepath.Base frontendName) with
  | None => halt Panic
  | Some frontendNumStr =>
      match strconv.Atoi frontendNumStr with
      | Err _ =>
          eprint ("Invalid frontend number: " +:+ frontendNumStr +:+ nl)
      | Ok frontendNum =>
          slogInfo "Found a device"
            [("adapter", slog.IntValue adapterNum);
             ("frontend", slog.IntValue frontendNum)];;
          let fpath :=
            filepath.Join [basePath;
                           "adapter" +:+ strconv.Itoa adapterNum;
                           "frontend" +:+ strconv.Itoa frontendNum] in
          r ← openRO fpath;
          match r with
          | Err err =>
              eprint ("Error opening frontend " +:+ fpath +:+ ": " +:+ err
                        +:+ nl);;
              halt (Exit 2)
          | Ok fdev =>
              register adapterName adapterNum frontendName frontendNum fdev
          end
      end
  end.

(** The body of the loop over [adapterPaths] (lines 202-257). *)
Definition main_adapter (adapterName : string) : P unit :=
  match sliceFrom 7 (filepath.Base adapterName) with
  | None => halt Panic
  | Some adapterNumStr =>
      match strconv.Atoi adapterNumStr with
      | Err _ =>
          eprint ("Invalid adapter number: " +:+ adapterNumStr +:+ nl)
      | Ok adapterNum =>
          match Glob fs (filepath.Join [adapterName; "frontend*"]) with
          | Err err =>
              eprint ("Error finding frontends in " +:+ adapterName +:+ ": "
                        +:+ err +:+ nl)
          | Ok frontendPaths =>
              forP_ frontendPaths (main_frontend adapterName adapterNum)
          end
      end
  end.

(** How [main] ends, when it does not halt: by returning, or in
    [e.Start], serving requests. *)
Inductive Ending : Type := Returned | Serving.

(** Lines 195-257: the discovery.  [None] is the early [return] on a
    failing [Glob]. *)
Definition discover : P (option unit) :=
  match Glob fs (filepath.Join [basePath; "adapter*"]) with
  | Err err =>
      eprint ("Error finding adapters: " +:+ err +:+ nl);;
      mret None
  | Ok adapterPaths =>
      forP_ adapterPaths main_adapter;;
      mret (Some tt)
  end.

End Startup.

(** [main], started as [prog] with the arguments [args] ([os.Args[0]]
    and [os.Args[1:]]).  After the discovery it sets up the routes and
    calls [e.Start] on the [listen] address, which is where [Serving]
    stands for. *)
Definition main (fs : FileSystem) (prog : string) (args : list string)
  : P Ending :=
  v ← flag.Parse prog args;
  let basePath := flag.devpath v in
  (if notExist fs basePath then
     eprint ("Base path " +:+ basePath +:+ " does not exist" +:+ nl);;
     halt (Exit 1)
   else mret tt);;
  d ← discover fs basePath;
  match d with
  | None => mret Returned
  | Some _ => mret Serving
  end.

(** The process as the operating system starts it. *)
Definition boot : Process := mkProcess ∅ [] [] 3.

(** * What the specification says, in its own words *)

(** ** Labels *)

(** A label list read as key/value pairs. *)
Fixpoint pairsOf (l : list string) : list (string * string) :=
  match l with
  | k :: v :: rest => (k, v) :: pairsOf rest
  | _ => []
  end.

Definition labelText (kv : string * string) : string :=
  kv.1 +:+ "=" +:+ dq +:+ kv.2 +:+ dq.

Fixpoint joinComma (l : list string) : string :=
  match l with
  | [] => EmptyString
  | [x] => x
  | x :: rest => x +:+ "," +:+ joinComma rest
  end.

(** [{k1="v1",k2="v2",...}] *)
Definition labelBlock (pairs : list (string * string)) : string :=
  "{" +:+ joinComma (map labelText pairs) +:+ "}".

(** ** Values *)

Definition isDigit (c : ascii) : bool :=
  match strconv.digit_of c with Some _ => true | None => false end.

(** The integer that a string of decimal digits, with an optional leading
    minus sign and no other character, denotes. *)
Definition decimalValue (s : string) : option Z :=
  match s with
  | EmptyString => None
  | String "-"%char (String c r) => Z.opp <$> strconv.parse_digits 0 (String c r)
  | _ => strconv.parse_digits 0 s
  end.

Fixpoint allDigits (s : string) : bool :=
  match s with
  | EmptyString => true
  | String c r => isDigit c && allDigits r
  end.

(** At least one digit, a point, and exactly six digits. *)
Fixpoint fixedTail (seen : bool) (s : string) : bool :=
  match s with
  | EmptyString => false
  | String c r =>
      if isDigit c then fixedTail true r
      else if Ascii.eqb c "."%char
           then seen && (String.length r =? 6)%nat && allDigits r
           else false
  end.

(** A decimal with six fractional digits, with an optional minus sign. *)
Definition isFixed6 (s : string) : bool :=
  match s with
  | String "-"%char r => fixedTail false r
  | _ => fixedTail false s
  end.

Definition finite (x : spec_float) : bool :=
  match x with
  | S754_zero _ | S754_finite _ _ _ => true
  | S754_infinity _ | S754_nan => false
  end.

(** ** Legacy-scale normalisation

    [percentage = rawValue * 100 / maxRawValue], the raw value being the
    signed 16-bit reading taken bit for bit as unsigned. *)
Definition unsigned16 (raw : Z) : Z := if raw <? 0 then raw + 65536 else raw.
Definition percentage (raw : Z) : Z := (unsigned16 raw * 100) / 65535.

(** * The vocabulary of the proofs

    From here on the writer is the buffer that keeps the chunks it was
    handed.  A [Sample] is one call of [writeSingle]; a [Reading] is a
    sample without its label list. *)

Record Sample : Type := mkSample {
  sType : string;
  sName : string;
  sVal : value;
  sHelp : string;
  sPairs : list string
}.

Record Reading : Type := mkReading {
  rType : string;
  rName : string;
  rVal : value;
  rHelp : string
}.

Definition chunkOf (x : Sample) : string :=
  sampleText (sType x) (sName x) (valToString (sVal x)).1 (sHelp x) (sPairs x).

(** The two orders in which the loop of [mkPairs] can visit the labels of
    a frontend. *)
Definition labelOrders (adapter frontend_ : string) (pairs : list string) : Prop :=
  pairs = ["adapter"; adapter; "frontend"; frontend_]
  \/ pairs = ["frontend"; frontend_; "adapter"; adapter].

Definition labelled (adapter frontend_ : string) (r : Reading) (x : Sample)
  : Prop :=
  exists pairs, labelOrders adapter frontend_ pairs
    /\ x = mkSample (rType r) (rName r) (rVal r) (rHelp r) pairs.

(** The world after [samples] were written, [logs] printed and [k] map
    loops started. *)
Definition extend (w : World (list string)) (samples : list Sample)
           (logs : list slog.Record_) (k : nat) : World (list string) :=
  mkWorld (echo.setWriter (echo.Writer (resp w) ++ map chunkOf samples) (resp w))
          (logged w ++ logs) (ranges w + k).

(** ** The metrics of the source, as tables *)

Definition decibelOf (p : frontend.ValueStat) : value :=
  VFloat64 (frontend.Decibel p).
Definition counterOf (p : frontend.ValueStat) : value :=
  VInt Tuint64 (frontend.Counter p).

(** What a v5 metric is denominated in. *)
Inductive Unit_ : Type := Decibels | Count.

Definition scaleOf (u : Unit_) : frontend.Scale :=
  match u with
  | Decibels => frontend.ScaleDecibel
  | Count => frontend.ScaleCounter
  end.

Definition typeOf (u : Unit_) : string :=
  match u with Decibels => "gauge" | Count => "counter" end.

Definition boxOf (u : Unit_) : frontend.ValueStat -> value :=
  match u with Decibels => decibelOf | Count => counterOf end.

(** The v5 metrics in the order of the source: the name, the help text,
    the statistic of the [Stat] reply it is read from, and its unit. *)
Record V5Metric : Type := mkV5Metric {
  v5Name : string;
  v5Help : string;
  v5Field : frontend.Stat_ -> list frontend.ValueStat;
  v5Unit : Unit_
}.

Definition v5Metrics : list V5Metric :=
  [ mkV5Metric "dvb_fe_snr"
      "Indicates the Signal to Noise ratio for the main carrier"
      frontend.CNR Decibels;
    mkV5Metric "dvb_fe_signal_strength_decibels"
      "Signal strength level at the analog part of the tuner or of the demodd"
      frontend.Signal Decibels;
    mkV5Metric "dvb_fe_pre_error_bit_count"
      "Number of bit errors before the forward error correction (FEC) on the inner coding block (before Viterbi, LDPC or other inner code). Should be divided by _total_bit_counts."
      frontend.PreErrBit Count;
    mkV5Metric "dvb_fe_pre_total_bit_count"
      "Amount of bits received before the inner code block, during the same period as _error_bit_count"
      frontend.PreTotBit Count;
    mkV5Metric "dvb_fe_post_error_bit_count"
      "Number of bit errors after the forward error correction (FEC) done by inner code block (after Viterbi, LDPC or other inner code). Should be divided by _total_bit_counts."
      frontend.PostErrBit Count;
    mkV5Metric "dvb_fe_post_total_bit_count"
      "Amount of bits received after the inner coding, during the same period as _error_bit_count"
      frontend.PostTotBit Count;
    mkV5Metric "dvb_fe_error_block_count"
      "Number of block errors after the outer forward error correction coding (after Reed-Solomon or other outer code)."
      frontend.ErrBlk Count;
    mkV5Metric "dvb_fe_total_block_count"
      "Total number of blocks received during the same period as _error_block_count"
      frontend.TotBlk Count ].

(** The flags of the v3 status word, in the order of the source. *)
Definition v3Flags : list (Z * string * string) :=
  [ (frontend.HasSignal, "dvb_fe_has_signal",
     "Frontend found something above the noise levell");
    (frontend.HasCarrier, "dvb_fe_has_carrier", "Frontend found a DVB signal");
    (frontend.HasViterbi, "dvb_fe_has_viterbi", "FEC is stable");
    (frontend.HasSync, "dvb_fe_has_sync", "Frontend found sync bytes");
    (frontend.HasLock, "dvb_fe_has_lock", "Frontend is receiving data") ].

Definition berHelp : string :=
  "Bit error rate for the signal currently received/demodulated".
Definition snrHelp : string :=
  "Signal-to-noise ratio for the signal currently received by the front-end".
Definition ssHelp : string :=
  "Signal strength value for the signal currently received by the front-end".
Definition ubHelp : string :=
  "Number of uncorrected blocks detected by the device driver during its lifetime".

(** ** What one frontend contributes *)

Section ReadingLists.
Variable hw : frontend.Driver.

(** [m] writes, for each reading of [rs] in turn, one sample that
    carries the labels in one of their orders, and logs [logs]. *)
Definition Emits (adapter frontend_ : string) (m : M (list string) unit)
           (rs : list Reading) (logs : list slog.Record_) : Prop :=
  forall w, exists samples k,
    m w = (tt, extend w samples logs k)
    /\ Forall2 (labelled adapter frontend_) rs samples.

Definition labelsOf (adapter frontend_ : string) : gmap string string :=
  <["frontend" := frontend_]> (<["adapter" := adapter]> ∅).

Definition statReading (typ : string) (scale : frontend.Scale)
           (box : frontend.ValueStat -> value)
           (vs : list frontend.ValueStat) (name help : string)
  : list Reading :=
  match vs with
  | p :: _ =>
      if bool_decide (frontend.Scale_ p = scale)
      then [mkReading typ name (box p) help] else []
  | [] => []
  end.

Definition scalarReading (typ : string) (r : result Z) (box : Z -> value)
           (name help : string) : list Reading :=
  match r with
  | Ok x => [mkReading typ name (box x) help]
  | Err _ => []
  end.

Definition v5Readings (fe : frontend.Device) : list Reading :=
  match frontend.Stat hw fe with
  | Err _ => []
  | Ok stat =>
      flat_map (fun m => statReading (typeOf (v5Unit m)) (scaleOf (v5Unit m))
                           (boxOf (v5Unit m)) (v5Field m stat)
                           (v5Name m) (v5Help m))
               v5Metrics
  end.

Definition errorRecord (msg adapterName frontendName : string) (err : error)
  : slog.Record_ :=
  slog.mkRecord slog.LevelError msg
    [("adapter", slog.StringValue adapterName);
     ("frontend", slog.StringValue frontendName);
     ("error", slog.StringValue err)].

Definition v5Logs (adapterName frontendName : string) (fe : frontend.Device)
  : list slog.Record_ :=
  match frontend.Stat hw fe with
  | Err err =>
      [errorRecord "error getting fe status via v5 API" adapterName
         frontendName err]
  | Ok _ => []
  end.

Definition flagReading (st flag : Z) (name help : string) : Reading :=
  mkReading "gauge" name (VBool (0 <? Z.land st flag)) help.

Definition percentOf (raw : Z) : value := VInt Tint (percentOfRaw raw).

Definition v3Readings (fe : frontend.Device) : list Reading :=
  match frontend.Status hw fe with
  | Err _ => []
  | Ok st =>
      map (fun m => flagReading st m.1.1 m.1.2 m.2) v3Flags
      ++ scalarReading "gauge" (frontend.BER hw fe) (VInt Tuint32)
           "dvb_fe_ber" berHelp
      ++ scalarReading "gauge" (frontend.SNR hw fe) percentOf
           "dvb_fe_snr_percent" snrHelp
      ++ scalarReading "gauge" (frontend.SignalStrength hw fe) percentOf
           "dvb_fe_signal_strength_percent" ssHelp
      ++ scalarReading "counter" (frontend.UncorrectedBlocks hw fe)
           (VInt Tuint32) "dvb_fe_uncorrected_blocks_total" ubHelp
  end.

Definition v3Logs (adapterName frontendName : string) (fe : frontend.Device)
  : list slog.Record_ :=
  match frontend.Status hw fe with
  | Err err =>
      [errorRecord "error getting fe status" adapterName frontendName err]
  | Ok _ => []
  end.

(** Everything one frontend contributes to the response and to the
    log. *)
Definition deviceReadings (v5 : bool) (fe : frontend.Device) : list Reading :=
  (if v5 then v5Readings fe else []) ++ v3Readings fe.

Definition deviceLogs (v5 : bool) (adapterName frontendName : string)
           (fe : frontend.Device) : list slog.Record_ :=
  (if v5 then v5Logs adapterName frontendName fe else [])
    ++ v3Logs adapterName frontendName fe.

End ReadingLists.

(** ** The visits of a poll *)

(** One round of the inner loop: an entry of [adapters] and one of its
    frontends. *)
Record Visit : Type := mkVisit {
  vAdapterName : string;
  vAdapter : adapterEntry;
  vFrontendName : string;
  vFrontend : frontendEntry
}.

Definition frontendsOf (adapterName : string) (a : adapterEntry) : list Visit :=
  map (fun kv => mkVisit adapterName a kv.1 kv.2) (map_to_list (aeFrontends a)).

(** Every registered frontend, once. *)
Definition registered (reg : gmap string adapterEntry) : list Visit :=
  flat_map (fun kv => frontendsOf kv.1 kv.2) (map_to_list reg).

(** The response after [resp.Header().Set] and [resp.WriteHeader]. *)
Definition committed {W} (w : World W) : World W :=
  mkWorld (echo.WriteHeader http.StatusOK
             (echo.HeaderSet "Content-Type" "text/plain" (resp w)))
          (logged w) (ranges w).

Section Visits.
Variable hw : frontend.Driver.
Variable mapOrder : nat -> nat.
Variable v5 : bool.

Abbreviation B := (list string).

Definition visitLogs (d : Visit) : list slog.Record_ :=
  deviceLogs hw v5 (vAdapterName d) (vFrontendName d) (feDevice (vFrontend d)).

(** The samples that a visit writes: one for each reading of the
    frontend, in order, labelled with the two identifiers. *)
Definition visitSamples (d : Visit) (samples : list Sample) : Prop :=
  Forall2 (labelled (strconv.Itoa (aeID (vAdapter d)))
                    (strconv.Itoa (feID (vFrontend d))))
          (deviceReadings hw v5 (feDevice (vFrontend d))) samples.

Definition Polls (m : M B unit) (vs : list Visit) : Prop :=
  forall w, exists sampless k,
    m w = (tt, extend w (concat sampless) (flat_map visitLogs vs) k)
    /\ Forall2 visitSamples vs sampless.

(** The body of the outer loop. *)
Definition pollAdapter (kv : string * adapterEntry) : M B unit :=
  let '(adapterName, a) := kv in
  frontends ← rangeMap mapOrder (aeFrontends a);
  forM_ frontends (fun '(frontendName, f) =>
    handleMetrics_frontend hw mapOrder v5 adapterName a frontendName f).

End Visits.

(** ** What the loops leave alone *)

Section Frame.
Context {W : Type} `{!io.Writer W}.
Variable hw : frontend.Driver.
Variable mapOrder : nat -> nat.

(** [m] leaves the header, the status and the commit flag alone. *)
Definition Keeps {A} (m : M W A) : Prop :=
  forall w, echo.Header (resp (m w).2) = echo.Header (resp w)
            /\ echo.Status (resp (m w).2) = echo.Status (resp w)
            /\ echo.Committed (resp (m w).2) = echo.Committed (resp w).

(** The two loops of the handler. *)
Definition pollAll (v5 : bool) (reg : gmap string adapterEntry) : M W unit :=
  entries ← rangeMap mapOrder reg;
  forM_ entries (fun '(adapterName, a) =>
    frontends ← rangeMap mapOrder (aeFrontends a);
    forM_ frontends (fun '(frontendName, f) =>
      handleMetrics_frontend hw mapOrder v5 adapterName a frontendName f)).

End Frame.

(** ** Which readings a poll obtains *)

Section ObtainedReadings.
Variable hw : frontend.Driver.
Variable v5 : bool.
Variable fe : frontend.Device.

(** The readings that a poll obtains from the frontend [fe]: a v5
    statistic when the revision polls them, the [Stat] query succeeds
    and the first value of the statistic is on the scale of the metric;
    a v3 flag when the [Status] query succeeds; a v3 scalar when the
    [Status] query and its own query succeed. *)
Inductive Obtained : Reading -> Prop :=
| obtained_stat stat m p rest :
    v5 = true ->
    frontend.Stat hw fe = Ok stat ->
    In m v5Metrics ->
    v5Field m stat = p :: rest ->
    frontend.Scale_ p = scaleOf (v5Unit m) ->
    Obtained (mkReading (typeOf (v5Unit m)) (v5Name m) (boxOf (v5Unit m) p)
                        (v5Help m))
| obtained_flag st flag name help :
    frontend.Status hw fe = Ok st ->
    In (flag, name, help) v3Flags ->
    Obtained (flagReading st flag name help)
| obtained_ber st x :
    frontend.Status hw fe = Ok st ->
    frontend.BER hw fe = Ok x ->
    Obtained (mkReading "gauge" "dvb_fe_ber" (VInt Tuint32 x) berHelp)
| obtained_snr st raw :
    frontend.Status hw fe = Ok st ->
    frontend.SNR hw fe = Ok raw ->
    Obtained (mkReading "gauge" "dvb_fe_snr_percent" (percentOf raw) snrHelp)
| obtained_ss st raw :
    frontend.Status hw fe = Ok st ->
    frontend.SignalStrength hw fe = Ok raw ->
    Obtained (mkReading "gauge" "dvb_fe_signal_strength_percent"
                        (percentOf raw) ssHelp)
| obtained_ub st x :
    frontend.Status hw fe = Ok st ->
    frontend.UncorrectedBlocks hw fe = Ok x ->
    Obtained (mkReading "counter" "dvb_fe_uncorrected_blocks_total"
                        (VInt Tuint32 x) ubHelp).

End ObtainedReadings.

Section Samples.
Variable hw : frontend.Driver.
Variable v5 : bool.

(** A sample of the frontend visited in [d] for the reading [r]. *)
Definition sampleOf (d : Visit) (r : Reading) (x : Sample) : Prop :=
  Obtained hw v5 (feDevice (vFrontend d)) r
  /\ labelled (strconv.Itoa (aeID (vAdapter d)))
              (strconv.Itoa (feID (vFrontend d))) r x.

End Samples.

(** ** The exposition format, as the specification words it

    A record is an optional [# HELP] line, a [# TYPE] line, the sample
    line [name{labels} value] and a blank line. *)






(** A sample as a record whose labels are a mapping. *)
Definition recordOf (x : Sample) : Reading * gmap string string :=
  (mkReading (sType x) (sName x) (sVal x) (sHelp x),
   list_to_map (pairsOf (sPairs x))).

(** The records of a visit, labels as a mapping. *)
Definition visitRecords (hw : frontend.Driver) (v5 : bool) (d : Visit)
  : list (Reading * gmap string string) :=
  map (fun r => (r, labelsOf (strconv.Itoa (aeID (vAdapter d)))
                             (strconv.Itoa (feID (vFrontend d)))))
      (deviceReadings hw v5 (feDevice (vFrontend d))).

(** ** Start-up and discovery *)

(** The process after a line went to standard error. *)
Definition printed (s : Process) (text : string) : Process :=
  mkProcess (adapters s) (stderr s ++ [text]) (infos s) (nextFd s).

Section Messages.
Variable fs : FileSystem.
Variable basePath : string.

Definition devicePath (adapterNum frontendNum : Z) : string :=
  filepath.Join [basePath; "adapter" +:+ strconv.Itoa adapterNum;
                 "frontend" +:+ strconv.Itoa frontendNum].

Definition foundRecord (adapterNum frontendNum : Z) : slog.Record_ :=
  slog.mkRecord slog.LevelInfo "Found a device"
    [("adapter", slog.IntValue adapterNum);
     ("frontend", slog.IntValue frontendNum)].

End Messages.

(** The registry has an entry for the frontend path under the adapter
    path. *)
Definition covered (reg : gmap string adapterEntry)
           (adapterName frontendName : string) : Prop :=
  exists a, reg !! adapterName = Some a
            /\ is_Some (aeFrontends a !! frontendName).

Section Settled.
Variable fs : FileSystem.
Variable basePath : string.

(** What a frontend path needs for the scan to pass it without a change:
    a malformed number, or a device that opens and is registered. *)
Definition frontendSettled (adapterName : string) (adapterNum : Z)
           (reg : gmap string adapterEntry) (frontendName : string) : Prop :=
  match sliceFrom 8 (filepath.Base frontendName) with
  | None => False
  | Some frontendNumStr =>
      match strconv.Atoi frontendNumStr with
      | Err _ => True
      | Ok frontendNum =>
          OpenRO fs (devicePath basePath adapterNum frontendNum) = None
          /\ covered reg adapterName frontendName
      end
  end.

Definition adapterSettled (reg : gmap string adapterEntry)
           (adapterName : string) : Prop :=
  match sliceFrom 7 (filepath.Base adapterName) with
  | None => False
  | Some adapterNumStr =>
      match strconv.Atoi adapterNumStr with
      | Err _ => True
      | Ok adapterNum =>
          match Glob fs (filepath.Join [adapterName; "frontend*"]) with
          | Err _ => True
          | Ok frontendPaths =>
              Forall (frontendSettled adapterName adapterNum reg) frontendPaths
          end
      end
  end.

Definition grows (reg reg' : gmap string adapterEntry) : Prop :=
  forall adapterName frontendName,
    covered reg adapterName frontendName ->
    covered reg' adapterName frontendName.

End Settled.

(** The identities that the registry holds, one for each entry. *)
Definition identities (reg : gmap string adapterEntry) : list (Z * Z) :=
  map (fun d => (aeID (vAdapter d), feID (vFrontend d))) (registered reg).

(** ** Names and paths *)

(** No character of [s] is [c]. *)
Fixpoint without (c : ascii) (s : string) : bool :=
  match s with
  | EmptyString => true
  | String x r => negb (Ascii.eqb x c) && without c r
  end.

(** ** What the discovery lists and what it keeps *)

(** [register] seen from the registry alone. *)
Definition registerIn (reg : gmap string adapterEntry)
           (adapterName : string) (adapterNum : Z)
           (frontendName : string) (frontendNum : Z)
           (fdev : frontend.Device) : gmap string adapterEntry :=
  adapters (register adapterName adapterNum frontendName frontendNum fdev
              (mkProcess reg [] [] 0)).2.

(** The registry [reg'] has every entry of [reg], with the same number,
    the same name and at least the same frontends, each with the handle
    it had. *)
Definition keepsEntries (reg reg' : gmap string adapterEntry) : Prop :=
  forall adapterName a,
    reg !! adapterName = Some a ->
    exists a', reg' !! adapterName = Some a'
               /\ aeID a' = aeID a /\ aeName a' = aeName a
               /\ aeFrontends a ⊆ aeFrontends a'.

Section Listing.
Variable fs : FileSystem.
Variable basePath : string.

(** An adapter path that [Glob] lists under the base, with the number it
    ends in. *)
Definition adapterListed (adapterName : string) (adapterNum : Z) : Prop :=
  exists l str,
    Glob fs (filepath.Join [basePath; "adapter*"]) = Ok l
    /\ In adapterName l
    /\ sliceFrom 7 (filepath.Base adapterName) = Some str
    /\ strconv.Atoi str = Ok adapterNum.

(** A frontend path that [Glob] lists under the adapter path, with the
    number it ends in. *)
Definition frontendListed (adapterName frontendName : string)
           (frontendNum : Z) : Prop :=
  exists l str,
    Glob fs (filepath.Join [adapterName; "frontend*"]) = Ok l
    /\ In frontendName l
    /\ sliceFrom 8 (filepath.Base frontendName) = Some str
    /\ strconv.Atoi str = Ok frontendNum.

(** A pair of paths that the scan reaches with two numbers. *)
Definition listed (adapterName frontendName : string) : Prop :=
  exists adapterNum frontendNum,
    adapterListed adapterName adapterNum
    /\ frontendListed adapterName frontendName frontendNum.

(** Every entry is filed under its own name; its number is the one its
    name ends in; and the handle of a frontend is open on the path built
    from the two numbers. *)
Definition wellKeyed (reg : gmap string adapterEntry) : Prop :=
  forall adapterName a,
    reg !! adapterName = Some a ->
    aeName a = adapterName
    /\ (exists str, sliceFrom 7 (filepath.Base adapterName) = Some str
                    /\ strconv.Atoi str = Ok (aeID a))
    /\ forall frontendName f,
         aeFrontends a !! frontendName = Some f ->
         feName f = frontendName
         /\ (exists str, sliceFrom 8 (filepath.Base frontendName) = Some str
                         /\ strconv.Atoi str = Ok (feID f))
         /\ frontend.path (feDevice f) = devicePath basePath (aeID a) (feID f).

(** What [reg'] registers beyond [reg] is listed. *)
Definition onlyListed (reg reg' : gmap string adapterEntry) : Prop :=
  forall adapterName frontendName,
    covered reg' adapterName frontendName ->
    covered reg adapterName frontendName
    \/ listed adapterName frontendName.

End Listing.

(** ** The world apart from the writer *)

(** The world [w] with [wr] in the place of its writer. *)
Definition withWriter {W1 W2} (wr : W2) (w : World W1) : World W2 :=
  mkWorld (echo.mkResponse (echo.Header (resp w)) (echo.Status (resp w))
             (echo.Committed (resp w)) wr)
          (logged w) (ranges w).

(** Two runs, each with a writer of its own, that go the same way: from
    worlds that differ in the writer only they return results related by
    [R] and leave worlds that differ in the writer only. *)
Definition Alike {W1 W2 A1 A2} (R : A1 -> A2 -> Prop)
           (m1 : M W1 A1) (m2 : M W2 A2) : Prop :=
  forall w1 w2,
    withWriter tt w1 = withWriter tt w2 ->
    R (m1 w1).1 (m2 w2).1
    /\ withWriter tt (m1 w1).2 = withWriter tt (m2 w2).2.

(** ** Fixtures *)

(** One adapter with one frontend. *)
Definition ex_device : frontend.Device :=
  frontend.mkDevice "/dev/dvb/adapter0/frontend0" 3.
Definition ex_frontend : frontendEntry :=
  mkFrontendEntry 0 "/dev/dvb/adapter0/frontend0" ex_device.
Definition ex_adapter : adapterEntry :=
  mkAdapterEntry 0 "/dev/dvb/adapter0"
    {[ "/dev/dvb/adapter0/frontend0" := ex_frontend ]}.
Definition ex_registry : gmap string adapterEntry :=
  {[ "/dev/dvb/adapter0" := ex_adapter ]}.
Definition ex_visit : Visit :=
  mkVisit "/dev/dvb/adapter0" ex_adapter "/dev/dvb/adapter0/frontend0"
    ex_frontend.
Definition ex_request {W} (wr : W) : World W := mkWorld (echo.fresh wr) [] 0.

Definition ex_stat : frontend.Stat_ :=
  frontend.mkStat
    [frontend.mkValueStat frontend.ScaleRelative (S754_zero false) 0]
    [frontend.mkValueStat frontend.ScaleDecibel (S754_finite false 25 (-1)) 0]
    [] [frontend.mkValueStat frontend.ScaleCounter (S754_zero false) 1000]
    [frontend.mkValueStat frontend.ScaleNotAvailable (S754_zero false) 0]
    [] [] [].

(** A tuner that has lock; its SNR register reads 123. *)
Definition ex_locked : frontend.Driver :=
  frontend.mkDriver (fun _ => Ok ex_stat) (fun _ => Ok 31) (fun _ => Ok 0)
    (fun _ => Ok 123) (fun _ => Ok (-1)) (fun _ => Ok 7).

(** A tuner whose status query fails while its other queries answer. *)
Definition ex_noStatus : frontend.Driver :=
  frontend.mkDriver (fun _ => Err "ENOTSUP") (fun _ => Err "EIO")
    (fun _ => Ok 5) (fun _ => Ok 123) (fun _ => Ok 456) (fun _ => Ok 7).

(** A tuner whose bit-error-rate query alone fails. *)
Definition ex_noBER : frontend.Driver :=
  frontend.mkDriver (fun _ => Ok ex_stat) (fun _ => Ok 31)
    (fun _ => Err "EIO") (fun _ => Ok 123) (fun _ => Ok 456) (fun _ => Ok 7).

(** [adapterX], [adapter0] with two frontends, [adapter00] with one; every
    frontend opens. *)
Definition ex_tree : FileSystem :=
  mkFileSystem
    (fun p => negb (String.eqb p "/dev/dvb"))
    (fun pattern =>
       if String.eqb pattern "/dev/dvb/adapter*" then
         Ok ["/dev/dvb/adapterX"; "/dev/dvb/adapter0"; "/dev/dvb/adapter00"]
       else if String.eqb pattern "/dev/dvb/adapter0/frontend*" then
         Ok ["/dev/dvb/adapter0/frontend0"; "/dev/dvb/adapter0/frontend1"]
       else if String.eqb pattern "/dev/dvb/adapter00/frontend*" then
         Ok ["/dev/dvb/adapter00/frontend0"]
       else Ok [])
    (fun _ => None).

(** The same tree with one more adapter, whose frontend is busy. *)
Definition ex_tree_busy : FileSystem :=
  mkFileSystem
    (notExist ex_tree)
    (fun pattern =>
       if String.eqb pattern "/dev/dvb/adapter*" then
         Ok ["/dev/dvb/adapterX"; "/dev/dvb/adapter0"; "/dev/dvb/adapter1"]
       else if String.eqb pattern "/dev/dvb/adapter1/frontend*" then
         Ok ["/dev/dvb/adapter1/frontend0"]
       else Glob ex_tree pattern)
    (fun p => if String.eqb p "/dev/dvb/adapter1/frontend0"
              then Some "device or resource busy" else None).

(** A base directory that holds [adapter0/frontend0] and nothing else. *)
Definition ex_single : FileSystem :=
  mkFileSystem
    (fun p => negb (String.eqb p "/dev/dvb"))
    (fun pattern =>
       if String.eqb pattern "/dev/dvb/adapter*" then Ok ["/dev/dvb/adapter0"]
       else if String.eqb pattern "/dev/dvb/adapter0/frontend*" then
         Ok ["/dev/dvb/adapter0/frontend0"]
       else Ok [])
    (fun _ => None).

(** A base directory without adapters. *)
Definition ex_bare : FileSystem :=
  mkFileSystem (fun _ => false) (fun _ => Ok []) (fun _ => None).

(** The registry after the discovery on [ex_tree]. *)
Definition ex_scanned : gmap string adapterEntry :=
  adapters (discover ex_tree "/dev/dvb" boot).2.

(** * Proofs *)

(** ** Strings *)

Lemma append_assoc (a b c : string) : (a +:+ b) +:+ c = a +:+ (b +:+ c).
Proof. induction a as [|x a IH]; simpl; [reflexivity | now rewrite IH]. Qed.

Lemma append_nil_r (a : string) : a +:+ EmptyString = a.
Proof. induction a as [|x a IH]; simpl; [reflexivity | now rewrite IH]. Qed.

Lemma append_eq_nil (a b : string) :
  a +:+ b = EmptyString -> a = EmptyString /\ b = EmptyString.
Proof. destruct a; simpl; [auto | discriminate]. Qed.

Lemma length_append (a b : string) :
  String.length (a +:+ b) = (String.length a + String.length b)%nat.
Proof. induction a as [|x a IH]; simpl; [reflexivity | now rewrite IH]. Qed.

(** ** Decimal digits *)

Lemma digit_cases (n : Z) :
  n mod 10 = 0 \/ n mod 10 = 1 \/ n mod 10 = 2 \/ n mod 10 = 3 \/ n mod 10 = 4
  \/ n mod 10 = 5 \/ n mod 10 = 6 \/ n mod 10 = 7 \/ n mod 10 = 8
  \/ n mod 10 = 9.
Proof. pose proof (Z.mod_pos_bound n 10 ltac:(lia)). lia. Qed.

Lemma digit_of_digit_char (n : Z) :
  strconv.digit_of (strconv.digit_char (n mod 10)) = Some (n mod 10).
Proof.
  destruct (digit_cases n) as [E|[E|[E|[E|[E|[E|[E|[E|[E|E]]]]]]]]];
    rewrite E; reflexivity.
Qed.

Lemma isDigit_digit_char (n : Z) : isDigit (strconv.digit_char (n mod 10)) = true.
Proof. unfold isDigit. now rewrite digit_of_digit_char. Qed.

(** Reading back what [utoa_loop] wrote: the digits of [n] come in front
    of [acc], whatever was read before them. *)
Lemma parse_utoa_loop (fuel : nat) :
  forall n acc a, 0 <= n < 10 ^ Z.of_nat fuel ->
    exists k, 0 <= k /\
      strconv.parse_digits a (strconv.utoa_loop fuel n acc)
      = strconv.parse_digits (a * 10 ^ k + n) acc.
Proof.
  induction fuel as [|fuel IH]; intros n acc a Hn.
  - simpl in Hn. exists 0. split; [lia|]. simpl.
    replace n with 0 by lia. f_equal. lia.
  - cbn [strconv.utoa_loop]. destruct (Z.ltb_spec n 10) as [Hlt|Hge].
    + exists 1. split; [lia|]. cbn [strconv.parse_digits].
      rewrite digit_of_digit_char, Z.mod_small by lia. f_equal. lia.
    + destruct (IH (n / 10) (String (strconv.digit_char (n mod 10)) acc) a)
        as (k & Hk & E).
      { split; [apply Z.div_pos; lia|].
        apply Z.div_lt_upper_bound; [lia|].
        rewrite Nat2Z.inj_succ, Z.pow_succ_r in Hn; lia. }
      exists (k + 1). split; [lia|]. rewrite E.
      cbn [strconv.parse_digits]. rewrite digit_of_digit_char. f_equal.
      rewrite Z.pow_add_r, Z.pow_1_r by lia.
      pose proof (Z.div_mod n 10 ltac:(lia)). lia.
Qed.

Lemma utoa_fuel (n : Z) : 0 <= n -> n < 10 ^ Z.of_nat (S (Z.to_nat (Z.log2 n))).
Proof.
  intros Hn. rewrite Nat2Z.inj_succ, Z2Nat.id by apply Z.log2_nonneg.
  destruct (Z.eq_dec n 0) as [->|Hne]; [reflexivity|].
  pose proof (Z.log2_spec n ltac:(lia)) as [_ Hlt].
  pose proof (Z.log2_nonneg n).
  apply Z.lt_le_trans with (1 := Hlt).
  apply Z.pow_le_mono_l. lia.
Qed.

Lemma parse_utoa (n : Z) : 0 <= n -> strconv.parse_digits 0 (strconv.utoa n) = Some n.
Proof.
  intros Hn. unfold strconv.utoa.
  destruct (parse_utoa_loop _ n EmptyString 0 (conj Hn (utoa_fuel n Hn)))
    as (k & _ & E).
  rewrite E. simpl. f_equal.
Qed.

Lemma utoa_loop_digits (fuel : nat) :
  forall n acc, allDigits acc = true ->
    allDigits (strconv.utoa_loop fuel n acc) = true.
Proof.
  induction fuel as [|fuel IH]; intros n acc Hacc; [exact Hacc|].
  cbn [strconv.utoa_loop].
  assert (allDigits (String (strconv.digit_char (n mod 10)) acc) = true) as H.
  { cbn [allDigits]. now rewrite isDigit_digit_char. }
  destruct (n <? 10); [exact H | now apply IH].
Qed.

Lemma utoa_digits (n : Z) : allDigits (strconv.utoa n) = true.
Proof. now apply utoa_loop_digits. Qed.

Lemma utoa_loop_nonempty (fuel : nat) :
  forall n acc, acc <> EmptyString -> strconv.utoa_loop fuel n acc <> EmptyString.
Proof.
  induction fuel as [|fuel IH]; intros n acc Hacc; [exact Hacc|].
  cbn [strconv.utoa_loop]. destruct (n <? 10); [discriminate|].
  apply IH. discriminate.
Qed.

Lemma utoa_nonempty (n : Z) : strconv.utoa n <> EmptyString.
Proof.
  unfold strconv.utoa. cbn [strconv.utoa_loop].
  destruct (n <? 10); [discriminate|].
  apply utoa_loop_nonempty. discriminate.
Qed.

Lemma decimalValue_Itoa (n : Z) : decimalValue (strconv.Itoa n) = Some n.
Proof.
  unfold strconv.Itoa. destruct (Z.ltb_spec n 0) as [Hneg|Hpos].
  - pose proof (utoa_nonempty (- n)) as Hne.
    pose proof (parse_utoa (- n) ltac:(lia)) as E.
    destruct (strconv.utoa (- n)) as [|c r] eqn:Eu; [congruence|].
    simpl. cbn [strconv.parse_digits] in E. rewrite E. simpl. f_equal. lia.
  - pose proof (utoa_nonempty n) as Hne.
    pose proof (parse_utoa n Hpos) as E.
    pose proof (utoa_digits n) as Hd.
    destruct (strconv.utoa n) as [|c r] eqn:Eu; [congruence|].
    unfold decimalValue.
    assert (c <> "-"%char) as Hc.
    { intros ->. simpl in Hd. discriminate. }
    destruct (Ascii.eqb_spec c "-"%char) as [->|_]; [congruence|].
    destruct c as [[] [] [] [] [] [] [] []]; try exact E; congruence.
Qed.

(** ** [formatLabels] *)

Lemma even_index (j : nat) : ((2 * j) mod 2 =? 0)%nat = true.
Proof.
  apply Nat.eqb_eq. rewrite Nat.mul_comm. apply Nat.Div0.mod_mul.
Qed.

Lemma odd_index (j : nat) : (S (2 * j) mod 2 =? 0)%nat = false.
Proof.
  apply Nat.eqb_neq. replace (S (2 * j)) with (1 + j * 2)%nat by lia.
  rewrite Nat.Div0.mod_add. discriminate.
Qed.

Lemma joinComma_cons (x : string) (rest : list string) :
  joinComma (x :: rest)
  = x +:+ (match rest with [] => EmptyString | _ => "," end) +:+ joinComma rest.
Proof.
  destruct rest; simpl; [now rewrite append_nil_r | reflexivity].
Qed.

(** The loop, two elements at a time: from an even index on, it appends
    the remaining pairs, with a comma in front of each but the very
    first. *)
Lemma formatLabels_loop_pairs (n : nat) :
  forall l j str, length l = (2 * n)%nat ->
    formatLabels_loop (2 * j) l str
    = str +:+ (match l with
               | [] => EmptyString
               | _ => if (0 <? 2 * j)%nat then "," else EmptyString
               end)
          +:+ joinComma (map labelText (pairsOf l)).
Proof.
  induction n as [|n IH]; intros l j str Hlen.
  - destruct l; [|discriminate]. simpl. now rewrite append_nil_r.
  - destruct l as [|k [|v rest]];
      [simpl in Hlen; lia | simpl in Hlen; lia |].
    assert (length rest = (2 * n)%nat) as Hrest by (simpl in Hlen; lia).
    cbn [formatLabels_loop]. rewrite even_index, odd_index.
    replace (S (S (2 * j))) with (2 * S j)%nat by lia.
    rewrite (IH rest (S j) _ Hrest).
    cbn [pairsOf map]. rewrite joinComma_cons.
    replace (0 <? 2 * S j)%nat with true by (symmetry; apply Nat.ltb_lt; lia).
    unfold labelText. cbn [fst snd].
    assert ((match rest with [] => EmptyString | _ :: _ => "," end)
            = match map labelText (pairsOf rest) with
              | [] => EmptyString | _ :: _ => "," end
            \/ exists x, rest = [x]) as Hsep.
    { destruct rest as [|a [|b r]]; simpl; eauto. }
    destruct Hsep as [->|[x ->]]; [|simpl in Hrest; lia].
    destruct (0 <? 2 * j)%nat; rewrite !append_assoc; reflexivity.
Qed.

Lemma labelBlock_length (p : string * string) (ps : list (string * string)) :
  (5 <= String.length (labelBlock (p :: ps)))%nat.
Proof.
  unfold labelBlock. cbn [map]. rewrite joinComma_cons.
  unfold labelText. rewrite !length_append. simpl. lia.
Qed.

Lemma formatLabels_even (l : list string) :
  l <> [] -> Nat.Even (length l) -> formatLabels l = labelBlock (pairsOf l).
Proof.
  intros Hne [n Hn]. unfold formatLabels.
  destruct l as [|k l']; [congruence|].
  pose proof (formatLabels_loop_pairs n (k :: l') 0 "{" Hn) as E.
  change (2 * 0)%nat with 0%nat in E. cbn [Nat.ltb Nat.leb] in E.
  rewrite Hn, even_index.
  destruct n as [|n]; [discriminate|].
  cbn [Nat.mul Nat.add Nat.eqb orb negb].
  rewrite E. unfold labelBlock.
  now rewrite !append_assoc.
Qed.

Lemma formatLabels_odd (l : list string) :
  l = [] \/ Nat.Odd (length l) -> formatLabels l = EmptyString.
Proof.
  intros [->|[n Hn]]; [reflexivity|]. unfold formatLabels.
  rewrite Hn. replace (2 * n + 1)%nat with (S (2 * n)) by lia.
  rewrite odd_index. cbn [negb]. now rewrite orb_true_r.
Qed.

(** C4. For every label list of even positive length, [formatLabels]
    returns the block [{k1="v1",k2="v2",...}] with the pairs in input
    order; for the empty list and for every list of odd length it returns
    the empty string; it never returns the bare token [{}]. *)
Theorem formatLabels_spec (l : list string) :
  (l <> [] -> Nat.Even (length l) ->
   formatLabels l = labelBlock (pairsOf l))
  /\ (l = [] \/ Nat.Odd (length l) -> formatLabels l = EmptyString)
  /\ formatLabels l <> "{}".
Proof.
  repeat split; [apply formatLabels_even | apply formatLabels_odd |].
  destruct (Nat.Even_or_Odd (length l)) as [He|Ho].
  - destruct l as [|k [|v rest]].
    + discriminate.
    + destruct He as [n Hn]. simpl in Hn. lia.
    + rewrite formatLabels_even by (auto; discriminate). cbn [pairsOf].
      intros E. pose proof (labelBlock_length (k, v) (pairsOf rest)) as Hlen.
      rewrite E in Hlen. simpl in Hlen. lia.
  - rewrite formatLabels_odd by auto. discriminate.
Qed.

Lemma formatLabels_spec_witness :
  formatLabels ["adapter"; "0"; "frontend"; "1"]
  = labelBlock [("adapter", "0"); ("frontend", "1")]
  /\ formatLabels ["adapter"] = EmptyString.
Proof.
  split.
  - apply (proj1 (formatLabels_spec ["adapter"; "0"; "frontend"; "1"])).
    + discriminate.
    + exists 2%nat. reflexivity.
  - apply (proj1 (proj2 (formatLabels_spec ["adapter"]))).
    right. exists 0%nat. reflexivity.
Defined.

(** ** [valToString] *)

Lemma fixedTail_digits (ip : string) :
  forall seen rest, allDigits ip = true -> (seen = true \/ ip <> EmptyString) ->
    fixedTail seen (ip +:+ String "."%char rest)
    = (String.length rest =? 6)%nat && allDigits rest.
Proof.
  induction ip as [|c ip IH]; intros seen rest Hd Hne.
  - destruct Hne as [->|Hne]; [|congruence]. reflexivity.
  - simpl in Hd. apply andb_prop in Hd as [Hc Hip].
    simpl. rewrite Hc. apply IH; auto.
Qed.

Lemma frac6_digits (q : Z) :
  String.length (fmt.frac6 q) = 6%nat /\ allDigits (fmt.frac6 q) = true.
Proof.
  split; [reflexivity|]. unfold fmt.frac6. cbn [allDigits].
  now rewrite !isDigit_digit_char.
Qed.

Lemma isFixed6_fixed6 (neg : bool) (q : Z) : isFixed6 (fmt.fixed6 neg q) = true.
Proof.
  pose proof (frac6_digits q) as [Hlen Hd].
  pose proof (utoa_digits (q / 1000000)) as Hip.
  pose proof (utoa_nonempty (q / 1000000)) as Hne.
  assert (fixedTail false (strconv.utoa (q / 1000000) +:+ "." +:+ fmt.frac6 q)
          = true) as Ht.
  { change ("." +:+ fmt.frac6 q) with (String "."%char (fmt.frac6 q)).
    rewrite fixedTail_digits by auto. now rewrite Hlen, Hd. }
  unfold fmt.fixed6. destruct neg; [exact Ht|].
  change (EmptyString +:+ ?s) with s.
  destruct (strconv.utoa (q / 1000000)) as [|c r] eqn:E; [congruence|].
  unfold isFixed6. simpl in Hip. apply andb_prop in Hip as [Hc _].
  change (String c r +:+ ?s) with (String c (r +:+ s)) in *.
  destruct (Ascii.eqb_spec c "-"%char) as [->|Hc']; [discriminate|].
  destruct c as [[] [] [] [] [] [] [] []]; try exact Ht; congruence.
Qed.

(** C7, as the code has it. [valToString] returns exactly ["1"] for
    [true] and ["0"] for [false]; for every value of an integer type, a
    string of decimal digits (with a minus sign for a negative one) that
    denotes exactly that integer; for every finite float, a decimal with
    six fractional digits; for NaN and the infinities, the words [NaN],
    [+Inf] and [-Inf]; and for a value of any other type, an error with
    no rendered output. *)
Theorem valToString_spec :
  valToString (VBool true) = ("1", None)
  /\ valToString (VBool false) = ("0", None)
  /\ (forall t n, exists s,
        valToString (VInt t n) = (s, None) /\ decimalValue s = Some n)
  /\ (forall x, finite x = true -> exists s,
        valToString (VFloat32 x) = (s, None)
        /\ valToString (VFloat64 x) = (s, None)
        /\ isFixed6 s = true)
  /\ valToString (VFloat64 S754_nan) = ("NaN", None)
  /\ valToString (VFloat64 (S754_infinity false)) = ("+Inf", None)
  /\ valToString (VFloat64 (S754_infinity true)) = ("-Inf", None)
  /\ (forall t, exists e, valToString (VOther t) = (EmptyString, Some e)).
Proof.
  repeat split.
  - intros t n. exists (strconv.Itoa n). split; [reflexivity|].
    apply decimalValue_Itoa.
  - intros x Hx. exists (fmt.verb_f x). repeat split.
    destruct x; try discriminate; apply isFixed6_fixed6.
  - intros t. eexists. reflexivity.
Qed.

Lemma valToString_spec_witness :
  exists s, valToString (VFloat64 (S754_finite false 3 (-1))) = (s, None)
            /\ isFixed6 s = true.
Proof.
  destruct valToString_spec as (_ & _ & _ & Hf & _).
  destruct (Hf (S754_finite false 3 (-1)) eq_refl) as (s & _ & E & H6).
  exists s. split; [exact E | exact H6].
Defined.

(** C7 as it is written fails for the float that is not a number: what
    [valToString] returns for it has no fractional digits at all. *)
Lemma valToString_nan_not_fixed6 :
  ~ (forall x, exists s,
       valToString (VFloat64 x) = (s, None) /\ isFixed6 s = true).
Proof.
  intros H. destruct (H S754_nan) as (s & E & H6).
  inversion E; subst. discriminate.
Qed.

(** ** The percentage of a raw 16-bit reading *)

Lemma asUint16_mod (raw : Z) : asUint16 raw = raw mod 65536.
Proof. unfold asUint16. apply (Z.land_ones raw 16). lia. Qed.

Lemma asUint16_unsigned16 (raw : Z) :
  -32768 <= raw <= 32767 -> asUint16 raw = unsigned16 raw.
Proof.
  intros H. rewrite asUint16_mod. unfold unsigned16.
  destruct (Z.ltb_spec raw 0).
  - symmetry. apply (Z.mod_unique raw 65536 (-1)); lia.
  - apply Z.mod_small. lia.
Qed.

Lemma percentOfRaw_percentage (raw : Z) :
  -32768 <= raw <= 32767 -> percentOfRaw raw = percentage raw.
Proof.
  intros H. unfold percentOfRaw, percentage.
  rewrite <- asUint16_unsigned16 by exact H.
  pose proof (Z.mod_pos_bound raw 65536 ltac:(lia)).
  apply Z.quot_div_nonneg; rewrite ?asUint16_mod; lia.
Qed.

(** C10. For every signed 16-bit reading, negative ones included, the
    reinterpretation as an unsigned 16-bit value is defined and lies in
    [0, 65535], and the percent value computed from it lies in
    [0, 100]. *)
Theorem percentOfRaw_range (raw : Z) :
  -32768 <= raw <= 32767 ->
  asUint16 raw = unsigned16 raw
  /\ 0 <= asUint16 raw <= 65535
  /\ 0 <= percentOfRaw raw <= 100.
Proof.
  intros H. pose proof (Z.mod_pos_bound raw 65536 ltac:(lia)) as Hm.
  split; [now apply asUint16_unsigned16|].
  split; [rewrite asUint16_mod; lia|].
  unfold percentOfRaw. rewrite Z.quot_div_nonneg by (rewrite ?asUint16_mod; lia).
  rewrite asUint16_mod. split.
  - apply Z.div_pos; lia.
  - apply Z.div_le_upper_bound; lia.
Qed.

Lemma percentOfRaw_range_witness :
  asUint16 (-1) = unsigned16 (-1)
  /\ 0 <= asUint16 (-1) <= 65535
  /\ 0 <= percentOfRaw (-1) <= 100.
Proof. apply (percentOfRaw_range (-1)). lia. Defined.

(** ** The order of a map loop is a permutation of the entries *)

Lemma insert_at_Permutation {A} (i : nat) (x : A) (l : list A) :
  insert_at i x l ≡ₚ x :: l.
Proof.
  revert i. induction l as [|y l IH]; intros [|i]; simpl; try reflexivity.
  rewrite IH. apply perm_swap.
Qed.

Lemma permute_Permutation {A} (l : list A) : forall seed, permute seed l ≡ₚ l.
Proof.
  induction l as [|x l IH]; intros seed; simpl; [reflexivity|].
  rewrite insert_at_Permutation. now rewrite IH.
Qed.

(** ** What a run of the handler adds to the response *)

Lemma extend_extend w s1 l1 k1 s2 l2 k2 :
  extend (extend w s1 l1 k1) s2 l2 k2 = extend w (s1 ++ s2) (l1 ++ l2) (k1 + k2).
Proof.
  unfold extend, echo.setWriter. simpl.
  rewrite map_app, !app_assoc, Nat.add_assoc. reflexivity.
Qed.

Lemma extend_tick (w : World (list string)) (k : nat) :
  mkWorld (resp w) (logged w) (ranges w + k) = extend w [] [] k.
Proof.
  unfold extend, echo.setWriter. destruct w as [[h s c wr] lg rg]. simpl.
  now rewrite !app_nil_r.
Qed.

Section ExpositionFacts.
Variable hw : frontend.Driver.
Variable mapOrder : nat -> nat.

Abbreviation B := (list string).

Lemma Emits_ret a f : Emits a f (mret tt) [] [].
Proof.
  intros w. exists [], 0%nat. split; [|constructor].
  rewrite <- extend_tick, Nat.add_0_r. now destruct w.
Qed.

Lemma Emits_seq a f m1 m2 rs1 rs2 l1 l2 :
  Emits a f m1 rs1 l1 -> Emits a f m2 rs2 l2 ->
  Emits a f (m1 ≫= fun _ => m2) (rs1 ++ rs2) (l1 ++ l2).
Proof.
  intros H1 H2 w.
  destruct (H1 w) as (s1 & k1 & E1 & F1).
  destruct (H2 (extend w s1 l1 k1)) as (s2 & k2 & E2 & F2).
  exists (s1 ++ s2), (k1 + k2)%nat. split; [|now apply Forall2_app].
  unfold mbind, M_bind. now rewrite E1, E2, extend_extend.
Qed.

Lemma Emits_slogError a f msg attrs :
  Emits a f (slogError msg attrs) []
        [slog.mkRecord slog.LevelError msg attrs].
Proof.
  intros w. exists [], 0%nat. split; [|constructor].
  unfold slogError, extend, echo.setWriter. destruct w as [[h s c wr] lg rg].
  simpl. now rewrite app_nil_r, Nat.add_0_r.
Qed.

Lemma mkPairs_spec a f (w : World B) :
  exists pairs, labelOrders a f pairs
    /\ mkPairs mapOrder (labelsOf a f) w = (pairs, extend w [] [] 1).
Proof.
  unfold mkPairs, rangeMap, mbind, M_bind, mret, M_ret.
  rewrite <- extend_tick, Nat.add_1_r.
  set (entries := permute _ _).
  assert (entries ≡ₚ [("frontend", f); ("adapter", a)]) as Hp.
  { unfold entries, labelsOf. rewrite permute_Permutation.
    rewrite map_to_list_insert by (rewrite lookup_insert_ne; done).
    now rewrite insert_empty, map_to_list_singleton. }
  symmetry in Hp. apply Permutation_length_2_inv in Hp as [->| ->].
  - eexists. split; [right; reflexivity | reflexivity].
  - eexists. split; [left; reflexivity | reflexivity].
Qed.

Lemma writeSingle_spec typ name val help pairs (w : World B) :
  (valToString val).2 = None ->
  writeSingle typ name val help pairs w
  = (None, extend w [mkSample typ name val help pairs] [] 0).
Proof.
  intros Hv. unfold writeSingle.
  destruct (valToString val) as [s [e|]] eqn:E; [discriminate|].
  unfold extend, chunkOf, io.Write, io.Buffer. simpl. rewrite E. simpl.
  now rewrite app_nil_r, Nat.add_0_r.
Qed.

(** One sample, written after a call of [mkPairs]. *)
Lemma Emits_sample a f typ name val help :
  (valToString val).2 = None ->
  Emits a f (pairs ← mkPairs mapOrder (labelsOf a f);
             _ ← writeSingle typ name val help pairs;
             mret tt)
        [mkReading typ name val help] [].
Proof.
  intros Hv w. destruct (mkPairs_spec a f w) as (pairs & Ho & E).
  exists [mkSample typ name val help pairs], 1%nat. split.
  - unfold mbind, M_bind. rewrite E, writeSingle_spec by exact Hv.
    now rewrite extend_extend.
  - constructor; [|constructor]. exists pairs. split; [exact Ho | reflexivity].
Qed.

Lemma Emits_statGauge a f vs name help :
  Emits a f (statGauge mapOrder vs name help (labelsOf a f))
        (statReading "gauge" frontend.ScaleDecibel decibelOf vs name help) [].
Proof.
  unfold statGauge, statReading. destruct vs as [|p vs]; [apply Emits_ret|].
  case_bool_decide; [|apply Emits_ret].
  apply Emits_sample. reflexivity.
Qed.

Lemma Emits_statCounter a f vs name help :
  Emits a f (statCounter mapOrder vs name help (labelsOf a f))
        (statReading "counter" frontend.ScaleCounter counterOf vs name help) [].
Proof.
  unfold statCounter, statReading. destruct vs as [|p vs]; [apply Emits_ret|].
  case_bool_decide; [|apply Emits_ret].
  apply Emits_sample. reflexivity.
Qed.

Lemma Emits_flagGauge a f st flag name help :
  Emits a f (flagGauge mapOrder st flag name help (labelsOf a f))
        [mkReading "gauge" name (VBool (0 <? Z.land st flag)) help] [].
Proof. apply Emits_sample. simpl. now destruct (0 <? _). Qed.

Lemma Emits_scalarGauge a f r box name help :
  (forall x, (valToString (box x)).2 = None) ->
  Emits a f (scalar mapOrder (writeGauge (W:=B)) r box name help (labelsOf a f))
        (scalarReading "gauge" r box name help) [].
Proof.
  intros Hb. unfold scalar, scalarReading. destruct r; [|apply Emits_ret].
  apply Emits_sample. apply Hb.
Qed.

Lemma Emits_scalarCounter a f r box name help :
  (forall x, (valToString (box x)).2 = None) ->
  Emits a f (scalar mapOrder (writeCounter (W:=B)) r box name help (labelsOf a f))
        (scalarReading "counter" r box name help) [].
Proof.
  intros Hb. unfold scalar, scalarReading. destruct r; [|apply Emits_ret].
  apply Emits_sample. apply Hb.
Qed.

Lemma Emits_v5 a f adapterName frontendName fe :
  Emits a f
    (handleMetrics_v5 hw mapOrder adapterName frontendName fe (labelsOf a f))
    (v5Readings hw fe) (v5Logs hw adapterName frontendName fe).
Proof.
  unfold handleMetrics_v5, v5Readings, v5Logs.
  destruct (frontend.Stat hw fe) as [stat|err]; [|apply Emits_slogError].
  cbn [flat_map v5Metrics]. rewrite app_nil_r.
  change (@nil slog.Record_) with (@nil slog.Record_ ++ [] ++ [] ++ [] ++ []
                                     ++ [] ++ [] ++ []).
  repeat (apply Emits_seq;
          [first [apply Emits_statGauge | apply Emits_statCounter]|]);
    apply Emits_statCounter.
Qed.

Lemma Emits_v3 a f adapterName frontendName fe :
  Emits a f
    (handleMetrics_v3 hw mapOrder adapterName frontendName fe (labelsOf a f))
    (v3Readings hw fe) (v3Logs hw adapterName frontendName fe).
Proof.
  unfold handleMetrics_v3, v3Readings, v3Logs.
  destruct (frontend.Status hw fe) as [st|err]; [|apply Emits_slogError].
  cbn [map v3Flags fst snd].
  change (@nil slog.Record_) with (@nil slog.Record_ ++ [] ++ [] ++ [] ++ []
                                     ++ [] ++ [] ++ [] ++ []).
  repeat (apply (Emits_seq _ _ _ _ [_]); [apply Emits_flagGauge|]).
  repeat (apply Emits_seq; [apply Emits_scalarGauge; reflexivity|]).
  apply Emits_scalarCounter; reflexivity.
Qed.

Lemma Emits_frontend v5 adapterName a frontendName f :
  Emits (strconv.Itoa (aeID a)) (strconv.Itoa (feID f))
    (handleMetrics_frontend hw mapOrder v5 adapterName a frontendName f)
    (deviceReadings hw v5 (feDevice f))
    (deviceLogs hw v5 adapterName frontendName (feDevice f)).
Proof.
  unfold handleMetrics_frontend, deviceReadings, deviceLogs.
  apply Emits_seq; [|apply Emits_v3].
  destruct v5; [apply Emits_v5 | apply Emits_ret].
Qed.

End ExpositionFacts.

(** ** The whole poll *)

Section PollFacts.
Variable hw : frontend.Driver.
Variable mapOrder : nat -> nat.
Variable v5 : bool.

Abbreviation B := (list string).

Lemma Polls_frontends adapterName a (fl : list (string * frontendEntry)) :
  Polls hw v5 (forM_ fl (fun '(frontendName, f) =>
           handleMetrics_frontend hw mapOrder v5 adapterName a frontendName f))
        (map (fun kv => mkVisit adapterName a kv.1 kv.2) fl).
Proof.
  induction fl as [|[frontendName f] fl IH]; intros w.
  - exists [], 0%nat. split; [|constructor]. simpl.
    rewrite <- extend_tick, Nat.add_0_r. now destruct w.
  - destruct (Emits_frontend hw mapOrder v5 adapterName a frontendName f w)
      as (ss & k1 & E1 & F1).
    destruct (IH (extend w ss
                    (deviceLogs hw v5 adapterName frontendName (feDevice f))
                    k1))
      as (sss & k2 & E2 & F2).
    exists (ss :: sss), (k1 + k2)%nat. split.
    + cbn [forM_]. unfold mbind, M_bind. rewrite E1, E2, extend_extend.
      reflexivity.
    + constructor; [exact F1 | exact F2].
Qed.

Lemma Polls_adapter adapterName a (w : World B) :
  exists vs sampless k,
    pollAdapter hw mapOrder v5 (adapterName, a) w
    = (tt, extend w (concat sampless) (flat_map (visitLogs hw v5) vs) k)
    /\ vs ≡ₚ frontendsOf adapterName a
    /\ Forall2 (visitSamples hw v5) vs sampless.
Proof.
  unfold pollAdapter, mbind, M_bind, rangeMap.
  set (fl := permute _ _).
  replace (S (ranges w)) with (ranges w + 1)%nat by lia.
  rewrite extend_tick.
  destruct (Polls_frontends adapterName a fl (extend w [] [] 1))
    as (sss & k & E & F).
  exists (map (fun kv => mkVisit adapterName a kv.1 kv.2) fl), sss, (1 + k)%nat.
  split; [|split; [|exact F]].
  - rewrite E, extend_extend. reflexivity.
  - unfold frontendsOf, fl. now rewrite permute_Permutation.
Qed.

Lemma Polls_adapters (al : list (string * adapterEntry)) (w : World B) :
  exists vs sampless k,
    forM_ al (pollAdapter hw mapOrder v5) w
    = (tt, extend w (concat sampless) (flat_map (visitLogs hw v5) vs) k)
    /\ vs ≡ₚ flat_map (fun kv => frontendsOf kv.1 kv.2) al
    /\ Forall2 (visitSamples hw v5) vs sampless.
Proof.
  revert w. induction al as [|[adapterName a] al IH]; intros w.
  - exists [], [], 0%nat. split; [|split; [reflexivity | constructor]].
    simpl. rewrite <- extend_tick, Nat.add_0_r. now destruct w.
  - destruct (Polls_adapter adapterName a w) as (vs1 & ss1 & k1 & E1 & P1 & F1).
    destruct (IH (extend w (concat ss1) (flat_map (visitLogs hw v5) vs1) k1))
      as (vs2 & ss2 & k2 & E2 & P2 & F2).
    exists (vs1 ++ vs2), (ss1 ++ ss2), (k1 + k2)%nat.
    split; [|split].
    + cbn [forM_]. unfold mbind, M_bind. rewrite E1, E2, extend_extend.
      now rewrite concat_app, flat_map_app.
    + cbn [flat_map fst snd]. now rewrite P1, P2.
    + now apply Forall2_app.
Qed.

(** What a request does to the world: the response is committed with
    status 200, and every registered frontend is visited once, in some
    order; each visit writes the samples of its readings and logs its
    query errors. *)
Lemma handleMetrics_run (reg : gmap string adapterEntry) (w : World B) :
  exists vs sampless k,
    handleMetrics hw mapOrder v5 reg w
    = (None, extend (committed w) (concat sampless)
               (flat_map (visitLogs hw v5) vs) k)
    /\ vs ≡ₚ registered reg
    /\ Forall2 (visitSamples hw v5) vs sampless.
Proof.
  unfold handleMetrics, mbind, M_bind, rangeMap. fold (committed w).
  set (al := permute _ _). cbn [resp logged ranges].
  set (w1 := mkWorld _ _ _).
  assert (w1 = extend (committed w) [] [] 1) as ->.
  { unfold w1. rewrite <- extend_tick.
    now replace (S (ranges (committed w))) with (ranges (committed w) + 1)%nat
      by lia. }
  destruct (Polls_adapters al (extend (committed w) [] [] 1))
    as (vs & sss & k & E & P & F).
  exists vs, sss, (1 + k)%nat. split; [|split; [|exact F]].
  - change (forM_ al _) with (forM_ al (pollAdapter hw mapOrder v5)).
    rewrite E, extend_extend. reflexivity.
  - rewrite P. unfold registered, al.
    apply Permutation_flat_map, permute_Permutation.
Qed.

End PollFacts.

(** ** The status line, whatever the writer *)

Section Head.
Context {W : Type} `{!io.Writer W}.
Variable hw : frontend.Driver.
Variable mapOrder : nat -> nat.

Lemma Keeps_ret {A} (a : A) : Keeps (W:=W) (mret a).
Proof. intros w. now repeat split. Qed.

Lemma Keeps_bind {A C} (m : M W A) (k : A -> M W C) :
  Keeps m -> (forall a, Keeps (W:=W) (k a)) -> Keeps (W:=W) (m ≫= k).
Proof.
  intros Hm Hk w. unfold mbind, M_bind.
  specialize (Hm w). destruct (m w) as [a w1]. simpl in Hm.
  destruct (Hk a w1) as (H1 & H2 & H3), Hm as (H4 & H5 & H6).
  repeat split; congruence.
Qed.

Lemma Keeps_forM_ {A} (l : list A) (body : A -> M W unit) :
  (forall x, Keeps (W:=W) (body x)) -> Keeps (W:=W) (forM_ l body).
Proof.
  intros Hb. induction l as [|x l IH]; simpl; [apply Keeps_ret|].
  apply Keeps_bind; auto.
Qed.

Lemma Keeps_rangeMap {V} (m : gmap string V) : Keeps (W:=W) (rangeMap mapOrder m).
Proof. intros w. now repeat split. Qed.

Lemma Keeps_slogError msg attrs : Keeps (W:=W) (slogError msg attrs).
Proof. intros w. now repeat split. Qed.

Lemma Keeps_mkPairs m : Keeps (W:=W) (mkPairs mapOrder m).
Proof.
  apply Keeps_bind; [apply Keeps_rangeMap | intros; apply Keeps_ret].
Qed.

Lemma Keeps_writeSingle typ name val help pairs :
  Keeps (W:=W) (writeSingle typ name val help pairs).
Proof.
  unfold writeSingle. destruct (valToString val) as [s [e|]];
    [apply Keeps_ret|].
  intros w. destruct (io.Write _ _). now repeat split.
Qed.

Lemma Keeps_sample typ name val help labels :
  Keeps (W:=W) (pairs ← mkPairs mapOrder labels;
         _ ← writeSingle typ name val help pairs;
         mret tt).
Proof.
  apply Keeps_bind; [apply Keeps_mkPairs | intros pairs].
  apply Keeps_bind; [apply Keeps_writeSingle | intros; apply Keeps_ret].
Qed.

Lemma Keeps_statGauge vs name help labels :
  Keeps (W:=W) (statGauge mapOrder vs name help labels).
Proof.
  unfold statGauge. destruct vs; [apply Keeps_ret|].
  case_bool_decide; [apply Keeps_sample | apply Keeps_ret].
Qed.

Lemma Keeps_statCounter vs name help labels :
  Keeps (W:=W) (statCounter mapOrder vs name help labels).
Proof.
  unfold statCounter. destruct vs; [apply Keeps_ret|].
  case_bool_decide; [apply Keeps_sample | apply Keeps_ret].
Qed.

Lemma Keeps_scalar write r box name help labels :
  (forall n v h p, Keeps (W:=W) (write n v h p)) ->
  Keeps (W:=W) (scalar mapOrder write r box name help labels).
Proof.
  intros Hw. unfold scalar. destruct r; [|apply Keeps_ret].
  apply Keeps_bind; [apply Keeps_mkPairs | intros pairs].
  apply Keeps_bind; [apply Hw | intros; apply Keeps_ret].
Qed.

Lemma Keeps_frontend v5 adapterName a frontendName f :
  Keeps (W:=W) (handleMetrics_frontend hw mapOrder v5 adapterName a frontendName f).
Proof.
  unfold handleMetrics_frontend. apply Keeps_bind.
  - destruct v5; [|apply Keeps_ret]. unfold handleMetrics_v5.
    destruct (frontend.Stat hw _); [|apply Keeps_slogError].
    repeat (apply Keeps_bind;
            [first [apply Keeps_statGauge | apply Keeps_statCounter]
            | intros _]).
    apply Keeps_statCounter.
  - intros _. unfold handleMetrics_v3.
    destruct (frontend.Status hw _); [|apply Keeps_slogError].
    repeat (apply Keeps_bind;
            [first [apply Keeps_sample
                   | apply Keeps_scalar; intros; apply Keeps_writeSingle]
            | intros _]).
    apply Keeps_scalar; intros; apply Keeps_writeSingle.
Qed.

Lemma handleMetrics_pollAll v5 reg (w : World W) :
  handleMetrics hw mapOrder v5 reg w
  = (None, (pollAll hw mapOrder v5 reg (committed w)).2).
Proof.
  unfold handleMetrics, pollAll, mbind, M_bind, rangeMap. fold (committed w).
  cbn [resp logged ranges]. now destruct (forM_ _ _ _).
Qed.

Lemma Keeps_pollAll v5 reg : Keeps (W:=W) (pollAll hw mapOrder v5 reg).
Proof.
  apply Keeps_bind; [apply Keeps_rangeMap | intros entries].
  apply Keeps_forM_. intros [adapterName a].
  apply Keeps_bind; [apply Keeps_rangeMap | intros frontends].
  apply Keeps_forM_. intros [frontendName f]. apply Keeps_frontend.
Qed.

(** The handler never returns an error, and the response it leaves is
    the one it committed at its first lines, but for the writer. *)
Lemma handleMetrics_head v5 reg (w : World W) :
  (handleMetrics hw mapOrder v5 reg w).1 = None
  /\ echo.Header (resp (handleMetrics hw mapOrder v5 reg w).2)
     = echo.Header (resp (committed w))
  /\ echo.Status (resp (handleMetrics hw mapOrder v5 reg w).2)
     = echo.Status (resp (committed w))
  /\ echo.Committed (resp (handleMetrics hw mapOrder v5 reg w).2)
     = echo.Committed (resp (committed w)).
Proof.
  rewrite handleMetrics_pollAll. split; [reflexivity|].
  apply Keeps_pollAll.
Qed.

End Head.


Lemma Writer_committed {W} (w : World W) :
  echo.Writer (resp (committed w)) = echo.Writer (resp w).
Proof.
  unfold committed, echo.WriteHeader, echo.HeaderSet. simpl.
  now destruct (echo.Committed (resp w)).
Qed.

(** ** Which readings a frontend contributes *)

Section Readings.
Variable hw : frontend.Driver.
Variable v5 : bool.
Variable fe : frontend.Device.

Lemma In_statReading typ scale box vs name help r :
  In r (statReading typ scale box vs name help) <->
  exists p rest, vs = p :: rest /\ frontend.Scale_ p = scale
                 /\ r = mkReading typ name (box p) help.
Proof.
  unfold statReading. destruct vs as [|p rest].
  - split; [intros [] | intros (? & ? & ? & _); discriminate].
  - case_bool_decide as Hs; split.
    + intros [<-|[]]. eauto.
    + intros (p' & rest' & E & _ & ->). inversion E; subst. now left.
    + intros [].
    + intros (p' & rest' & E & Hs' & _). inversion E; subst. contradiction.
Qed.

Lemma In_scalarReading typ res box name help r :
  In r (scalarReading typ res box name help) <->
  exists x, res = Ok x /\ r = mkReading typ name (box x) help.
Proof.
  unfold scalarReading. destruct res as [x|e]; split.
  - intros [<-|[]]. eauto.
  - intros (x' & E & ->). inversion E; subst. now left.
  - intros [].
  - intros (x' & E & _). discriminate.
Qed.

Lemma Obtained_In r : Obtained hw v5 fe r <-> In r (deviceReadings hw v5 fe).
Proof.
  unfold deviceReadings, v5Readings, v3Readings. split.
  - intros H. apply in_or_app.
    destruct H as [stat m p rest Hv Hs Hm Hf Hp | st flag name help Hs Hf
                  | st x Hs Hq | st x Hs Hq | st x Hs Hq | st x Hs Hq].
    + left. rewrite Hv, Hs. apply in_flat_map. exists m. split; [exact Hm|].
      apply In_statReading. eauto.
    + right. rewrite Hs. apply in_or_app. left.
      apply in_map_iff. exists (flag, name, help). auto.
    + right. rewrite Hs. do 1 (apply in_or_app; right).
      apply in_or_app; left. apply In_scalarReading. eauto.
    + right. rewrite Hs. do 2 (apply in_or_app; right).
      apply in_or_app; left. apply In_scalarReading. eauto.
    + right. rewrite Hs. do 3 (apply in_or_app; right).
      apply in_or_app; left. apply In_scalarReading. eauto.
    + right. rewrite Hs. do 4 (apply in_or_app; right).
      apply In_scalarReading. eauto.
  - intros H. apply in_app_or in H as [H|H].
    + destruct v5 eqn:Hv; [|destruct H].
      destruct (frontend.Stat hw fe) as [stat|] eqn:Hs; [|destruct H].
      apply in_flat_map in H as (m & Hm & H).
      apply In_statReading in H as (p & rest & Hf & Hp & ->).
      eapply obtained_stat; eauto.
    + destruct (frontend.Status hw fe) as [st|] eqn:Hs; [|destruct H].
      apply in_app_or in H as [H|H].
      { apply in_map_iff in H as ([[flag name] help] & <- & H).
        eapply obtained_flag; eauto. }
      apply in_app_or in H as [H|H].
      { apply In_scalarReading in H as (x & Hq & ->).
        eapply obtained_ber; eauto. }
      apply in_app_or in H as [H|H].
      { apply In_scalarReading in H as (x & Hq & ->).
        eapply obtained_snr; eauto. }
      apply in_app_or in H as [H|H].
      { apply In_scalarReading in H as (x & Hq & ->).
        eapply obtained_ss; eauto. }
      apply In_scalarReading in H as (x & Hq & ->).
      eapply obtained_ub; eauto.
Qed.


End Readings.

(** ** From the run of the handler to its response *)

Lemma Forall2_In_l {A C} (R : A -> C -> Prop) l k a :
  Forall2 R l k -> In a l -> exists c, In c k /\ R a c.
Proof.
  induction 1 as [|x y l k HR _ IH]; intros Hin; [destruct Hin|].
  destruct Hin as [->|Hin]; [exists y; simpl; auto|].
  destruct (IH Hin) as (c & Hc & HRc). exists c. simpl. auto.
Qed.

Lemma Forall2_In_r {A C} (R : A -> C -> Prop) l k c :
  Forall2 R l k -> In c k -> exists a, In a l /\ R a c.
Proof.
  induction 1 as [|x y l k HR _ IH]; intros Hin; [destruct Hin|].
  destruct Hin as [->|Hin]; [exists x; simpl; auto|].
  destruct (IH Hin) as (a & Ha & HRa). exists a. simpl. auto.
Qed.

Section Response.
Variable hw : frontend.Driver.
Variable mapOrder : nat -> nat.
Variable v5 : bool.
Variable reg : gmap string adapterEntry.
Variable w : World (list string).

Abbreviation out := (handleMetrics hw mapOrder v5 reg w).2.

(** The response is the list of the samples written, the log the list
    of the errors of the visits; every reading obtained from a
    registered frontend has its sample, and every sample is of a reading
    obtained from a registered frontend. *)
Lemma handleMetrics_response :
  exists vs samples,
    echo.Writer (resp out) = echo.Writer (resp w) ++ map chunkOf samples
    /\ logged out = logged w ++ flat_map (visitLogs hw v5) vs
    /\ vs ≡ₚ registered reg
    /\ (forall d r, In d (registered reg) ->
          Obtained hw v5 (feDevice (vFrontend d)) r ->
          exists x, In x samples /\ sampleOf hw v5 d r x)
    /\ (forall x, In x samples ->
          exists d r, In d (registered reg) /\ sampleOf hw v5 d r x).
Proof.
  destruct (handleMetrics_run hw mapOrder v5 reg w)
    as (vs & sss & k & E & P & F).
  exists vs, (concat sss). rewrite E. cbn [snd].
  split; [now rewrite <- (Writer_committed w)|]. split; [reflexivity|].
  split; [exact P|]. split.
  - intros d r Hd Hr.
    assert (In d vs) as Hd'.
    { apply list_elem_of_In. rewrite P. now apply list_elem_of_In. }
    destruct (Forall2_In_l _ _ _ _ F Hd') as (ss & Hss & Hv).
    apply Obtained_In in Hr as Hr'.
    destruct (Forall2_In_l _ _ _ _ Hv Hr') as (x & Hx & Hl).
    exists x. split; [|split; assumption].
    apply in_concat. eauto.
  - intros x Hx. apply in_concat in Hx as (ss & Hss & Hx).
    destruct (Forall2_In_r _ _ _ _ F Hss) as (d & Hd & Hv).
    destruct (Forall2_In_r _ _ _ _ Hv Hx) as (r & Hr & Hl).
    exists d, r. split; [|split; [now apply Obtained_In | exact Hl]].
    apply list_elem_of_In. rewrite <- P. now apply list_elem_of_In.
Qed.

End Response.

Lemma ex_visit_registered : In ex_visit (registered ex_registry).
Proof. vm_compute. left. reflexivity. Qed.

(** ** Samples as records *)






(** ** Isolation *)

Lemma visitLogs_status hw v5 d err :
  frontend.Status hw (feDevice (vFrontend d)) = Err err ->
  In (errorRecord "error getting fe status" (vAdapterName d) (vFrontendName d)
                  err)
     (visitLogs hw v5 d).
Proof.
  intros E. unfold visitLogs, deviceLogs, v3Logs. rewrite E.
  apply in_or_app. right. now left.
Qed.

Lemma visitLogs_stat hw d err :
  frontend.Stat hw (feDevice (vFrontend d)) = Err err ->
  In (errorRecord "error getting fe status via v5 API" (vAdapterName d)
                  (vFrontendName d) err)
     (visitLogs hw true d).
Proof.
  intros E. unfold visitLogs, deviceLogs, v5Logs. rewrite E.
  apply in_or_app. left. now left.
Qed.

Lemma visitLogs_inv hw v5 d e :
  In e (visitLogs hw v5 d) ->
  exists err,
    (frontend.Status hw (feDevice (vFrontend d)) = Err err
     /\ e = errorRecord "error getting fe status" (vAdapterName d)
                        (vFrontendName d) err)
    \/ (v5 = true
        /\ frontend.Stat hw (feDevice (vFrontend d)) = Err err
        /\ e = errorRecord "error getting fe status via v5 API"
                           (vAdapterName d) (vFrontendName d) err).
Proof.
  unfold visitLogs, deviceLogs, v5Logs, v3Logs. intros H.
  apply in_app_or in H as [H|H].
  - destruct v5; [|destruct H].
    destruct (frontend.Stat hw _) as [stat|err]; [destruct H|].
    destruct H as [<-|[]]. exists err. right. auto.
  - destruct (frontend.Status hw _) as [st|err]; [destruct H|].
    destruct H as [<-|[]]. exists err. left. auto.
Qed.

(** C1, as the code has it. The response and the log of a poll are
    these. Every reading obtained from a registered frontend (a v5
    statistic on the expected scale after a successful [Stat] query, a v3
    flag after a successful [Status] query, a v3 scalar after a
    successful [Status] query and a successful query of its own) has its
    record in the response, whatever the other readings and the other
    frontends do, and the response holds nothing else: after a failing
    [Status] query there is no v3 record of that frontend. Every failing
    [Status] query, and every failing [Stat] query where it is polled, is
    logged with the paths of the adapter and of the frontend and with the
    error, and the log holds nothing else: the failing query of a single
    v3 scalar is not logged. *)
Theorem handleMetrics_isolation (hw : frontend.Driver) (mapOrder : nat -> nat)
        (v5 : bool) (reg : gmap string adapterEntry) (w : World (list string)) :
  exists samples entries,
    echo.Writer (resp (handleMetrics hw mapOrder v5 reg w).2)
    = echo.Writer (resp w) ++ map chunkOf samples
    /\ logged (handleMetrics hw mapOrder v5 reg w).2 = logged w ++ entries
    /\ (forall d r, In d (registered reg) ->
          Obtained hw v5 (feDevice (vFrontend d)) r ->
          exists x, In x samples /\ sampleOf hw v5 d r x)
    /\ (forall x, In x samples ->
          exists d r, In d (registered reg) /\ sampleOf hw v5 d r x)
    /\ (forall d err, In d (registered reg) ->
          frontend.Status hw (feDevice (vFrontend d)) = Err err ->
          In (errorRecord "error getting fe status" (vAdapterName d)
                          (vFrontendName d) err) entries)
    /\ (forall d err, v5 = true -> In d (registered reg) ->
          frontend.Stat hw (feDevice (vFrontend d)) = Err err ->
          In (errorRecord "error getting fe status via v5 API" (vAdapterName d)
                          (vFrontendName d) err) entries)
    /\ (forall e, In e entries ->
          exists d err,
            In d (registered reg)
            /\ ((frontend.Status hw (feDevice (vFrontend d)) = Err err
                 /\ e = errorRecord "error getting fe status" (vAdapterName d)
                                    (vFrontendName d) err)
                \/ (v5 = true
                    /\ frontend.Stat hw (feDevice (vFrontend d)) = Err err
                    /\ e = errorRecord "error getting fe status via v5 API"
                                       (vAdapterName d) (vFrontendName d) err))).
Proof.
  destruct (handleMetrics_response hw mapOrder v5 reg w)
    as (vs & samples & E & El & P & Hto & Hfrom).
  assert (forall d, In d vs <-> In d (registered reg)) as Hvs.
  { intros d. rewrite <- !list_elem_of_In. now rewrite P. }
  exists samples, (flat_map (visitLogs hw v5) vs).
  repeat (split; [assumption|]). split; [|split].
  - intros d err Hd He. apply in_flat_map. exists d.
    split; [now apply Hvs | now apply visitLogs_status].
  - intros d err -> Hd He. apply in_flat_map. exists d.
    split; [now apply Hvs | now apply visitLogs_stat].
  - intros e He. apply in_flat_map in He as (d & Hd & He).
    destruct (visitLogs_inv _ _ _ _ He) as (err & H).
    exists d, err. split; [now apply Hvs | exact H].
Qed.

(** The bit error rate of the tuner cannot be read; its SNR record is in
    the response all the same. *)
Lemma handleMetrics_isolation_witness :
  exists x,
    In (chunkOf x)
       (echo.Writer (resp (handleMetrics ex_noBER (fun _ => 0%nat) false
                                         ex_registry (ex_request [])).2))
    /\ sName x = "dvb_fe_snr_percent" /\ sVal x = VInt Tint 0.
Proof.
  destruct (handleMetrics_isolation ex_noBER (fun _ => 0%nat) false ex_registry
              (ex_request [])) as (samples & entries & E & _ & Hto & _).
  destruct (Hto ex_visit
              (mkReading "gauge" "dvb_fe_snr_percent" (percentOf 123) snrHelp)
              ex_visit_registered
              (obtained_snr ex_noBER false ex_device 31 123 eq_refl eq_refl))
    as (x & Hx & _ & pairs & _ & ->).
  eexists. split; [rewrite E; apply in_or_app; right; apply in_map; exact Hx|].
  split; reflexivity.
Defined.

(** C1 as it is written fails twice.  When the status query of a frontend
    fails, the readings after it are never asked for: the bit error rate
    would have answered 5, and the response has no record at all.  And a
    failing query of a single reading is not logged: the bit error rate
    fails, the log stays empty. *)
Lemma status_error_skips_the_frontend :
  frontend.BER ex_noStatus ex_device = Ok 5
  /\ echo.Writer (resp (handleMetrics ex_noStatus (fun _ => 0%nat) false
                                      ex_registry (ex_request [])).2) = []
  /\ frontend.BER ex_noBER ex_device = Err "EIO"
  /\ logged (handleMetrics ex_noBER (fun _ => 0%nat) false ex_registry
                           (ex_request [])).2 = [].
Proof. repeat split; vm_compute; reflexivity. Qed.

(** ** Two polls of the same state *)

Lemma labelled_recordOf a f r x :
  labelled a f r x -> recordOf x = (r, labelsOf a f).
Proof.
  intros (pairs & Ho & ->). unfold recordOf, labelsOf. destruct r. simpl.
  f_equal. destruct Ho as [->| ->]; simpl; [|reflexivity].
  apply insert_insert_ne. discriminate.
Qed.

Lemma Forall2_labelled_records a f rs samples :
  Forall2 (labelled a f) rs samples ->
  map recordOf samples = map (fun r => (r, labelsOf a f)) rs.
Proof.
  induction 1 as [|r x rs samples Hl _ IH]; [reflexivity|].
  simpl. now rewrite (labelled_recordOf _ _ _ _ Hl), IH.
Qed.

Lemma Forall2_visit_records hw v5 vs sampless :
  Forall2 (visitSamples hw v5) vs sampless ->
  map recordOf (concat sampless) = flat_map (visitRecords hw v5) vs.
Proof.
  induction 1 as [|d ss vs sss Hv _ IH]; [reflexivity|].
  simpl. rewrite map_app, IH. f_equal.
  now apply Forall2_labelled_records.
Qed.

(** C2, as the code has it. For a fixed registry and fixed hardware
    readings, two invocations of the writer, each with the orders that
    the runtime picks for its map loops, write the same metric records
    (name, type, help text, value, and labels as a mapping); the order of
    the frontends in the output and the order of the two labels in a
    sample line are those of the map loops and need not agree. *)
Theorem handleMetrics_same_records (hw : frontend.Driver) (v5 : bool)
        (reg : gmap string adapterEntry) (w : World (list string))
        (order1 order2 : nat -> nat) :
  exists samples1 samples2,
    echo.Writer (resp (handleMetrics hw order1 v5 reg w).2)
    = echo.Writer (resp w) ++ map chunkOf samples1
    /\ echo.Writer (resp (handleMetrics hw order2 v5 reg w).2)
       = echo.Writer (resp w) ++ map chunkOf samples2
    /\ map recordOf samples1 ≡ₚ map recordOf samples2.
Proof.
  destruct (handleMetrics_run hw order1 v5 reg w) as (vs1 & sss1 & k1 & E1 & P1 & F1).
  destruct (handleMetrics_run hw order2 v5 reg w) as (vs2 & sss2 & k2 & E2 & P2 & F2).
  exists (concat sss1), (concat sss2). rewrite E1, E2. cbn [snd].
  split; [now rewrite <- (Writer_committed w)|].
  split; [now rewrite <- (Writer_committed w)|].
  rewrite (Forall2_visit_records _ _ _ _ F1), (Forall2_visit_records _ _ _ _ F2).
  apply Permutation_flat_map. now rewrite P1, P2.
Qed.

(** C2 as it is written fails: the same registry and the same readings,
    polled under two orders of the label loop, give two different
    bodies. *)
Lemma label_order_follows_the_map_loop :
  echo.Writer (resp (handleMetrics ex_locked (fun _ => 0%nat) false ex_registry
                                   (ex_request [])).2)
  <> echo.Writer (resp (handleMetrics ex_locked (fun _ => 1%nat) false
                                      ex_registry (ex_request [])).2).
Proof. vm_compute. discriminate. Qed.

(** ** The percent values in the response *)

(** C3. For every 16-bit raw reading of the SNR and of the signal
    strength, the value computed by the code is the raw value, taken bit
    for bit as unsigned, times 100, divided by 65535 and truncated; it is
    the value of the record that the response carries for every
    registered frontend whose status query and whose query of the reading
    succeed; and a raw value of 123 gives 0. *)
Theorem percent_of_raw_reading (hw : frontend.Driver) (mapOrder : nat -> nat)
        (v5 : bool) (reg : gmap string adapterEntry) (w : World (list string))
        (d : Visit) (st raw : Z) :
  In d (registered reg) ->
  frontend.Status hw (feDevice (vFrontend d)) = Ok st ->
  -32768 <= raw <= 32767 ->
  percentOfRaw raw = percentage raw
  /\ (frontend.SNR hw (feDevice (vFrontend d)) = Ok raw ->
      exists pairs,
        labelOrders (strconv.Itoa (aeID (vAdapter d)))
                    (strconv.Itoa (feID (vFrontend d))) pairs
        /\ In (sampleText "gauge" "dvb_fe_snr_percent"
                          (strconv.Itoa (percentage raw)) snrHelp pairs)
              (echo.Writer (resp (handleMetrics hw mapOrder v5 reg w).2)))
  /\ (frontend.SignalStrength hw (feDevice (vFrontend d)) = Ok raw ->
      exists pairs,
        labelOrders (strconv.Itoa (aeID (vAdapter d)))
                    (strconv.Itoa (feID (vFrontend d))) pairs
        /\ In (sampleText "gauge" "dvb_fe_signal_strength_percent"
                          (strconv.Itoa (percentage raw)) ssHelp pairs)
              (echo.Writer (resp (handleMetrics hw mapOrder v5 reg w).2)))
  /\ percentage 123 = 0.
Proof.
  intros Hd Hst Hraw.
  destruct (handleMetrics_response hw mapOrder v5 reg w)
    as (vs & samples & E & _ & _ & Hto & _).
  pose proof (percentOfRaw_percentage raw Hraw) as Hp.
  assert (forall r, Obtained hw v5 (feDevice (vFrontend d)) r ->
            exists pairs,
              labelOrders (strconv.Itoa (aeID (vAdapter d)))
                          (strconv.Itoa (feID (vFrontend d))) pairs
              /\ In (sampleText (rType r) (rName r) (valToString (rVal r)).1
                                (rHelp r) pairs)
                    (echo.Writer (resp (handleMetrics hw mapOrder v5 reg w).2)))
    as Hin.
  { intros r Hr. destruct (Hto d r Hd Hr) as (x & Hx & _ & pairs & Ho & ->).
    exists pairs. split; [exact Ho|]. rewrite E. apply in_or_app. right.
    apply in_map_iff. eexists. split; [|exact Hx]. reflexivity. }
  split; [exact Hp|]. split; [|split; [|reflexivity]].
  - intros Hq. rewrite <- Hp. apply (Hin _ (obtained_snr hw v5 _ st raw Hst Hq)).
  - intros Hq. rewrite <- Hp. apply (Hin _ (obtained_ss hw v5 _ st raw Hst Hq)).
Qed.

(** The end-to-end example of the specification: [adapter0/frontend0],
    a raw SNR of 123. *)
Lemma percent_of_raw_reading_witness :
  exists pairs,
    labelOrders "0" "0" pairs
    /\ In (sampleText "gauge" "dvb_fe_snr_percent" "0" snrHelp pairs)
          (echo.Writer (resp (handleMetrics ex_locked (fun _ => 0%nat) true
                                            ex_registry (ex_request [])).2)).
Proof.
  destruct (percent_of_raw_reading ex_locked (fun _ => 0%nat) true ex_registry
              (ex_request []) ex_visit 31 123 ex_visit_registered eq_refl
              ltac:(lia)) as (_ & H & _).
  apply H. reflexivity.
Defined.

(** ** The scale gate of the v5 statistics *)

Lemma v5Metrics_name_inj m m' :
  In m v5Metrics -> In m' v5Metrics -> v5Name m = v5Name m' -> m = m'.
Proof.
  unfold v5Metrics. cbn [In]. intros H H'.
  repeat (destruct H as [<-|H]; [|]); try destruct H;
    repeat (destruct H' as [<-|H']; [|]); try destruct H';
    cbn [v5Name]; intros E; first [reflexivity | discriminate E].
Qed.

Lemma v5Metrics_not_v3 m st flag name help :
  In m v5Metrics -> In (flag, name, help) v3Flags ->
  rName (flagReading st flag name help) <> v5Name m.
Proof.
  unfold v5Metrics, v3Flags. cbn [In]. intros H H'.
  repeat (destruct H as [<-|H]; [|]); try destruct H;
    repeat (destruct H' as [E'|H']; [inversion E'; subst; clear E'|]);
    try destruct H'; cbn [v5Name rName flagReading]; discriminate.
Qed.

Lemma v5Metrics_not_scalar m :
  In m v5Metrics ->
  v5Name m <> "dvb_fe_ber" /\ v5Name m <> "dvb_fe_snr_percent"
  /\ v5Name m <> "dvb_fe_signal_strength_percent"
  /\ v5Name m <> "dvb_fe_uncorrected_blocks_total".
Proof.
  unfold v5Metrics. cbn [In]. intros H.
  repeat (destruct H as [<-|H]; [|]); try destruct H;
    cbn [v5Name]; repeat split; discriminate.
Qed.

(** C6. For every v5 metric, a record of that name is in the response
    only for a frontend whose [Stat] query succeeded and whose statistic
    has a first value on the scale of the metric (decibels for the SNR
    and the signal level, a counter for the bit and block counts), and
    then it is there, with the value of that scale; every other outcome
    writes nothing for the metric, and the handler returns no error. *)
Theorem v5_record_only_on_matching_scale (hw : frontend.Driver)
        (mapOrder : nat -> nat) (v5 : bool) (reg : gmap string adapterEntry)
        (w : World (list string)) :
  (handleMetrics hw mapOrder v5 reg w).1 = None
  /\ exists samples,
       echo.Writer (resp (handleMetrics hw mapOrder v5 reg w).2)
       = echo.Writer (resp w) ++ map chunkOf samples
       /\ (forall x m, In x samples -> In m v5Metrics -> sName x = v5Name m ->
             v5 = true
             /\ exists d stat p rest,
                  In d (registered reg)
                  /\ frontend.Stat hw (feDevice (vFrontend d)) = Ok stat
                  /\ v5Field m stat = p :: rest
                  /\ frontend.Scale_ p = scaleOf (v5Unit m)
                  /\ sType x = typeOf (v5Unit m)
                  /\ sVal x = boxOf (v5Unit m) p)
       /\ (forall d m stat p rest,
             v5 = true -> In d (registered reg) -> In m v5Metrics ->
             frontend.Stat hw (feDevice (vFrontend d)) = Ok stat ->
             v5Field m stat = p :: rest ->
             frontend.Scale_ p = scaleOf (v5Unit m) ->
             exists x, In x samples /\ sName x = v5Name m
                       /\ sType x = typeOf (v5Unit m)
                       /\ sVal x = boxOf (v5Unit m) p).
Proof.
  split; [apply handleMetrics_head|].
  destruct (handleMetrics_response hw mapOrder v5 reg w)
    as (vs & samples & E & _ & _ & Hto & Hfrom).
  exists samples. split; [exact E|]. split.
  - intros x m Hx Hm Hname.
    destruct (Hfrom x Hx) as (d & r & Hd & Hr & pairs & _ & ->).
    cbn [sName sType sVal] in *.
    destruct Hr as [stat m' p rest Hv Hs Hm' Hf Hp | st flag name help _ Hf
                   | ? ? _ _ | ? ? _ _ | ? ? _ _ | ? ? _ _].
    + cbn [rName rType rVal] in *.
      pose proof (v5Metrics_name_inj m' m Hm' Hm Hname) as ->.
      split; [exact Hv|]. exists d, stat, p, rest. auto 10.
    + destruct (v5Metrics_not_v3 m st flag name help Hm Hf Hname).
    + destruct (v5Metrics_not_scalar m Hm) as (H1 & _). now destruct H1.
    + destruct (v5Metrics_not_scalar m Hm) as (_ & H2 & _). now destruct H2.
    + destruct (v5Metrics_not_scalar m Hm) as (_ & _ & H3 & _). now destruct H3.
    + destruct (v5Metrics_not_scalar m Hm) as (_ & _ & _ & H4). now destruct H4.
  - intros d m stat p rest Hv Hd Hm Hs Hf Hp.
    destruct (Hto d _ Hd (obtained_stat hw v5 _ stat m p rest Hv Hs Hm Hf Hp))
      as (x & Hx & _ & pairs & _ & ->).
    eexists. split; [exact Hx|]. auto.
Qed.

(** * Start-up *)

Lemma forP_app {A} (l1 l2 : list A) (body : A -> P unit) (s : Process) :
  forP_ (l1 ++ l2) body s
  = match forP_ l1 body s with
    | (inl h, s') => (inl h, s')
    | (inr _, s') => forP_ l2 body s'
    end.
Proof.
  revert s. induction l1 as [|x l1 IH]; intros s; [reflexivity|].
  cbn [forP_ app]. unfold mbind, P_bind.
  destruct (body x s) as [[h|[]] s']; [reflexivity | apply IH].
Qed.

(** [main] once the command line is read: the flags are set and nothing
    is printed. *)
Lemma main_flags (fs : FileSystem) (prog : string) (args : list string)
      (basePath listen : string) (s : Process) :
  flag.parseArgs args flag.defaults
  = flag.Parsed (flag.mkValues basePath listen) ->
  main fs prog args s
  = ((if notExist fs basePath then
        eprint ("Base path " +:+ basePath +:+ " does not exist" +:+ nl);;
        halt (Exit 1)
      else mret tt);;
     d ← discover fs basePath;
     match d with
     | None => mret Returned
     | Some _ => mret Serving
     end) s.
Proof.
  intros E. unfold main, flag.Parse. rewrite E. reflexivity.
Qed.

Section StartupFacts.
Variable fs : FileSystem.
Variable prog : string.
Variable args : list string.
Variables basePath listen : string.
Hypothesis Hflags :
  flag.parseArgs args flag.defaults
  = flag.Parsed (flag.mkValues basePath listen).

Lemma main_missing_base (s : Process) :
  notExist fs basePath = true ->
  main fs prog args s
  = (inl (Exit 1),
     printed s ("Base path " +:+ basePath +:+ " does not exist" +:+ nl)).
Proof.
  intros E. rewrite (main_flags _ _ _ _ _ _ Hflags).
  unfold mbind, P_bind. now rewrite E.
Qed.

Lemma main_frontend_open_fails adapterName adapterNum frontendName
      frontendNumStr frontendNum err (s : Process) :
  sliceFrom 8 (filepath.Base frontendName) = Some frontendNumStr ->
  strconv.Atoi frontendNumStr = Ok frontendNum ->
  OpenRO fs (devicePath basePath adapterNum frontendNum) = Some err ->
  main_frontend fs basePath adapterName adapterNum frontendName s
  = (inl (Exit 2),
     mkProcess (adapters s)
       (stderr s ++ ["Error opening frontend "
                       +:+ devicePath basePath adapterNum frontendNum +:+ ": " +:+ err
                       +:+ nl])
       (infos s ++ [foundRecord adapterNum frontendNum]) (nextFd s)).
Proof.
  intros Hs Ha Ho. unfold main_frontend. rewrite Hs, Ha.
  unfold mbind, P_bind, slogInfo, openRO. cbn [adapters stderr infos nextFd].
  fold (devicePath basePath adapterNum frontendNum). now rewrite Ho.
Qed.

Lemma main_adapter_frontends adapterName adapterNumStr adapterNum frontendPaths
      (s : Process) :
  sliceFrom 7 (filepath.Base adapterName) = Some adapterNumStr ->
  strconv.Atoi adapterNumStr = Ok adapterNum ->
  Glob fs (filepath.Join [adapterName; "frontend*"]) = Ok frontendPaths ->
  main_adapter fs basePath adapterName s
  = forP_ frontendPaths (main_frontend fs basePath adapterName adapterNum) s.
Proof. intros Hs Ha Hg. unfold main_adapter. now rewrite Hs, Ha, Hg. Qed.

Lemma main_adapter_malformed adapterName adapterNumStr e (s : Process) :
  sliceFrom 7 (filepath.Base adapterName) = Some adapterNumStr ->
  strconv.Atoi adapterNumStr = Err e ->
  main_adapter fs basePath adapterName s
  = (inr tt, printed s ("Invalid adapter number: " +:+ adapterNumStr +:+ nl)).
Proof. intros Hs Ha. unfold main_adapter. now rewrite Hs, Ha. Qed.

Lemma main_frontend_malformed adapterName adapterNum frontendName
      frontendNumStr e (s : Process) :
  sliceFrom 8 (filepath.Base frontendName) = Some frontendNumStr ->
  strconv.Atoi frontendNumStr = Err e ->
  main_frontend fs basePath adapterName adapterNum frontendName s
  = (inr tt, printed s ("Invalid frontend number: " +:+ frontendNumStr +:+ nl)).
Proof. intros Hs Ha. unfold main_frontend. now rewrite Hs, Ha. Qed.

(** C9. With the command line read and [basePath] what it gives for the
    base directory: a missing base directory ends the process with code 1
    after a line on standard error. A discovered frontend that cannot be opened
    ends it with code 2 after a line on standard error, wherever in the
    scan it is met. An adapter or a frontend whose name does not end in a
    number gets a line on standard error and is skipped: the scan goes on
    with the entries after it. *)
Theorem startup_errors (s : Process) :
  (notExist fs basePath = true ->
   main fs prog args s
   = (inl (Exit 1),
      printed s ("Base path " +:+ basePath +:+ " does not exist" +:+ nl)))
  /\ (forall before adapterName after adapterNumStr adapterNum
             before' frontendName after' frontendNumStr frontendNum err s1 s2,
        notExist fs basePath = false ->
        Glob fs (filepath.Join [basePath; "adapter*"])
        = Ok (before ++ adapterName :: after) ->
        forP_ before (main_adapter fs basePath) s = (inr tt, s1) ->
        sliceFrom 7 (filepath.Base adapterName) = Some adapterNumStr ->
        strconv.Atoi adapterNumStr = Ok adapterNum ->
        Glob fs (filepath.Join [adapterName; "frontend*"])
        = Ok (before' ++ frontendName :: after') ->
        forP_ before' (main_frontend fs basePath adapterName adapterNum) s1
        = (inr tt, s2) ->
        sliceFrom 8 (filepath.Base frontendName) = Some frontendNumStr ->
        strconv.Atoi frontendNumStr = Ok frontendNum ->
        OpenRO fs (devicePath basePath adapterNum frontendNum) = Some err ->
        main fs prog args s
        = (inl (Exit 2),
           mkProcess (adapters s2)
             (stderr s2 ++ ["Error opening frontend "
                              +:+ devicePath basePath adapterNum frontendNum +:+ ": "
                              +:+ err +:+ nl])
             (infos s2 ++ [foundRecord adapterNum frontendNum]) (nextFd s2)))
  /\ (forall adapterName adapterNumStr e rest,
        sliceFrom 7 (filepath.Base adapterName) = Some adapterNumStr ->
        strconv.Atoi adapterNumStr = Err e ->
        forP_ (adapterName :: rest) (main_adapter fs basePath) s
        = forP_ rest (main_adapter fs basePath)
            (printed s ("Invalid adapter number: " +:+ adapterNumStr +:+ nl)))
  /\ (forall adapterName adapterNum frontendName frontendNumStr e rest,
        sliceFrom 8 (filepath.Base frontendName) = Some frontendNumStr ->
        strconv.Atoi frontendNumStr = Err e ->
        forP_ (frontendName :: rest)
              (main_frontend fs basePath adapterName adapterNum) s
        = forP_ rest (main_frontend fs basePath adapterName adapterNum)
            (printed s ("Invalid frontend number: " +:+ frontendNumStr +:+ nl))).
Proof.
  split; [apply main_missing_base|]. split; [|split].
  - intros before adapterName after adapterNumStr adapterNum before'
           frontendName after' frontendNumStr frontendNum err s1 s2
           Hbase Hg Hb Hs Ha Hg' Hb' Hs' Ha' Ho.
    rewrite (main_flags _ _ _ _ _ _ Hflags).
    unfold discover, mbind, P_bind. rewrite Hbase, Hg.
    unfold mret at 1. unfold P_ret at 1.
    rewrite forP_app, Hb. cbn [forP_]. unfold mbind, P_bind.
    rewrite (main_adapter_frontends _ _ _ _ _ Hs Ha Hg').
    rewrite forP_app, Hb'. cbn [forP_]. unfold mbind, P_bind.
    now rewrite (main_frontend_open_fails _ _ _ _ _ _ _ Hs' Ha' Ho).
  - intros adapterName adapterNumStr e rest Hs Ha. cbn [forP_].
    unfold mbind, P_bind. now rewrite (main_adapter_malformed _ _ _ _ Hs Ha).
  - intros adapterName adapterNum frontendName frontendNumStr e rest Hs Ha.
    cbn [forP_]. unfold mbind, P_bind.
    now rewrite (main_frontend_malformed _ _ _ _ _ _ Hs Ha).
Qed.

End StartupFacts.

Lemma startup_errors_witness :
  (main ex_tree "dvb-exporter" ["-devpath"; "/srv/dvb"] boot).1
  = inl (Exit 1)
  /\ (main ex_tree_busy "dvb-exporter" [] boot).1 = inl (Exit 2)
  /\ forP_ ["/dev/dvb/adapterX"; "/dev/dvb/adapter0"]
           (main_adapter ex_tree "/dev/dvb") boot
     = forP_ ["/dev/dvb/adapter0"] (main_adapter ex_tree "/dev/dvb")
         (printed boot ("Invalid adapter number: X" +:+ nl)).
Proof.
  split; [|split].
  - rewrite (proj1 (startup_errors ex_tree "dvb-exporter"
                      ["-devpath"; "/srv/dvb"] "/srv/dvb" ":8027"
                      eq_refl boot));
      reflexivity.
  - destruct (startup_errors ex_tree_busy "dvb-exporter" [] "/dev/dvb"
                ":8027" eq_refl boot) as (_ & H & _).
    erewrite (H ["/dev/dvb/adapterX"; "/dev/dvb/adapter0"] "/dev/dvb/adapter1"
                [] "1" 1 [] "/dev/dvb/adapter1/frontend0" [] "0" 0
                "device or resource busy");
      reflexivity.
  - destruct (startup_errors ex_tree "dvb-exporter" [] "/dev/dvb" ":8027"
                eq_refl boot) as (_ & _ & H & _).
    apply (H "/dev/dvb/adapterX" "X" (strconv.syntaxError "X")); reflexivity.
Defined.

(** ** Scanning again *)

Section Rescan.
Variable fs : FileSystem.
Variable basePath : string.

Lemma register_covered adapterName adapterNum frontendName frontendNum fdev s :
  covered (adapters s) adapterName frontendName ->
  register adapterName adapterNum frontendName frontendNum fdev s = (inr tt, s).
Proof.
  intros (a & Ha & f & Hf). unfold register. rewrite Ha, Hf. now destruct s.
Qed.

Lemma register_covers adapterName adapterNum frontendName frontendNum fdev s :
  covered
    (adapters (register adapterName adapterNum frontendName frontendNum fdev s).2)
    adapterName frontendName.
Proof.
  unfold register, covered.
  destruct (adapters s !! adapterName) as [a|] eqn:Ha; cbn [aeFrontends].
  - destruct (aeFrontends a !! frontendName) as [f|] eqn:Hf; cbn [snd adapters].
    + exists a. rewrite Ha, Hf. eauto.
    + eexists. rewrite lookup_insert_eq. split; [reflexivity|].
      cbn [aeFrontends]. rewrite lookup_insert_eq. eauto.
  - rewrite lookup_empty. cbn [snd adapters].
    eexists. rewrite lookup_insert_eq. split; [reflexivity|].
    cbn [aeFrontends]. rewrite lookup_insert_eq. eauto.
Qed.

Lemma register_keeps adapterName adapterNum frontendName frontendNum fdev s
      adapterName' frontendName' :
  covered (adapters s) adapterName' frontendName' ->
  covered
    (adapters (register adapterName adapterNum frontendName frontendNum fdev s).2)
    adapterName' frontendName'.
Proof.
  intros (a' & Ha' & Hf'). unfold register, covered.
  destruct (decide (adapterName = adapterName')) as [<-|Hne].
  - rewrite Ha'.
    destruct (aeFrontends a' !! frontendName) as [f|] eqn:Hf; cbn [snd adapters].
    + eauto.
    + eexists. rewrite lookup_insert_eq. split; [reflexivity|].
      cbn [aeFrontends].
      destruct (decide (frontendName = frontendName')) as [<-|Hne'].
      * rewrite lookup_insert_eq. eauto.
      * now rewrite lookup_insert_ne.
  - destruct (adapters s !! adapterName) as [a|] eqn:Ha; cbn [aeFrontends].
    + destruct (aeFrontends a !! frontendName); cbn [snd adapters].
      * eauto.
      * exists a'. now rewrite lookup_insert_ne.
    + rewrite lookup_empty. cbn [snd adapters].
      exists a'. now rewrite !lookup_insert_ne.
Qed.

Lemma frontendSettled_grows adapterName adapterNum reg reg' frontendName :
  grows reg reg' ->
  frontendSettled fs basePath adapterName adapterNum reg frontendName ->
  frontendSettled fs basePath adapterName adapterNum reg' frontendName.
Proof.
  intros Hg. unfold frontendSettled.
  destruct (sliceFrom _ _); [|auto]. destruct (strconv.Atoi _); [|auto].
  intros [Ho Hc]. auto.
Qed.

Lemma adapterSettled_grows reg reg' adapterName :
  grows reg reg' -> adapterSettled fs basePath reg adapterName ->
  adapterSettled fs basePath reg' adapterName.
Proof.
  intros Hg. unfold adapterSettled.
  destruct (sliceFrom _ _); [|auto]. destruct (strconv.Atoi _); [|auto].
  destruct (Glob _ _); [|auto].
  intros H. eapply Forall_impl; [exact H|].
  intros fn. now apply frontendSettled_grows.
Qed.

Lemma main_frontend_first adapterName adapterNum frontendName s s1 :
  main_frontend fs basePath adapterName adapterNum frontendName s = (inr tt, s1) ->
  frontendSettled fs basePath adapterName adapterNum (adapters s1) frontendName
  /\ grows (adapters s) (adapters s1).
Proof.
  unfold main_frontend, frontendSettled.
  destruct (sliceFrom _ _) as [str|]; [|discriminate].
  destruct (strconv.Atoi str) as [num|e].
  - unfold mbind, P_bind, slogInfo, openRO. cbn [adapters stderr infos nextFd].
    fold (devicePath basePath adapterNum num).
    destruct (OpenRO fs _) as [err|] eqn:Ho; [discriminate|].
    set (s0 := mkProcess _ _ _ _). set (fdev := frontend.mkDevice _ _).
    intros E.
    pose proof (register_covers adapterName adapterNum frontendName num fdev s0)
      as Hc.
    pose proof (register_keeps adapterName adapterNum frontendName num fdev s0)
      as Hk.
    rewrite E in Hc, Hk. cbn [snd] in Hc, Hk.
    split; [split; [reflexivity | exact Hc]|].
    intros an fn. apply Hk.
  - intros E. inversion E; subst. split; [exact I|]. intros an fn H. exact H.
Qed.

Lemma main_frontend_again adapterName adapterNum frontendName s :
  frontendSettled fs basePath adapterName adapterNum (adapters s) frontendName ->
  exists s', main_frontend fs basePath adapterName adapterNum frontendName s
             = (inr tt, s')
             /\ adapters s' = adapters s.
Proof.
  unfold main_frontend, frontendSettled.
  destruct (sliceFrom _ _) as [str|]; [|intros []].
  destruct (strconv.Atoi str) as [num|e].
  - intros [Ho Hc]. unfold mbind, P_bind, slogInfo, openRO.
    cbn [adapters stderr infos nextFd].
    fold (devicePath basePath adapterNum num). rewrite Ho.
    rewrite register_covered by exact Hc. eexists. split; reflexivity.
  - intros _. eexists. split; reflexivity.
Qed.

Lemma frontends_first adapterName adapterNum l : forall s s1,
  forP_ l (main_frontend fs basePath adapterName adapterNum) s = (inr tt, s1) ->
  Forall (frontendSettled fs basePath adapterName adapterNum (adapters s1)) l
  /\ grows (adapters s) (adapters s1).
Proof.
  induction l as [|fn l IH]; intros s s1 E.
  - inversion E; subst. split; [constructor|]. intros an f H. exact H.
  - cbn [forP_] in E. unfold mbind, P_bind in E.
    destruct (main_frontend _ _ _ _ fn s) as [[h|[]] s0] eqn:E0; [discriminate|].
    destruct (main_frontend_first _ _ _ _ _ E0) as [H0 G0].
    destruct (IH _ _ E) as [H1 G1].
    split.
    + constructor; [|exact H1]. eapply frontendSettled_grows; eauto.
    + intros an f H. auto.
Qed.

Lemma frontends_again adapterName adapterNum l : forall s,
  Forall (frontendSettled fs basePath adapterName adapterNum (adapters s)) l ->
  exists s', forP_ l (main_frontend fs basePath adapterName adapterNum) s
             = (inr tt, s')
             /\ adapters s' = adapters s.
Proof.
  induction l as [|fn l IH]; intros s H.
  - eexists. split; reflexivity.
  - inversion H as [|? ? H0 H1]; subst.
    destruct (main_frontend_again _ _ _ _ H0) as (s0 & E0 & A0).
    rewrite <- A0 in H1. destruct (IH _ H1) as (s' & E' & A').
    exists s'. split; [|congruence].
    cbn [forP_]. unfold mbind, P_bind. now rewrite E0.
Qed.

Lemma main_adapter_first adapterName s s1 :
  main_adapter fs basePath adapterName s = (inr tt, s1) ->
  adapterSettled fs basePath (adapters s1) adapterName /\ grows (adapters s) (adapters s1).
Proof.
  unfold main_adapter, adapterSettled.
  destruct (sliceFrom _ _) as [str|]; [|discriminate].
  destruct (strconv.Atoi str) as [num|e].
  - destruct (Glob fs _) as [l|err].
    + apply frontends_first.
    + intros E. inversion E; subst. split; [exact I|]. intros an f H. exact H.
  - intros E. inversion E; subst. split; [exact I|]. intros an f H. exact H.
Qed.

Lemma main_adapter_again adapterName s :
  adapterSettled fs basePath (adapters s) adapterName ->
  exists s', main_adapter fs basePath adapterName s = (inr tt, s')
             /\ adapters s' = adapters s.
Proof.
  unfold main_adapter, adapterSettled.
  destruct (sliceFrom _ _) as [str|]; [|intros []].
  destruct (strconv.Atoi str) as [num|e].
  - destruct (Glob fs _) as [l|err].
    + apply frontends_again.
    + intros _. eexists. split; reflexivity.
  - intros _. eexists. split; reflexivity.
Qed.

Lemma adapters_first l : forall s s1,
  forP_ l (main_adapter fs basePath) s = (inr tt, s1) ->
  Forall (adapterSettled fs basePath (adapters s1)) l /\ grows (adapters s) (adapters s1).
Proof.
  induction l as [|an l IH]; intros s s1 E.
  - inversion E; subst. split; [constructor|]. intros a f H. exact H.
  - cbn [forP_] in E. unfold mbind, P_bind in E.
    destruct (main_adapter _ _ an s) as [[h|[]] s0] eqn:E0; [discriminate|].
    destruct (main_adapter_first _ _ _ E0) as [H0 G0].
    destruct (IH _ _ E) as [H1 G1].
    split.
    + constructor; [|exact H1]. eapply adapterSettled_grows; eauto.
    + intros a f H. auto.
Qed.

Lemma adapters_again l : forall s,
  Forall (adapterSettled fs basePath (adapters s)) l ->
  exists s', forP_ l (main_adapter fs basePath) s = (inr tt, s')
             /\ adapters s' = adapters s.
Proof.
  induction l as [|an l IH]; intros s H.
  - eexists. split; reflexivity.
  - inversion H as [|? ? H0 H1]; subst.
    destruct (main_adapter_again _ _ H0) as (s0 & E0 & A0).
    rewrite <- A0 in H1. destruct (IH _ H1) as (s' & E' & A').
    exists s'. split; [|congruence].
    cbn [forP_]. unfold mbind, P_bind. now rewrite E0.
Qed.

Lemma discover_again s s1 :
  discover fs basePath s = (inr (Some tt), s1) ->
  exists s2, discover fs basePath s1 = (inr (Some tt), s2)
             /\ adapters s2 = adapters s1.
Proof.
  unfold discover. destruct (Glob fs _) as [l|err].
  - unfold mbind, P_bind.
    destruct (forP_ l _ s) as [[h|[]] s0] eqn:E; [discriminate|].
    intros E1. inversion E1; subst.
    destruct (adapters_first _ _ _ E) as [H _].
    destruct (adapters_again _ _ H) as (s2 & E2 & A2).
    exists s2. now rewrite E2.
  - unfold mbind, P_bind, eprint. discriminate.
Qed.

End Rescan.

(** The entries of the registry, as the lookups of the two maps. *)
Lemma In_registered (reg : gmap string adapterEntry) (d : Visit) :
  In d (registered reg) <->
  reg !! vAdapterName d = Some (vAdapter d)
  /\ aeFrontends (vAdapter d) !! vFrontendName d = Some (vFrontend d).
Proof.
  unfold registered, frontendsOf. rewrite in_flat_map. split.
  - intros ([an a] & Ha & Hd). cbn [fst snd] in Hd.
    apply in_map_iff in Hd as ([fn f] & <- & Hf). cbn [fst snd].
    cbn [vAdapterName vAdapter vFrontendName vFrontend].
    apply list_elem_of_In, elem_of_map_to_list in Ha.
    apply list_elem_of_In, elem_of_map_to_list in Hf. auto.
  - intros [Ha Hf]. exists (vAdapterName d, vAdapter d). split.
    + now apply list_elem_of_In, elem_of_map_to_list.
    + cbn [fst snd]. apply in_map_iff.
      exists (vFrontendName d, vFrontend d). split; [now destruct d|].
      now apply list_elem_of_In, elem_of_map_to_list.
Qed.

(** C8, as the code has it. Discovery is idempotent and the registry is
    keyed by the discovered paths: running the discovery again on the
    unchanged tree completes and leaves the registry as it is, entry for
    entry, so the identities are the same and none is added; a path that
    comes up a second time registers nothing, whatever handle the second
    open returned; and the registry holds one entry for a pair of an
    adapter path and a frontend path.  (Two entries under different paths
    may carry the same pair of numbers.) *)
Theorem discover_idempotent (fs : FileSystem) (basePath : string) :
  (forall s s1,
     discover fs basePath s = (inr (Some tt), s1) ->
     exists s2, discover fs basePath s1 = (inr (Some tt), s2)
                /\ adapters s2 = adapters s1
                /\ identities (adapters s2) = identities (adapters s1))
  /\ (forall adapterName adapterNum frontendName frontendNum fdev
             adapterNum' frontendNum' fdev' s,
        register adapterName adapterNum' frontendName frontendNum' fdev'
          (register adapterName adapterNum frontendName frontendNum fdev s).2
        = register adapterName adapterNum frontendName frontendNum fdev s)
  /\ (forall reg d1 d2,
        In d1 (registered reg) -> In d2 (registered reg) ->
        vAdapterName d1 = vAdapterName d2 ->
        vFrontendName d1 = vFrontendName d2 ->
        d1 = d2).
Proof.
  split; [|split].
  - intros s s1 E. destruct (discover_again fs basePath s s1 E) as (s2 & E2 & A).
    exists s2. split; [exact E2|]. split; [exact A | now rewrite A].
  - intros. rewrite register_covered by apply register_covers.
    unfold register. now repeat destruct (_ !! _).
  - intros reg [an1 a1 fn1 f1] [an2 a2 fn2 f2] H1 H2 Ea Ef.
    apply In_registered in H1 as [Ha1 Hf1].
    apply In_registered in H2 as [Ha2 Hf2].
    cbn [vAdapterName vAdapter vFrontendName vFrontend] in *. subst an2 fn2.
    assert (a1 = a2) as -> by congruence.
    assert (f1 = f2) as -> by congruence.
    reflexivity.
Qed.

Lemma discover_idempotent_witness :
  exists s2,
    discover ex_tree "/dev/dvb" (discover ex_tree "/dev/dvb" boot).2
    = (inr (Some tt), s2)
    /\ adapters s2 = adapters (discover ex_tree "/dev/dvb" boot).2
    /\ identities (adapters s2)
       = identities (adapters (discover ex_tree "/dev/dvb" boot).2).
Proof.
  apply (proj1 (discover_idempotent ex_tree "/dev/dvb") boot).
  vm_compute. reflexivity.
Defined.

(** C8 as it is written fails for two adapter directories whose names
    spell the same number.  On [ex_tree], which holds [adapter0] and
    [adapter00], the discovery registers the identity (0, 0) twice: the
    two entries have different paths as keys, and each holds a handle of
    its own, both opened on the device node of adapter 0, frontend 0. *)
Lemma same_identity_under_two_paths :
  ~ NoDup (identities ex_scanned)
  /\ exists d1 d2,
       In d1 (registered ex_scanned) /\ In d2 (registered ex_scanned)
       /\ vAdapterName d1 = "/dev/dvb/adapter0"
       /\ vAdapterName d2 = "/dev/dvb/adapter00"
       /\ (aeID (vAdapter d1), feID (vFrontend d1)) = (0, 0)
       /\ (aeID (vAdapter d2), feID (vFrontend d2)) = (0, 0)
       /\ frontend.path (feDevice (vFrontend d1)) = "/dev/dvb/adapter0/frontend0"
       /\ frontend.path (feDevice (vFrontend d2)) = "/dev/dvb/adapter0/frontend0"
       /\ frontend.fd (feDevice (vFrontend d1))
          <> frontend.fd (feDevice (vFrontend d2)).
Proof.
  split.
  - assert (identities ex_scanned = [(0, 0); (0, 1); (0, 0)]) as ->
      by (vm_compute; reflexivity).
    intros H. apply NoDup_cons in H as [H _]. apply H.
    apply list_elem_of_In. right. now left.
  - pose (facts := fun d : Visit =>
                    (vAdapterName d,
                     (aeID (vAdapter d), feID (vFrontend d)),
                     feDevice (vFrontend d))).
    assert (map facts (registered ex_scanned)
            = [("/dev/dvb/adapter00", (0, 0),
                frontend.mkDevice "/dev/dvb/adapter0/frontend0" 5);
               ("/dev/dvb/adapter0", (0, 1),
                frontend.mkDevice "/dev/dvb/adapter0/frontend1" 4);
               ("/dev/dvb/adapter0", (0, 0),
                frontend.mkDevice "/dev/dvb/adapter0/frontend0" 3)]) as Hm
      by (vm_compute; reflexivity).
    assert (In ("/dev/dvb/adapter0", (0, 0),
                frontend.mkDevice "/dev/dvb/adapter0/frontend0" 3)
               (map facts (registered ex_scanned))) as H1
      by (rewrite Hm; right; right; now left).
    assert (In ("/dev/dvb/adapter00", (0, 0),
                frontend.mkDevice "/dev/dvb/adapter0/frontend0" 5)
               (map facts (registered ex_scanned))) as H2
      by (rewrite Hm; now left).
    destruct (proj1 (in_map_iff facts (registered ex_scanned) _) H1)
      as (d1 & E1 & H1').
    destruct (proj1 (in_map_iff facts (registered ex_scanned) _) H2)
      as (d2 & E2 & H2').
    exists d1, d2. unfold facts in E1, E2.
    injection E1 as Ea1 Ei1 Ef1 Ed1. injection E2 as Ea2 Ei2 Ef2 Ed2.
    rewrite Ea1, Ea2, Ei1, Ef1, Ei2, Ef2, Ed1, Ed2.
    cbn [frontend.path frontend.fd].
    repeat (split; [assumption || reflexivity|]). discriminate.
Qed.

(** * Further properties of the code *)

(** ** The text of a sample *)

Lemma name_before_space (n1 n2 r1 r2 : string) :
  without " " n1 = true -> without " " n2 = true ->
  n1 +:+ String " " r1 = n2 +:+ String " " r2 -> n1 = n2.
Proof.
  revert n2. induction n1 as [|c n1 IH]; intros [|c2 n2] H1 H2 E;
    simpl in *.
  - reflexivity.
  - inversion E; subst. discriminate.
  - inversion E; subst. discriminate.
  - apply andb_prop in H1 as [_ H1]. apply andb_prop in H2 as [_ H2].
    inversion E; subst. f_equal. now apply IH.
Qed.

(** X1. The chunk that [writeSingle] writes tells the name of the metric and
    whether it has a help line: two calls whose names hold no space and
    that write the same text have the same name, and both or neither have
    a help text. *)
Theorem sampleText_names_the_metric
        (typ1 typ2 name1 name2 val1 val2 help1 help2 : string)
        (pairs1 pairs2 : list string) :
  without " " name1 = true -> without " " name2 = true ->
  sampleText typ1 name1 val1 help1 pairs1
  = sampleText typ2 name2 val2 help2 pairs2 ->
  name1 = name2 /\ (help1 = EmptyString <-> help2 = EmptyString).
Proof.
  intros H1 H2. unfold sampleText.
  destruct help1 as [|c1 h1], help2 as [|c2 h2];
    cbn [String.length Nat.ltb Nat.leb]; rewrite ?append_assoc; simpl;
    intros E; inversion E as [E'].
  - split; [|tauto]. now apply name_before_space in E'.
  - split; [|split; discriminate]. now apply name_before_space in E'.
Qed.

Lemma sampleText_names_the_metric_witness :
  sampleText "gauge" "dvb_fe_snr" "12.500000" "Carrier" ["adapter"; "0"]
  <> sampleText "gauge" "dvb_fe_snr_percent" "12" "Carrier" ["adapter"; "0"].
Proof.
  intros E.
  destruct (sampleText_names_the_metric
              "gauge" "gauge" "dvb_fe_snr" "dvb_fe_snr_percent"
              "12.500000" "12" "Carrier" "Carrier"
              ["adapter"; "0"] ["adapter"; "0"] eq_refl eq_refl E) as [H _].
  discriminate H.
Defined.

(** ** [mkPairs] *)

Lemma foldl_pairs (l : list (string * string)) (acc : list string) :
  foldl (fun arr kv => arr ++ [kv.1; kv.2]) acc l
  = acc ++ flat_map (fun kv => [kv.1; kv.2]) l.
Proof.
  revert acc. induction l as [|kv l IH]; intros acc; simpl.
  - now rewrite app_nil_r.
  - rewrite IH, <- app_assoc. reflexivity.
Qed.

Lemma pairsOf_flat (l : list (string * string)) :
  pairsOf (flat_map (fun kv => [kv.1; kv.2]) l) = l.
Proof.
  induction l as [|[k v] l IH]; simpl; [reflexivity | now rewrite IH].
Qed.

Lemma length_flat (l : list (string * string)) :
  length (flat_map (fun kv => [kv.1; kv.2]) l) = (2 * length l)%nat.
Proof. induction l as [|kv l IH]; simpl; lia. Qed.

Lemma mkPairs_entries {W} (mapOrder : nat -> nat) (m : gmap string string)
      (w : World W) :
  exists entries,
    entries ≡ₚ map_to_list m
    /\ (mkPairs mapOrder m w).1 = flat_map (fun kv => [kv.1; kv.2]) entries.
Proof.
  exists (permute (mapOrder (ranges w)) (map_to_list m)).
  split; [apply permute_Permutation|].
  unfold mkPairs, rangeMap, mbind, M_bind, mret, M_ret. cbn [fst].
  now rewrite foldl_pairs.
Qed.

(** X2. Whatever order the runtime picks for the loop, the list that
    [mkPairs] returns reads back as the map it was given: its pairs are
    the entries of the map, each once, so it has twice as many elements
    as the map has keys, and it is empty for the empty map. *)
Theorem mkPairs_reads_back {W} (mapOrder : nat -> nat)
        (m : gmap string string) (w : World W) :
  pairsOf (mkPairs mapOrder m w).1 ≡ₚ map_to_list m
  /\ list_to_map (pairsOf (mkPairs mapOrder m w).1) = m
  /\ length (mkPairs mapOrder m w).1 = (2 * size m)%nat
  /\ (m = ∅ -> (mkPairs mapOrder m w).1 = []).
Proof.
  destruct (mkPairs_entries mapOrder m w) as (entries & P & ->).
  rewrite pairsOf_flat, length_flat.
  split; [exact P|]. split; [|split].
  - transitivity (list_to_map (map_to_list m) : gmap string string);
      [|apply list_to_map_to_list].
    apply list_to_map_proper; [|exact P].
    rewrite P. apply NoDup_fst_map_to_list.
  - now rewrite P, length_map_to_list.
  - intros ->. rewrite map_to_list_empty in P.
    apply Permutation_nil_r in P. now rewrite P.
Qed.

(** X3. The label block of a map: [formatLabels] never meets its malformed
    case on what [mkPairs] returns.  For a map with at least one key the
    result is the block of the entries of the map, in the order of the
    loop; for the empty map it is the empty string, so that the sample
    line has no braces. *)
Theorem formatLabels_of_mkPairs {W} (mapOrder : nat -> nat)
        (m : gmap string string) (w : World W) :
  (m <> ∅ ->
   exists entries,
     entries ≡ₚ map_to_list m
     /\ formatLabels (mkPairs mapOrder m w).1 = labelBlock entries)
  /\ (m = ∅ -> formatLabels (mkPairs mapOrder m w).1 = EmptyString).
Proof.
  destruct (mkPairs_entries mapOrder m w) as (entries & P & E).
  split.
  - intros Hne. exists entries. split; [exact P|]. rewrite E.
    rewrite formatLabels_even, pairsOf_flat; [reflexivity| |].
    + destruct entries as [|kv entries]; [|discriminate].
      apply Permutation_nil_l in P. symmetry in P.
      now apply map_to_list_empty_iff in P.
    + rewrite length_flat. now exists (length entries).
  - intros ->. rewrite map_to_list_empty in P.
    apply Permutation_nil_r in P. now rewrite E, P.
Qed.

Lemma formatLabels_of_mkPairs_witness :
  exists entries,
    entries ≡ₚ map_to_list (labelsOf "0" "1")
    /\ formatLabels (mkPairs (fun _ => 1%nat) (labelsOf "0" "1")
                             (ex_request io.closed)).1
       = labelBlock entries.
Proof.
  apply (proj1 (formatLabels_of_mkPairs (fun _ => 1%nat) (labelsOf "0" "1")
                  (ex_request io.closed))).
  intros E. apply (f_equal (fun m => m !! "frontend")) in E.
  vm_compute in E. discriminate E.
Defined.

(** ** The flags of the status word *)

Lemma land_pow2 (st k : Z) :
  0 <= k -> Z.land st (2 ^ k) = if Z.testbit st k then 2 ^ k else 0.
Proof.
  intros Hk. apply Z.bits_inj'. intros n Hn.
  rewrite Z.land_spec, Z.pow2_bits_eqb by exact Hk.
  destruct (Z.eqb_spec k n) as [->|Hne].
  - destruct (Z.testbit st n) eqn:E; rewrite ?andb_true_r, ?andb_false_r.
    + now rewrite Z.pow2_bits_true.
    + now rewrite Z.bits_0.
  - rewrite andb_false_r.
    destruct (Z.testbit st k); [|now rewrite Z.bits_0].
    rewrite Z.pow2_bits_eqb by exact Hk.
    symmetry. now apply Z.eqb_neq.
Qed.

Lemma flag_is_bit (st k : Z) :
  0 <= k -> (0 <? Z.land st (2 ^ k)) = Z.testbit st k.
Proof.
  intros Hk. rewrite land_pow2 by exact Hk.
  destruct (Z.testbit st k); [|reflexivity].
  apply Z.ltb_lt. now apply Z.pow_pos_nonneg.
Qed.

Lemma v3Flags_bits flag name help :
  In (flag, name, help) v3Flags ->
  0 <= Z.log2 flag /\ flag = 2 ^ Z.log2 flag.
Proof.
  unfold v3Flags. cbn [In]. intros H.
  repeat (destruct H as [E|H]; [inversion E; subst; clear E|]);
    try destruct H; split; first [reflexivity | discriminate].
Qed.

(** X4. For every registered frontend whose status query succeeds, each of
    the five flag metrics has its record in the response, with value 1
    when the bit of the flag is set in the status word and 0 when it is
    not; the other bits of the word do not matter. *)
Theorem flag_records_follow_the_status_bits
        (hw : frontend.Driver) (mapOrder : nat -> nat) (v5 : bool)
        (reg : gmap string adapterEntry) (w : World (list string))
        (d : Visit) (st flag : Z) (name help : string) :
  In d (registered reg) ->
  frontend.Status hw (feDevice (vFrontend d)) = Ok st ->
  In (flag, name, help) v3Flags ->
  exists pairs,
    labelOrders (strconv.Itoa (aeID (vAdapter d)))
                (strconv.Itoa (feID (vFrontend d))) pairs
    /\ In (sampleText "gauge" name
                      (if Z.testbit st (Z.log2 flag) then "1" else "0")
                      help pairs)
          (echo.Writer (resp (handleMetrics hw mapOrder v5 reg w).2)).
Proof.
  intros Hd Hst Hf.
  destruct (handleMetrics_response hw mapOrder v5 reg w)
    as (vs & samples & E & _ & _ & Hto & _).
  destruct (Hto d _ Hd (obtained_flag hw v5 _ st flag name help Hst Hf))
    as (x & Hx & _ & pairs & Ho & ->).
  exists pairs. split; [exact Ho|]. rewrite E. apply in_or_app. right.
  apply in_map_iff. eexists. split; [|exact Hx].
  unfold chunkOf, flagReading. cbn [sType sName sVal sHelp sPairs rType rName
    rVal rHelp valToString].
  destruct (v3Flags_bits _ _ _ Hf) as [Hk Hp]. rewrite Hp at 1.
  rewrite flag_is_bit by exact Hk.
  now destruct (Z.testbit st (Z.log2 flag)).
Qed.

(** Status word 0x1f: lock is reported. *)
Lemma flag_records_follow_the_status_bits_witness :
  exists pairs,
    labelOrders "0" "0" pairs
    /\ In (sampleText "gauge" "dvb_fe_has_lock" "1" "Frontend is receiving data"
                      pairs)
          (echo.Writer (resp (handleMetrics ex_locked (fun _ => 0%nat) false
                                            ex_registry (ex_request [])).2)).
Proof.
  apply (flag_records_follow_the_status_bits ex_locked (fun _ => 0%nat) false
           ex_registry (ex_request []) ex_visit 31 frontend.HasLock
           "dvb_fe_has_lock" "Frontend is receiving data" ex_visit_registered
           eq_refl).
  unfold v3Flags. cbn [In]. tauto.
Defined.

(** ** The percentage of a raw reading, over the whole range *)

(** X5. The percentage grows with the raw value read as unsigned.  A reading
    that is not negative gives less than 50, a negative one gives 50 or
    more, and 100 is reached by the one bit pattern 0xffff, which is the
    reading -1. *)
Theorem percentOfRaw_over_the_range (raw raw' : Z) :
  -32768 <= raw <= 32767 -> -32768 <= raw' <= 32767 ->
  (unsigned16 raw <= unsigned16 raw' -> percentOfRaw raw <= percentOfRaw raw')
  /\ (0 <= raw -> percentOfRaw raw <= 49)
  /\ (raw < 0 -> 50 <= percentOfRaw raw)
  /\ (percentOfRaw raw = 100 <-> raw = -1).
Proof.
  intros H H'. rewrite !percentOfRaw_percentage by assumption.
  unfold percentage, unsigned16.
  assert (forall u v, 0 <= u <= v -> u * 100 / 65535 <= v * 100 / 65535) as Hmono.
  { intros u v Huv. apply Z.div_le_mono; lia. }
  repeat split.
  - intros Hle. apply Hmono.
    destruct (Z.ltb_spec raw 0), (Z.ltb_spec raw' 0); lia.
  - intros Hpos. destruct (Z.ltb_spec raw 0); [lia|].
    apply Z.lt_succ_r, Z.div_lt_upper_bound; lia.
  - intros Hneg. destruct (Z.ltb_spec raw 0); [|lia].
    apply Z.div_le_lower_bound; lia.
  - intros E. destruct (Z.ltb_spec raw 0) as [Hn|Hn].
    + destruct (Z.eq_dec raw (-1)) as [|Hne]; [assumption|].
      assert ((raw + 65536) * 100 / 65535 < 100); [|lia].
      apply Z.div_lt_upper_bound; lia.
    + assert (raw * 100 / 65535 < 100); [|lia].
      apply Z.div_lt_upper_bound; lia.
  - intros ->. reflexivity.
Qed.

Lemma percentOfRaw_over_the_range_witness :
  percentOfRaw 32767 <= percentOfRaw (-32768)
  /\ 50 <= percentOfRaw (-32768).
Proof.
  destruct (percentOfRaw_over_the_range 32767 (-32768) ltac:(lia) ltac:(lia))
    as (Hm & _).
  destruct (percentOfRaw_over_the_range (-32768) 0 ltac:(lia) ltac:(lia))
    as (_ & _ & Hn & _).
  split; [apply Hm; vm_compute; discriminate | apply Hn; lia].
Defined.

(** ** The two revisions of the handler *)

Lemma Obtained_v3_in_v5 hw fe r :
  Obtained hw false fe r -> Obtained hw true fe r.
Proof.
  intros [stat m p rest Hv | st flag name help Hs Hf
         | st x Hs Hq | st x Hs Hq | st x Hs Hq | st x Hs Hq].
  - discriminate.
  - eapply obtained_flag; eauto.
  - eapply obtained_ber; eauto.
  - eapply obtained_snr; eauto.
  - eapply obtained_ss; eauto.
  - eapply obtained_ub; eauto.
Qed.

Lemma Obtained_v5_split hw fe r :
  Obtained hw true fe r ->
  (exists m, In m v5Metrics /\ rName r = v5Name m) \/ Obtained hw false fe r.
Proof.
  intros [stat m p rest Hv Hs Hm Hf Hp | st flag name help Hs Hf
         | st x Hs Hq | st x Hs Hq | st x Hs Hq | st x Hs Hq].
  - left. exists m. auto.
  - right. eapply obtained_flag; eauto.
  - right. eapply obtained_ber; eauto.
  - right. eapply obtained_snr; eauto.
  - right. eapply obtained_ss; eauto.
  - right. eapply obtained_ub; eauto.
Qed.

(** X6. The revision that polls the v5 statistics adds records and takes
    none away.  On the same registry and the same hardware answers,
    every record that the v3 revision writes is written by the v5
    revision too (same name, type, help text, value and labels), and
    every record of the v5 revision that is not named as a v5 metric is
    one of the v3 revision. *)
Theorem v5_revision_extends_v3
        (hw : frontend.Driver) (order3 order5 : nat -> nat)
        (reg : gmap string adapterEntry) (w : World (list string)) :
  exists samples3 samples5,
    echo.Writer (resp (handleMetrics hw order3 false reg w).2)
    = echo.Writer (resp w) ++ map chunkOf samples3
    /\ echo.Writer (resp (handleMetrics hw order5 true reg w).2)
       = echo.Writer (resp w) ++ map chunkOf samples5
    /\ (forall x, In x samples3 ->
          exists x', In x' samples5 /\ recordOf x' = recordOf x)
    /\ (forall x', In x' samples5 ->
          (exists m, In m v5Metrics /\ sName x' = v5Name m)
          \/ exists x, In x samples3 /\ recordOf x = recordOf x').
Proof.
  destruct (handleMetrics_response hw order3 false reg w)
    as (vs3 & samples3 & E3 & _ & _ & Hto3 & Hfrom3).
  destruct (handleMetrics_response hw order5 true reg w)
    as (vs5 & samples5 & E5 & _ & _ & Hto5 & Hfrom5).
  exists samples3, samples5. split; [exact E3|]. split; [exact E5|]. split.
  - intros x Hx. destruct (Hfrom3 x Hx) as (d & r & Hd & Hr & Hl).
    destruct (Hto5 d r Hd (Obtained_v3_in_v5 _ _ _ Hr)) as (x' & Hx' & _ & Hl').
    exists x'. split; [exact Hx'|].
    now rewrite (labelled_recordOf _ _ _ _ Hl), (labelled_recordOf _ _ _ _ Hl').
  - intros x' Hx'. destruct (Hfrom5 x' Hx') as (d & r & Hd & Hr & Hl').
    destruct (Obtained_v5_split _ _ _ Hr) as [(m & Hm & Hn)|Hr3].
    + left. exists m. split; [exact Hm|].
      destruct Hl' as (pairs & _ & ->). exact Hn.
    + right. destruct (Hto3 d r Hd Hr3) as (x & Hx & _ & Hl).
      exists x. split; [exact Hx|].
      now rewrite (labelled_recordOf _ _ _ _ Hl), (labelled_recordOf _ _ _ _ Hl').
Qed.

(** ** How much a poll writes *)

Lemma length_statReading typ scale box vs name help :
  (length (statReading typ scale box vs name help) <= 1)%nat.
Proof.
  unfold statReading. destruct vs; [simpl; lia|].
  case_bool_decide; simpl; lia.
Qed.

Lemma length_scalarReading typ r box name help :
  (length (scalarReading typ r box name help) <= 1)%nat.
Proof. unfold scalarReading. destruct r; simpl; lia. Qed.

Lemma length_v5Readings hw fe : (length (v5Readings hw fe) <= 8)%nat.
Proof.
  unfold v5Readings. destruct (frontend.Stat hw fe) as [stat|]; [|simpl; lia].
  cbn [flat_map v5Metrics]. rewrite !length_app. cbn [length].
  repeat match goal with
         | |- context [length (statReading ?t ?s ?b ?v ?n ?h)] =>
             pose proof (length_statReading t s b v n h);
             generalize dependent (length (statReading t s b v n h)); intros
         end.
  lia.
Qed.

Lemma length_v3Readings hw fe : (length (v3Readings hw fe) <= 9)%nat.
Proof.
  unfold v3Readings. destruct (frontend.Status hw fe) as [st|err];
    [|simpl; lia].
  rewrite !length_app, length_map. cbn [length v3Flags].
  repeat match goal with
         | |- context [length (scalarReading ?t ?r ?b ?n ?h)] =>
             pose proof (length_scalarReading t r b n h);
             generalize dependent (length (scalarReading t r b n h)); intros
         end.
  lia.
Qed.

Lemma length_v3Readings_ok hw fe st :
  frontend.Status hw fe = Ok st -> (5 <= length (v3Readings hw fe))%nat.
Proof.
  intros E. unfold v3Readings. rewrite E.
  rewrite length_app, length_map. cbn [length v3Flags]. lia.
Qed.

Lemma Forall2_length_concat_le {A C} (R : A -> list C -> Prop) (n : nat) vs sss :
  Forall2 R vs sss ->
  (forall d ss, In d vs -> R d ss -> (length ss <= n)%nat) ->
  (length (concat sss) <= n * length vs)%nat.
Proof.
  intros F. induction F as [|d ss vs sss HR _ IH]; intros Hn; simpl; [lia|].
  rewrite length_app.
  pose proof (Hn d ss (or_introl eq_refl) HR).
  assert (length (concat sss) <= n * length vs)%nat
    by (apply IH; intros; eapply Hn; [right|]; eassumption).
  lia.
Qed.

Lemma Forall2_length_concat_ge {A C} (R : A -> list C -> Prop) (n : nat) vs sss :
  Forall2 R vs sss ->
  (forall d ss, In d vs -> R d ss -> (n <= length ss)%nat) ->
  (n * length vs <= length (concat sss))%nat.
Proof.
  intros F. induction F as [|d ss vs sss HR _ IH]; intros Hn; simpl; [lia|].
  rewrite length_app.
  pose proof (Hn d ss (or_introl eq_refl) HR).
  assert (n * length vs <= length (concat sss))%nat
    by (apply IH; intros; eapply Hn; [right|]; eassumption).
  lia.
Qed.

(** X7. A poll adds at most nine records for each registered frontend in the
    v3 revision and at most seventeen in the revision with the v5
    statistics; and it adds at least five for each when the status query
    of every registered frontend succeeds. *)
Theorem records_per_frontend
        (hw : frontend.Driver) (mapOrder : nat -> nat) (v5 : bool)
        (reg : gmap string adapterEntry) (w : World (list string)) :
  (length (echo.Writer (resp (handleMetrics hw mapOrder v5 reg w).2))
   <= length (echo.Writer (resp w))
      + (if v5 then 17 else 9) * length (registered reg))%nat
  /\ ((forall d, In d (registered reg) ->
         exists st, frontend.Status hw (feDevice (vFrontend d)) = Ok st) ->
      (length (echo.Writer (resp w)) + 5 * length (registered reg)
       <= length (echo.Writer (resp (handleMetrics hw mapOrder v5 reg w).2)))%nat).
Proof.
  destruct (handleMetrics_run hw mapOrder v5 reg w)
    as (vs & sss & k & E & P & F).
  rewrite E. cbn [snd].
  change (echo.Writer (resp (extend (committed w) (concat sss)
                               (flat_map (visitLogs hw v5) vs) k)))
    with (echo.Writer (resp (committed w)) ++ map chunkOf (concat sss)).
  rewrite Writer_committed, length_app, length_map, <- (Permutation_length P).
  split.
  - apply Nat.add_le_mono_l.
    apply (Forall2_length_concat_le (visitSamples hw v5)); [exact F|].
    intros d ss _ Hv. unfold visitSamples in Hv.
    rewrite <- (Forall2_length _ _ _ Hv). unfold deviceReadings.
    rewrite length_app.
    pose proof (length_v5Readings hw (feDevice (vFrontend d))).
    pose proof (length_v3Readings hw (feDevice (vFrontend d))).
    destruct v5; simpl; lia.
  - intros Hall. apply Nat.add_le_mono_l.
    apply (Forall2_length_concat_ge (visitSamples hw v5)); [exact F|].
    intros d ss Hd Hv. unfold visitSamples in Hv.
    rewrite <- (Forall2_length _ _ _ Hv). unfold deviceReadings.
    rewrite length_app.
    destruct (Hall d) as (st & Hst).
    { apply list_elem_of_In. rewrite <- P. now apply list_elem_of_In. }
    pose proof (length_v3Readings_ok hw _ st Hst). lia.
Qed.

(** ** What the discovery does to the registry *)

Lemma register_registerIn adapterName adapterNum frontendName frontendNum fdev s :
  register adapterName adapterNum frontendName frontendNum fdev s
  = (inr tt,
     mkProcess (registerIn (adapters s) adapterName adapterNum frontendName
                           frontendNum fdev)
               (stderr s) (infos s) (nextFd s)).
Proof.
  unfold registerIn, register. cbn [adapters stderr infos nextFd].
  destruct (adapters s !! adapterName) as [a|];
    [destruct (aeFrontends a !! frontendName)|]; reflexivity.
Qed.

Lemma registerIn_cases reg adapterName adapterNum frontendName frontendNum fdev :
  let f := mkFrontendEntry frontendNum frontendName fdev in
  match reg !! adapterName with
  | Some a =>
      match aeFrontends a !! frontendName with
      | Some _ =>
          registerIn reg adapterName adapterNum frontendName frontendNum fdev
          = reg
      | None =>
          registerIn reg adapterName adapterNum frontendName frontendNum fdev
          = <[adapterName :=
                mkAdapterEntry (aeID a) (aeName a)
                  (<[frontendName := f]> (aeFrontends a))]> reg
      end
  | None =>
      registerIn reg adapterName adapterNum frontendName frontendNum fdev
      = <[adapterName :=
            mkAdapterEntry adapterNum adapterName (<[frontendName := f]> ∅)]> reg
  end.
Proof.
  unfold registerIn, register. cbn [adapters].
  destruct (reg !! adapterName) as [a|]; cbn [aeFrontends aeID aeName].
  - destruct (aeFrontends a !! frontendName); reflexivity.
  - rewrite lookup_empty. cbn [snd adapters]. now rewrite insert_insert_eq.
Qed.

Section Steps.
Variable fs : FileSystem.
Variable basePath : string.
Variable R : gmap string adapterEntry -> gmap string adapterEntry -> Prop.
Hypothesis R_refl : forall reg, R reg reg.
Hypothesis R_trans : forall r1 r2 r3, R r1 r2 -> R r2 r3 -> R r1 r3.
Hypothesis R_register :
  forall reg adapterName adapterNum frontendName frontendNum fd,
    adapterListed fs basePath adapterName adapterNum ->
    frontendListed fs adapterName frontendName frontendNum ->
    OpenRO fs (devicePath basePath adapterNum frontendNum) = None ->
    R reg (registerIn reg adapterName adapterNum frontendName frontendNum
             (frontend.mkDevice (devicePath basePath adapterNum frontendNum) fd)).

Lemma forP_steps {A} (l : list A) (body : A -> P unit) :
  (forall x, In x l -> forall s, R (adapters s) (adapters (body x s).2)) ->
  forall s, R (adapters s) (adapters (forP_ l body s).2).
Proof.
  induction l as [|x l IH]; intros Hb s; [apply R_refl|].
  cbn [forP_]. unfold mbind, P_bind.
  pose proof (Hb x (or_introl eq_refl) s) as Hx.
  destruct (body x s) as [[h|[]] s0]; [exact Hx|].
  eapply R_trans; [exact Hx|]. apply IH. intros y Hy. apply Hb. now right.
Qed.

Lemma main_frontend_steps adapterName adapterNum l frontendName s :
  adapterListed fs basePath adapterName adapterNum ->
  Glob fs (filepath.Join [adapterName; "frontend*"]) = Ok l ->
  In frontendName l ->
  R (adapters s)
    (adapters (main_frontend fs basePath adapterName adapterNum frontendName s).2).
Proof.
  intros Ha Hg Hin. unfold main_frontend.
  destruct (sliceFrom 8 _) as [str|] eqn:Hs; [|apply R_refl].
  destruct (strconv.Atoi str) as [num|e] eqn:Hn; [|apply R_refl].
  unfold mbind, P_bind, slogInfo, openRO. cbn [adapters stderr infos nextFd].
  fold (devicePath basePath adapterNum num).
  destruct (OpenRO fs _) as [err|] eqn:Ho; [apply R_refl|].
  rewrite register_registerIn. cbn [snd adapters].
  apply R_register; [exact Ha | | exact Ho].
  exists l, str. auto.
Qed.

Lemma main_adapter_steps l adapterName s :
  Glob fs (filepath.Join [basePath; "adapter*"]) = Ok l ->
  In adapterName l ->
  R (adapters s) (adapters (main_adapter fs basePath adapterName s).2).
Proof.
  intros Hg Hin. unfold main_adapter.
  destruct (sliceFrom 7 _) as [str|] eqn:Hs; [|apply R_refl].
  destruct (strconv.Atoi str) as [num|e] eqn:Hn; [|apply R_refl].
  destruct (Glob fs (filepath.Join [adapterName; _])) as [l'|err] eqn:Hg';
    [|apply R_refl].
  apply forP_steps. intros fn Hfn s0.
  eapply main_frontend_steps; [|exact Hg'|exact Hfn].
  exists l, str. auto.
Qed.

Lemma discover_steps s :
  R (adapters s) (adapters (discover fs basePath s).2).
Proof.
  unfold discover.
  destruct (Glob fs _) as [l|err] eqn:Hg; [|apply R_refl].
  unfold mbind, P_bind.
  pose proof (forP_steps l (main_adapter fs basePath)
                (fun an Han s0 => main_adapter_steps l an s0 Hg Han) s) as H.
  destruct (forP_ l _ s) as [[h|[]] s0]; exact H.
Qed.

Lemma main_steps prog args s :
  (forall v, flag.parseArgs args flag.defaults = flag.Parsed v ->
             flag.devpath v = basePath) ->
  R (adapters s) (adapters (main fs prog args s).2).
Proof.
  intros Hflags.
  destruct (flag.parseArgs args flag.defaults) as [[path addr]| |msg] eqn:E;
    [|unfold main, flag.Parse; rewrite E; apply R_refl..].
  rewrite (main_flags _ _ _ _ _ _ E).
  specialize (Hflags _ eq_refl). cbn [flag.devpath] in Hflags. subst path.
  unfold mbind, P_bind.
  destruct (notExist fs basePath); [apply R_refl|].
  unfold mret at 1. unfold P_ret at 1.
  pose proof (discover_steps s) as H.
  destruct (discover fs basePath s) as [[h|[[]|]] s0]; exact H.
Qed.

End Steps.

Lemma keepsEntries_refl reg : keepsEntries reg reg.
Proof. intros an a Ha. exists a. auto. Qed.

Lemma keepsEntries_trans r1 r2 r3 :
  keepsEntries r1 r2 -> keepsEntries r2 r3 -> keepsEntries r1 r3.
Proof.
  intros H12 H23 an a Ha.
  destruct (H12 an a Ha) as (a2 & Ha2 & Hi2 & Hn2 & Hf2).
  destruct (H23 an a2 Ha2) as (a3 & Ha3 & Hi3 & Hn3 & Hf3).
  exists a3. repeat split; [assumption|congruence|congruence|].
  etransitivity; eassumption.
Qed.

Lemma keepsEntries_registerIn reg adapterName adapterNum frontendName
      frontendNum fdev :
  keepsEntries reg
    (registerIn reg adapterName adapterNum frontendName frontendNum fdev).
Proof.
  pose proof (registerIn_cases reg adapterName adapterNum frontendName
                frontendNum fdev) as H. cbn zeta in H.
  destruct (reg !! adapterName) as [a|] eqn:Ha.
  - destruct (aeFrontends a !! frontendName) as [f|] eqn:Hf; rewrite H.
    + apply keepsEntries_refl.
    + intros an a0 Ha0. destruct (decide (adapterName = an)) as [<-|Hne].
      * rewrite Ha in Ha0. inversion Ha0; subst a0.
        eexists. rewrite lookup_insert_eq. split; [reflexivity|].
        cbn [aeID aeName aeFrontends]. repeat split.
        now apply insert_subseteq.
      * exists a0. rewrite lookup_insert_ne by exact Hne. auto.
  - rewrite H. intros an a0 Ha0.
    destruct (decide (adapterName = an)) as [<-|Hne]; [congruence|].
    exists a0. rewrite lookup_insert_ne by exact Hne. auto.
Qed.

(** X8. Whatever the command line and however the start-up ends (serving,
    returning, exiting or in a panic), it only adds to the registry:
    every entry that was there is still there under its path, with the
    same number and name, and every frontend of it still has the handle
    it had. *)
Theorem main_only_adds (fs : FileSystem) (prog : string)
        (args : list string) (s : Process) :
  keepsEntries (adapters s) (adapters (main fs prog args s).2).
Proof.
  apply (main_steps fs
           (flag.devpath
              match flag.parseArgs args flag.defaults with
              | flag.Parsed v => v
              | _ => flag.defaults
              end)).
  - apply keepsEntries_refl.
  - apply keepsEntries_trans.
  - intros. apply keepsEntries_registerIn.
  - intros v E. now rewrite E.
Qed.

Section Keys.
Variable fs : FileSystem.
Variable basePath : string.

Lemma wellKeyed_registerIn reg adapterName adapterNum frontendName frontendNum fd :
  adapterListed fs basePath adapterName adapterNum ->
  frontendListed fs adapterName frontendName frontendNum ->
  wellKeyed basePath reg ->
  wellKeyed basePath
    (registerIn reg adapterName adapterNum frontendName frontendNum
       (frontend.mkDevice (devicePath basePath adapterNum frontendNum) fd)).
Proof.
  intros (l & str & _ & _ & Hs & Hn) (l' & str' & _ & _ & Hs' & Hn') Hwf.
  pose proof (registerIn_cases reg adapterName adapterNum frontendName
                frontendNum
                (frontend.mkDevice (devicePath basePath adapterNum frontendNum)
                                   fd)) as H.
  cbn zeta in H.
  destruct (reg !! adapterName) as [a|] eqn:Ha.
  - destruct (aeFrontends a !! frontendName) as [f|] eqn:Hf; rewrite H;
      [exact Hwf|].
    destruct (Hwf _ _ Ha) as (Hname & (str0 & Hs0 & Hn0) & Hfs).
    assert (aeID a = adapterNum) as Hid by congruence.
    intros an a0 Ha0. destruct (decide (adapterName = an)) as [<-|Hne].
    + rewrite lookup_insert_eq in Ha0. inversion Ha0; subst a0.
      cbn [aeID aeName aeFrontends]. split; [exact Hname|].
      split; [eauto|]. intros fn f0 Hf0.
      destruct (decide (frontendName = fn)) as [<-|Hne'].
      * rewrite lookup_insert_eq in Hf0. inversion Hf0; subst f0.
        cbn [feName feID feDevice frontend.path]. rewrite Hid. eauto.
      * rewrite lookup_insert_ne in Hf0 by exact Hne'. now apply Hfs.
    + rewrite lookup_insert_ne in Ha0 by exact Hne. now apply Hwf.
  - rewrite H. intros an a0 Ha0.
    destruct (decide (adapterName = an)) as [<-|Hne].
    + rewrite lookup_insert_eq in Ha0. inversion Ha0; subst a0.
      cbn [aeID aeName aeFrontends]. split; [reflexivity|].
      split; [eauto|]. intros fn f0 Hf0.
      destruct (decide (frontendName = fn)) as [<-|Hne'].
      * rewrite lookup_insert_eq in Hf0. inversion Hf0; subst f0.
        cbn [feName feID feDevice frontend.path]. eauto.
      * rewrite lookup_insert_ne, lookup_empty in Hf0 by exact Hne'.
        discriminate.
    + rewrite lookup_insert_ne in Ha0 by exact Hne. now apply Hwf.
Qed.

End Keys.

(** X9. The start-up keeps the registry well keyed, however it ends, for
    the base path that the command line gives: every entry is filed under its own name, the number of an adapter and of a
    frontend is the one that [Atoi] reads at the end of its path, and
    the handle of a frontend is open on the path built from the base and
    the two numbers. *)
Theorem main_keeps_the_registry_well_keyed
        (fs : FileSystem) (prog : string) (args : list string)
        (basePath listen : string) (s : Process) :
  flag.parseArgs args flag.defaults
  = flag.Parsed (flag.mkValues basePath listen) ->
  wellKeyed basePath (adapters s) ->
  wellKeyed basePath (adapters (main fs prog args s).2).
Proof.
  intros Hflags.
  apply (main_steps fs basePath
           (fun reg reg' => wellKeyed basePath reg -> wellKeyed basePath reg')).
  - auto.
  - auto.
  - intros reg an n fn m fd Ha Hf _. now apply (wellKeyed_registerIn fs).
  - intros v E. rewrite Hflags in E. now inversion E.
Qed.

Lemma main_keeps_the_registry_well_keyed_witness :
  wellKeyed "/dev/dvb" (adapters (main ex_tree "dvb-exporter" [] boot).2).
Proof.
  apply (main_keeps_the_registry_well_keyed ex_tree "dvb-exporter" []
           "/dev/dvb" ":8027" boot eq_refl).
  intros an a Ha. unfold boot in Ha. cbn [adapters] in Ha.
  rewrite lookup_empty in Ha. discriminate Ha.
Defined.

(** ** Which paths end up registered *)

Section Found.
Variable fs : FileSystem.
Variable prog : string.
Variable args : list string.
Variables basePath listen : string.
Hypothesis Hflags :
  flag.parseArgs args flag.defaults
  = flag.Parsed (flag.mkValues basePath listen).

Lemma covered_registerIn reg adapterName adapterNum frontendName frontendNum
      fdev an fn :
  covered (registerIn reg adapterName adapterNum frontendName frontendNum fdev)
          an fn ->
  covered reg an fn \/ (an = adapterName /\ fn = frontendName).
Proof.
  pose proof (registerIn_cases reg adapterName adapterNum frontendName
                frontendNum fdev) as H. cbn zeta in H.
  intros (a' & Ha' & Hf'). unfold covered.
  destruct (reg !! adapterName) as [a|] eqn:Ha.
  - destruct (aeFrontends a !! frontendName) as [f|] eqn:Hf; rewrite H in Ha'.
    + left. eauto.
    + destruct (decide (adapterName = an)) as [<-|Hne].
      * rewrite lookup_insert_eq in Ha'. inversion Ha'; subst a'.
        cbn [aeFrontends] in Hf'.
        destruct (decide (frontendName = fn)) as [<-|Hne']; [now right|].
        rewrite lookup_insert_ne in Hf' by exact Hne'. left. eauto.
      * rewrite lookup_insert_ne in Ha' by exact Hne. left. eauto.
  - rewrite H in Ha'. destruct (decide (adapterName = an)) as [<-|Hne].
    + rewrite lookup_insert_eq in Ha'. inversion Ha'; subst a'.
      cbn [aeFrontends] in Hf'.
      destruct (decide (frontendName = fn)) as [<-|Hne']; [now right|].
      rewrite lookup_insert_ne, lookup_empty in Hf' by exact Hne'.
      destruct Hf' as [? Hf']. discriminate Hf'.
    + rewrite lookup_insert_ne in Ha' by exact Hne. left. eauto.
Qed.

Lemma main_onlyListed s :
  onlyListed fs basePath (adapters s) (adapters (main fs prog args s).2).
Proof.
  apply (main_steps fs basePath (onlyListed fs basePath)).
  - intros reg an fn H. now left.
  - intros r1 r2 r3 H12 H23 an fn H.
    destruct (H23 an fn H) as [H2|Hl]; [|now right]. now apply H12.
  - intros reg an n fn m fd Ha Hf _ an' fn' H.
    apply covered_registerIn in H as [H|[-> ->]]; [now left|].
    right. exists n, m. auto.
  - intros v E. rewrite Hflags in E. now inversion E.
Qed.

Lemma main_grows s : grows (adapters s) (adapters (main fs prog args s).2).
Proof.
  apply (main_steps fs basePath grows).
  - intros reg an fn H. exact H.
  - intros r1 r2 r3 H12 H23 an fn H. auto.
  - intros reg an n fn m fd _ _ _ an' fn' H. unfold registerIn.
    now apply register_keeps.
  - intros v E. rewrite Hflags in E. now inversion E.
Qed.

Lemma main_serving s s' :
  main fs prog args s = (inr Serving, s') ->
  discover fs basePath s = (inr (Some tt), s').
Proof.
  rewrite (main_flags _ _ _ _ _ _ Hflags). unfold mbind, P_bind.
  destruct (notExist fs basePath); [discriminate|].
  unfold mret at 1. unfold P_ret at 1.
  destruct (discover fs basePath s) as [[h|[[]|]] s0]; [discriminate| |];
    intros E; inversion E; reflexivity.
Qed.

Lemma discover_covers s s' adapterName frontendName :
  discover fs basePath s = (inr (Some tt), s') ->
  listed fs basePath adapterName frontendName ->
  covered (adapters s') adapterName frontendName.
Proof.
  intros E (n & m & (l & str & Hg & Hin & Hs & Hn)
              & (l' & str' & Hg' & Hin' & Hs' & Hn')).
  unfold discover in E. rewrite Hg in E. unfold mbind, P_bind in E.
  destruct (forP_ l _ s) as [[h|[]] s0] eqn:El; [discriminate|].
  inversion E; subst s0.
  destruct (adapters_first fs basePath l s s' El) as [Hall _].
  rewrite Forall_forall in Hall. specialize (Hall adapterName).
  assert (adapterSettled fs basePath (adapters s') adapterName) as Hset.
  { apply Hall. now apply list_elem_of_In. }
  unfold adapterSettled in Hset. rewrite Hs, Hn, Hg' in Hset.
  rewrite Forall_forall in Hset. specialize (Hset frontendName).
  assert (frontendSettled fs basePath adapterName n (adapters s') frontendName)
    as Hset'.
  { apply Hset. now apply list_elem_of_In. }
  unfold frontendSettled in Hset'. rewrite Hs', Hn' in Hset'. tauto.
Qed.

End Found.

(** X10. When the start-up reaches the point of serving, with [basePath]
    what the command line gives, it has registered what the directory
    listings show and nothing else: a frontend path is
    registered under an adapter path exactly when it was registered
    before, or the adapter path is listed under the base and ends in a
    number, and the frontend path is listed under the adapter path and
    ends in a number. *)
Theorem main_registers_what_is_listed
        (fs : FileSystem) (prog : string) (args : list string)
        (basePath listen : string) (s s' : Process)
        (adapterName frontendName : string) :
  flag.parseArgs args flag.defaults
  = flag.Parsed (flag.mkValues basePath listen) ->
  main fs prog args s = (inr Serving, s') ->
  (covered (adapters s') adapterName frontendName <->
   covered (adapters s) adapterName frontendName
   \/ listed fs basePath adapterName frontendName).
Proof.
  intros Hflags E. split.
  - intros H.
    pose proof (main_onlyListed fs prog args basePath listen Hflags s) as Ho.
    rewrite E in Ho. now apply Ho.
  - intros [H|H].
    + pose proof (main_grows fs prog args basePath listen Hflags s) as Hk.
      rewrite E in Hk. now apply Hk.
    + eapply discover_covers; [|exact H].
      eapply main_serving; [exact Hflags | exact E].
Qed.

Lemma main_registers_what_is_listed_witness :
  covered (adapters (main ex_tree "dvb-exporter" [] boot).2)
          "/dev/dvb/adapter0" "/dev/dvb/adapter0/frontend1"
  <-> covered (adapters boot) "/dev/dvb/adapter0" "/dev/dvb/adapter0/frontend1"
      \/ listed ex_tree "/dev/dvb" "/dev/dvb/adapter0"
                "/dev/dvb/adapter0/frontend1".
Proof.
  apply (main_registers_what_is_listed ex_tree "dvb-exporter" [] "/dev/dvb"
           ":8027" boot (main ex_tree "dvb-exporter" [] boot).2 _ _ eq_refl).
  vm_compute. reflexivity.
Defined.

(** ** How the start-up can halt *)

Lemma forP_halts {A} (l : list A) (body : A -> P unit) s h s' :
  forP_ l body s = (inl h, s') ->
  exists x s0, In x l /\ body x s0 = (inl h, s').
Proof.
  revert s. induction l as [|x l IH]; intros s E; [discriminate|].
  cbn [forP_] in E. unfold mbind, P_bind in E.
  destruct (body x s) as [[h0|[]] s0] eqn:Ex.
  - inversion E; subst. exists x, s. split; [now left | exact Ex].
  - destruct (IH _ E) as (y & s1 & Hy & Ey). exists y, s1. split; [now right|].
    exact Ey.
Qed.

Section Halts.
Variable fs : FileSystem.
Variable basePath : string.

Lemma main_frontend_halts adapterName adapterNum frontendName s h s' :
  main_frontend fs basePath adapterName adapterNum frontendName s = (inl h, s') ->
  (h = Panic /\ sliceFrom 8 (filepath.Base frontendName) = None)
  \/ (h = Exit 2
      /\ exists str frontendNum err,
           sliceFrom 8 (filepath.Base frontendName) = Some str
           /\ strconv.Atoi str = Ok frontendNum
           /\ OpenRO fs (devicePath basePath adapterNum frontendNum) = Some err
           /\ last (stderr s')
              = Some ("Error opening frontend "
                        +:+ devicePath basePath adapterNum frontendNum
                        +:+ ": " +:+ err +:+ nl)).
Proof.
  unfold main_frontend.
  destruct (sliceFrom 8 _) as [str|] eqn:Hs.
  - destruct (strconv.Atoi str) as [num|e] eqn:Hn; [|discriminate].
    unfold mbind, P_bind, slogInfo, openRO. cbn [adapters stderr infos nextFd].
    fold (devicePath basePath adapterNum num).
    destruct (OpenRO fs _) as [err|] eqn:Ho.
    + unfold eprint, halt. cbn [adapters stderr infos nextFd].
      intros E. inversion E; subst. right. split; [reflexivity|].
      exists str, num, err. cbn [stderr]. rewrite last_snoc. auto.
    + rewrite register_registerIn. discriminate.
  - unfold halt. intros E. inversion E; subst. left. auto.
Qed.

Lemma main_adapter_halts l adapterName s h s' :
  Glob fs (filepath.Join [basePath; "adapter*"]) = Ok l ->
  In adapterName l ->
  main_adapter fs basePath adapterName s = (inl h, s') ->
  (h = Panic
   /\ (sliceFrom 7 (filepath.Base adapterName) = None
       \/ exists adapterNum l' name,
            adapterListed fs basePath adapterName adapterNum
            /\ Glob fs (filepath.Join [adapterName; "frontend*"]) = Ok l'
            /\ In name l'
            /\ sliceFrom 8 (filepath.Base name) = None))
  \/ (h = Exit 2
      /\ exists adapterNum frontendName frontendNum err,
           adapterListed fs basePath adapterName adapterNum
           /\ frontendListed fs adapterName frontendName frontendNum
           /\ OpenRO fs (devicePath basePath adapterNum frontendNum) = Some err
           /\ last (stderr s')
              = Some ("Error opening frontend "
                        +:+ devicePath basePath adapterNum frontendNum
                        +:+ ": " +:+ err +:+ nl)).
Proof.
  intros Hg Hin. unfold main_adapter.
  destruct (sliceFrom 7 _) as [str|] eqn:Hs.
  - destruct (strconv.Atoi str) as [num|e] eqn:Hn; [|discriminate].
    assert (adapterListed fs basePath adapterName num) as Hl
      by (exists l, str; auto).
    destruct (Glob fs (filepath.Join [adapterName; _])) as [l'|err] eqn:Hg';
      [|discriminate].
    intros E. apply forP_halts in E as (fn & s0 & Hfn & E).
    apply main_frontend_halts in E as [[-> Hp]|(-> & str' & m & err & H1 & H2 & H3 & H4)].
    + left. split; [reflexivity|]. right. exists num, l', fn. auto.
    + right. split; [reflexivity|]. exists num, fn, m, err.
      split; [exact Hl|]. split; [exists l', str'; auto|]. auto.
  - unfold halt. intros E. inversion E; subst. left. auto.
Qed.

End Halts.

(** X11. Every way in which the start-up ends before it serves.  On the
    command line: a request for help prints the usage and exits with
    code 0, and a malformed command line prints the error and the usage
    and exits with code 2; in both cases nothing else has happened.  With
    the flags read: code 1 when the base directory does not exist, the
    line that names it being all that was printed; a plain return when
    the listing of the adapters fails, the line with the error being all
    that was printed; code 2 when a listed frontend with two readable
    numbers fails to open, the last line on standard error naming the
    path and the error; and a panic when a listed name is shorter than
    the prefix that is cut off it. *)
Theorem main_stops_before_serving
        (fs : FileSystem) (prog : string) (args : list string)
        (s s' : Process) (r : Halt + Ending) :
  main fs prog args s = (r, s') ->
  r <> inr Serving ->
  (r = inl (Exit 0)
   /\ flag.parseArgs args flag.defaults = flag.ErrHelp
   /\ s' = (flag.usage prog s).2)
  \/ (r = inl (Exit 2)
      /\ exists msg,
           flag.parseArgs args flag.defaults = flag.Failed msg
           /\ s' = (flag.usage prog (printed s (msg +:+ nl))).2)
  \/ exists basePath listen,
       flag.parseArgs args flag.defaults
       = flag.Parsed (flag.mkValues basePath listen)
       /\ ((r = inl (Exit 1)
            /\ notExist fs basePath = true
            /\ s' = printed s ("Base path " +:+ basePath
                                 +:+ " does not exist" +:+ nl))
           \/ (r = inr Returned
               /\ notExist fs basePath = false
               /\ exists err,
                    Glob fs (filepath.Join [basePath; "adapter*"]) = Err err
                    /\ s' = printed s ("Error finding adapters: " +:+ err
                                         +:+ nl))
           \/ (r = inl (Exit 2)
               /\ notExist fs basePath = false
               /\ exists adapterName adapterNum frontendName frontendNum err,
                    adapterListed fs basePath adapterName adapterNum
                    /\ frontendListed fs adapterName frontendName frontendNum
                    /\ OpenRO fs (devicePath basePath adapterNum frontendNum)
                       = Some err
                    /\ last (stderr s')
                       = Some ("Error opening frontend "
                                 +:+ devicePath basePath adapterNum frontendNum
                                 +:+ ": " +:+ err +:+ nl))
           \/ (r = inl Panic
               /\ notExist fs basePath = false
               /\ ((exists l name,
                      Glob fs (filepath.Join [basePath; "adapter*"]) = Ok l
                      /\ In name l
                      /\ sliceFrom 7 (filepath.Base name) = None)
                   \/ exists adapterName adapterNum l name,
                        adapterListed fs basePath adapterName adapterNum
                        /\ Glob fs (filepath.Join [adapterName; "frontend*"])
                           = Ok l
                        /\ In name l
                        /\ sliceFrom 8 (filepath.Base name) = None))).
Proof.
  destruct (flag.parseArgs args flag.defaults) as [[basePath listen]| |msg]
    eqn:Hflags.
  - rewrite (main_flags _ _ _ _ _ _ Hflags). intros E Hr.
    right. right. exists basePath, listen. split; [reflexivity|].
    revert E. unfold mbind, P_bind.
    destruct (notExist fs basePath) eqn:Hb.
    + unfold eprint, halt. intros E. inversion E; subst. left. auto.
    + unfold mret at 1. unfold P_ret at 1. unfold discover.
      destruct (Glob fs _) as [l|err] eqn:Hg.
      * unfold mbind, P_bind.
        destruct (forP_ l _ s) as [[h0|[]] s0] eqn:El.
        -- intros E. inversion E; subst. right. right.
           apply forP_halts in El as (an & s1 & Han & Ea).
           apply (main_adapter_halts fs basePath l) in Ea
             as [(-> & [Hp|(n & l' & name & H1 & H2 & H3 & H4)])
                |(-> & n & fn & m & err & H)]; try assumption.
           ++ right. split; [reflexivity|]. split; [reflexivity|]. left.
              exists l, an. auto.
           ++ right. split; [reflexivity|]. split; [reflexivity|]. right.
              exists an, n, l', name. auto.
           ++ left. split; [reflexivity|]. split; [reflexivity|].
              exists an, n, fn, m, err. exact H.
        -- intros E. inversion E; subst. now contradiction Hr.
      * unfold mbind, P_bind, eprint. intros E. inversion E; subst.
        right. left. split; [reflexivity|]. split; [reflexivity|].
        exists err. auto.
  - unfold main, flag.Parse. rewrite Hflags. intros E _.
    change ((inl (Exit 0) : Halt + Ending, (flag.usage prog s).2) = (r, s'))
      in E.
    inversion E; subst. left. auto.
  - unfold main, flag.Parse. rewrite Hflags. intros E _.
    change ((inl (Exit 2) : Halt + Ending,
             (flag.usage prog (printed s (msg +:+ nl))).2) = (r, s')) in E.
    inversion E; subst. right. left. split; [reflexivity|]. exists msg. auto.
Qed.

Lemma main_stops_before_serving_witness :
  exists adapterNum frontendNum err,
    OpenRO ex_tree_busy (devicePath "/dev/dvb" adapterNum frontendNum) = Some err
    /\ last (stderr (main ex_tree_busy "dvb-exporter" [] boot).2)
       = Some ("Error opening frontend "
                 +:+ devicePath "/dev/dvb" adapterNum frontendNum
                 +:+ ": " +:+ err +:+ nl).
Proof.
  destruct (main_stops_before_serving ex_tree_busy "dvb-exporter" [] boot
              (main ex_tree_busy "dvb-exporter" [] boot).2 (inl (Exit 2)))
    as [(E & _)|[(_ & msg & E & _)|(basePath & listen & Hflags & H)]].
  - vm_compute. reflexivity.
  - discriminate.
  - discriminate E.
  - discriminate E.
  - inversion Hflags; subst basePath listen.
    destruct H as [(E & _)|[(E & _)|[(_ & _ & H)|(E & _)]]];
      try discriminate E.
    destruct H as (an & n & fn & m & err & _ & _ & Ho & Hl).
    exists n, m, err. auto.
Defined.

(** ** Names in canonical decimal *)

Lemma Atoi_digits (s : string) (n : Z) :
  s <> EmptyString -> allDigits s = true ->
  strconv.parse_digits 0 s = Some n ->
  strconv.intMin <= n <= strconv.intMax ->
  strconv.Atoi s = Ok n.
Proof.
  intros Hne Hd Hp Hr. destruct s as [|c r]; [congruence|].
  simpl in Hd. apply andb_prop in Hd as [Hc _].
  assert (strconv.Atoi (String c r)
          = match strconv.parse_digits 0 (String c r) with
            | None => Err (strconv.syntaxError (String c r))
            | Some u =>
                if (strconv.intMin <=? u) && (u <=? strconv.intMax) then Ok u
                else Err (strconv.rangeError (String c r))
            end) as ->.
  { unfold strconv.Atoi.
    destruct c as [[] [] [] [] [] [] [] []]; try reflexivity; discriminate Hc. }
  rewrite Hp.
  destruct (Z.leb_spec strconv.intMin n), (Z.leb_spec n strconv.intMax);
    simpl; first [reflexivity | lia].
Qed.

(** What [Itoa] prints, [Atoi] reads. *)
Lemma Atoi_Itoa (n : Z) :
  strconv.intMin <= n <= strconv.intMax -> strconv.Atoi (strconv.Itoa n) = Ok n.
Proof.
  intros Hr. unfold strconv.Itoa. destruct (Z.ltb_spec n 0) as [Hneg|Hpos].
  - pose proof (utoa_nonempty (- n)) as Hne.
    pose proof (parse_utoa (- n) ltac:(lia)) as Hp.
    change ("-" +:+ strconv.utoa (- n)) with (String "-" (strconv.utoa (- n))).
    unfold strconv.Atoi.
    destruct (strconv.utoa (- n)) as [|c r] eqn:E; [congruence|].
    rewrite Hp. replace (- - n) with n by lia.
    destruct (Z.leb_spec strconv.intMin n), (Z.leb_spec n strconv.intMax);
      simpl; first [reflexivity | lia].
  - apply Atoi_digits;
      [apply utoa_nonempty | apply utoa_digits | now apply parse_utoa | exact Hr].
Qed.

Lemma allDigits_without_slash (s : string) :
  allDigits s = true -> without "/" s = true.
Proof.
  induction s as [|c s IH]; [reflexivity|]. simpl.
  intros H. apply andb_prop in H as [Hc Hs]. rewrite (IH Hs), andb_true_r.
  destruct c as [[] [] [] [] [] [] [] []]; try reflexivity; discriminate Hc.
Qed.

Lemma Itoa_without_slash (n : Z) : without "/" (strconv.Itoa n) = true.
Proof.
  unfold strconv.Itoa. destruct (n <? 0).
  - change ("-" +:+ strconv.utoa (- n)) with (String "-" (strconv.utoa (- n))).
    simpl. apply allDigits_without_slash, utoa_digits.
  - apply allDigits_without_slash, utoa_digits.
Qed.

Lemma lastElem_without (x cur : string) :
  without "/" x = true -> filepath.lastElem x cur = cur +:+ x.
Proof.
  revert cur. induction x as [|c x IH]; intros cur H; simpl.
  - now rewrite append_nil_r.
  - simpl in H. apply andb_prop in H as [Hc Hx].
    unfold filepath.isSlash. apply negb_true_iff in Hc. rewrite Hc.
    rewrite (IH _ Hx), append_assoc. reflexivity.
Qed.

Lemma lastElem_after_slash (p x cur : string) :
  without "/" x = true ->
  filepath.lastElem (p +:+ String "/" x) cur = x.
Proof.
  intros Hx. revert cur. induction p as [|c p IH]; intros cur; simpl.
  - now rewrite lastElem_without.
  - destruct (filepath.isSlash c); apply IH.
Qed.

Lemma stripTrailing_without (x : string) :
  x <> EmptyString -> without "/" x = true -> filepath.stripTrailing x = x.
Proof.
  induction x as [|c x IH]; intros Hne H; [congruence|].
  simpl in H. apply andb_prop in H as [Hc Hx]. simpl.
  destruct x as [|c' x'].
  - simpl. unfold filepath.isSlash. apply negb_true_iff in Hc. now rewrite Hc.
  - rewrite IH by (auto; discriminate). reflexivity.
Qed.

Lemma stripTrailing_app (p x : string) :
  x <> EmptyString -> without "/" x = true ->
  filepath.stripTrailing (p +:+ x) = p +:+ x.
Proof.
  intros Hne Hx. induction p as [|c p IH]; simpl.
  - now apply stripTrailing_without.
  - rewrite IH. destruct (p +:+ x) eqn:E; [|reflexivity].
    apply append_eq_nil in E as [_ ->]. congruence.
Qed.

Lemma stripTrailing_keeps (p : string) (c : ascii) (x : string) :
  x <> EmptyString -> without "/" x = true ->
  filepath.stripTrailing (p +:+ String c x) = p +:+ String c x.
Proof.
  intros Hne Hx. induction p as [|c0 p IH]; simpl.
  - rewrite stripTrailing_without by assumption.
    destruct x; [congruence | reflexivity].
  - rewrite IH. destruct (p +:+ String c x) eqn:E; [|reflexivity].
    apply append_eq_nil in E as [_ E]. discriminate E.
Qed.

(** The last element of [dir/x]. *)
Lemma Base_Join2 (dir x : string) :
  x <> EmptyString -> without "/" x = true ->
  filepath.Base (filepath.Join [dir; x]) = x.
Proof.
  intros Hne Hx. cbn [filepath.Join].
  change (dir +:+ "/" +:+ x) with (dir +:+ String "/" x).
  unfold filepath.Base.
  destruct (dir +:+ String "/" x) eqn:E.
  { apply append_eq_nil in E as [_ E]. discriminate E. }
  rewrite <- E. rewrite stripTrailing_keeps by assumption.
  rewrite lastElem_after_slash by exact Hx.
  destruct x; [congruence | reflexivity].
Qed.

(** X12. A directory tree named the way the kernel names it: for an adapter
    directory [adapter<n>] under the base that holds the frontend
    [frontend<m>], the numbers in decimal as [Itoa] prints them, the scan
    of the adapter reads back [n] and [m], opens the very path that the
    listing gave, and files the handle under that path; with no entry for
    the adapter before, the registry gains exactly this one.  The paths
    are joined as [filepath.Join] above joins them, that is, for a base
    path that needs no cleaning. *)
Theorem canonical_names_are_opened_as_listed
        (fs : FileSystem) (basePath : string) (n m : Z) (s : Process) :
  let adapterName :=
    filepath.Join [basePath; "adapter" +:+ strconv.Itoa n] in
  let frontendName :=
    filepath.Join [adapterName; "frontend" +:+ strconv.Itoa m] in
  strconv.intMin <= n <= strconv.intMax ->
  strconv.intMin <= m <= strconv.intMax ->
  Glob fs (filepath.Join [adapterName; "frontend*"]) = Ok [frontendName] ->
  OpenRO fs frontendName = None ->
  adapters s !! adapterName = None ->
  main_adapter fs basePath adapterName s
  = (inr tt,
     mkProcess
       (<[adapterName :=
            mkAdapterEntry n adapterName
              {[ frontendName :=
                   mkFrontendEntry m frontendName
                     (frontend.mkDevice frontendName (nextFd s)) ]}]>
          (adapters s))
       (stderr s) (infos s ++ [foundRecord n m]) (S (nextFd s))).
Proof.
  intros adapterName frontendName Hn Hm Hg Ho Hnone.
  assert (sliceFrom 7 (filepath.Base adapterName) = Some (strconv.Itoa n)) as Hs.
  { unfold adapterName. rewrite Base_Join2; [reflexivity|discriminate|].
    simpl. apply Itoa_without_slash. }
  assert (sliceFrom 8 (filepath.Base frontendName) = Some (strconv.Itoa m)) as Hs'.
  { unfold frontendName. rewrite Base_Join2; [reflexivity|discriminate|].
    simpl. apply Itoa_without_slash. }
  assert (devicePath basePath n m = frontendName) as Hp.
  { unfold devicePath, frontendName, adapterName. cbn [filepath.Join].
    now rewrite !append_assoc. }
  unfold main_adapter. rewrite Hs, (Atoi_Itoa n Hn), Hg.
  cbn [forP_]. unfold mbind, P_bind, main_frontend.
  rewrite Hs', (Atoi_Itoa m Hm).
  unfold mbind, P_bind, slogInfo, openRO. cbn [adapters stderr infos nextFd].
  fold (devicePath basePath n m). rewrite Hp, Ho.
  unfold register. cbn [adapters stderr infos nextFd]. rewrite Hnone.
  cbn [aeFrontends aeID aeName]. rewrite lookup_empty.
  unfold mret, P_ret. rewrite insert_insert_eq, insert_empty. reflexivity.
Qed.

Lemma canonical_names_are_opened_as_listed_witness :
  adapters (main_adapter ex_single "/dev/dvb" "/dev/dvb/adapter0" boot).2
  = {[ "/dev/dvb/adapter0" :=
         mkAdapterEntry 0 "/dev/dvb/adapter0"
           {[ "/dev/dvb/adapter0/frontend0" :=
                mkFrontendEntry 0 "/dev/dvb/adapter0/frontend0"
                  (frontend.mkDevice "/dev/dvb/adapter0/frontend0" 3) ]} ]}.
Proof.
  refine (eq_trans
            (f_equal (fun r => adapters r.2)
               (canonical_names_are_opened_as_listed
                  ex_single "/dev/dvb" 0 0 boot _ _ _ _ _)) _).
  - vm_compute; split; discriminate.
  - vm_compute; split; discriminate.
  - vm_compute; reflexivity.
  - vm_compute; reflexivity.
  - vm_compute; reflexivity.
  - vm_compute; reflexivity.
Defined.

(** ** The errors of the writer *)

Section TwoWriters.
Context {W1 W2 : Type} `{!io.Writer W1} `{!io.Writer W2}.
Variable hw : frontend.Driver.
Variable mapOrder : nat -> nat.

Lemma Alike_ret {A} (a : A) : Alike (W1:=W1) (W2:=W2) eq (mret a) (mret a).
Proof. intros w1 w2 E. split; [reflexivity | exact E]. Qed.

Lemma Alike_weaken {A1 A2} (R S : A1 -> A2 -> Prop)
      (m1 : M W1 A1) (m2 : M W2 A2) :
  (forall a1 a2, R a1 a2 -> S a1 a2) -> Alike R m1 m2 -> Alike S m1 m2.
Proof. intros HRS Hm w1 w2 E. destruct (Hm w1 w2 E). auto. Qed.

Lemma Alike_bind {A1 A2 C1 C2} (R : A1 -> A2 -> Prop) (S : C1 -> C2 -> Prop)
      (m1 : M W1 A1) (m2 : M W2 A2) (k1 : A1 -> M W1 C1) (k2 : A2 -> M W2 C2) :
  Alike R m1 m2 ->
  (forall a1 a2, R a1 a2 -> Alike S (k1 a1) (k2 a2)) ->
  Alike S (m1 ≫= k1) (m2 ≫= k2).
Proof.
  intros Hm Hk w1 w2 E. unfold mbind, M_bind.
  destruct (Hm w1 w2 E) as [Hr E'].
  destruct (m1 w1) as [a1 w1'], (m2 w2) as [a2 w2']. simpl in Hr, E'.
  now apply Hk.
Qed.

Lemma Alike_forM_ {A} (l : list A) (body1 : A -> M W1 unit)
      (body2 : A -> M W2 unit) :
  (forall x, Alike eq (body1 x) (body2 x)) ->
  Alike eq (forM_ l body1) (forM_ l body2).
Proof.
  intros Hb. induction l as [|x l IH]; cbn [forM_]; [apply Alike_ret|].
  eapply Alike_bind; [apply Hb | intros _ _ _; exact IH].
Qed.

Lemma Alike_rangeMap {V} (m : gmap string V) :
  Alike (W1:=W1) (W2:=W2) eq (rangeMap mapOrder m) (rangeMap mapOrder m).
Proof.
  intros w1 w2 E. unfold rangeMap, withWriter in *. cbn [fst snd resp logged ranges].
  inversion E as [[H1 H2 H3 H4 H5]]. rewrite H5. split; [reflexivity|].
  cbn [echo.Header echo.Status echo.Committed]. congruence.
Qed.

Lemma Alike_slogError msg attrs :
  Alike (W1:=W1) (W2:=W2) eq (slogError msg attrs) (slogError msg attrs).
Proof.
  intros w1 w2 E. unfold slogError, withWriter in *.
  cbn [fst snd resp logged ranges].
  inversion E as [[H1 H2 H3 H4 H5]]. split; [reflexivity|]. congruence.
Qed.

Lemma Alike_mkPairs m :
  Alike (W1:=W1) (W2:=W2) eq (mkPairs mapOrder m) (mkPairs mapOrder m).
Proof.
  unfold mkPairs. eapply Alike_bind; [apply Alike_rangeMap|].
  intros a1 a2 ->. apply Alike_ret.
Qed.

(** The one place where the writers are called: the two errors may
    differ, the rest of the world does not move. *)
Lemma Alike_writeSingle typ name val help pairs :
  Alike (W1:=W1) (W2:=W2) (fun _ _ => True)
        (writeSingle typ name val help pairs)
        (writeSingle typ name val help pairs).
Proof.
  unfold writeSingle. destruct (valToString val) as [s [e|]].
  - eapply Alike_weaken; [|apply Alike_ret]. auto.
  - intros w1 w2 E.
    destruct (io.Write (echo.Writer (resp w1)) _) as [wr1 e1].
    destruct (io.Write (echo.Writer (resp w2)) _) as [wr2 e2].
    split; [exact I|]. unfold withWriter in *.
    cbn [fst snd resp logged ranges echo.setWriter
         echo.Header echo.Status echo.Committed].
    exact E.
Qed.

Lemma Alike_sample typ name val help labels :
  Alike (W1:=W1) (W2:=W2) eq
        (pairs ← mkPairs mapOrder labels;
         _ ← writeSingle typ name val help pairs;
         mret tt)
        (pairs ← mkPairs mapOrder labels;
         _ ← writeSingle typ name val help pairs;
         mret tt).
Proof.
  eapply Alike_bind; [apply Alike_mkPairs | intros p1 p2 ->].
  eapply Alike_bind; [apply Alike_writeSingle | intros; apply Alike_ret].
Qed.

Lemma Alike_statGauge vs name help labels :
  Alike (W1:=W1) (W2:=W2) eq
        (statGauge mapOrder vs name help labels)
        (statGauge mapOrder vs name help labels).
Proof.
  unfold statGauge. destruct vs; [apply Alike_ret|].
  case_bool_decide; [apply Alike_sample | apply Alike_ret].
Qed.

Lemma Alike_statCounter vs name help labels :
  Alike (W1:=W1) (W2:=W2) eq
        (statCounter mapOrder vs name help labels)
        (statCounter mapOrder vs name help labels).
Proof.
  unfold statCounter. destruct vs; [apply Alike_ret|].
  case_bool_decide; [apply Alike_sample | apply Alike_ret].
Qed.

Lemma Alike_seq (m1 : M W1 unit) (m2 : M W2 unit)
      (n1 : M W1 unit) (n2 : M W2 unit) :
  Alike eq m1 m2 -> Alike eq n1 n2 -> Alike eq (m1;; n1) (m2;; n2).
Proof. intros Hm Hn. eapply Alike_bind; [exact Hm | intros; exact Hn]. Qed.

Lemma Alike_v5 adapterName frontendName fe labels :
  Alike (W1:=W1) (W2:=W2) eq
        (handleMetrics_v5 hw mapOrder adapterName frontendName fe labels)
        (handleMetrics_v5 hw mapOrder adapterName frontendName fe labels).
Proof.
  unfold handleMetrics_v5. destruct (frontend.Stat hw fe);
    [|apply Alike_slogError].
  repeat (apply Alike_seq;
          [first [apply Alike_statGauge | apply Alike_statCounter]|]).
  apply Alike_statCounter.
Qed.

Lemma Alike_flagGauge st flag name help labels :
  Alike (W1:=W1) (W2:=W2) eq
        (flagGauge mapOrder st flag name help labels)
        (flagGauge mapOrder st flag name help labels).
Proof. apply Alike_sample. Qed.

Lemma Alike_scalar_gauge r box name help labels :
  Alike (W1:=W1) (W2:=W2) eq
        (scalar mapOrder writeGauge r box name help labels)
        (scalar mapOrder writeGauge r box name help labels).
Proof. unfold scalar. destruct r; [apply Alike_sample | apply Alike_ret]. Qed.

Lemma Alike_scalar_counter r box name help labels :
  Alike (W1:=W1) (W2:=W2) eq
        (scalar mapOrder writeCounter r box name help labels)
        (scalar mapOrder writeCounter r box name help labels).
Proof. unfold scalar. destruct r; [apply Alike_sample | apply Alike_ret]. Qed.

Lemma Alike_v3 adapterName frontendName fe labels :
  Alike (W1:=W1) (W2:=W2) eq
        (handleMetrics_v3 hw mapOrder adapterName frontendName fe labels)
        (handleMetrics_v3 hw mapOrder adapterName frontendName fe labels).
Proof.
  unfold handleMetrics_v3. destruct (frontend.Status hw fe);
    [|apply Alike_slogError].
  repeat (apply Alike_seq;
          [first [apply Alike_flagGauge | apply Alike_scalar_gauge]|]).
  apply Alike_scalar_counter.
Qed.

Lemma Alike_frontend v5 adapterName a frontendName f :
  Alike (W1:=W1) (W2:=W2) eq
        (handleMetrics_frontend hw mapOrder v5 adapterName a frontendName f)
        (handleMetrics_frontend hw mapOrder v5 adapterName a frontendName f).
Proof.
  unfold handleMetrics_frontend. apply Alike_seq; [|apply Alike_v3].
  destruct v5; [apply Alike_v5 | apply Alike_ret].
Qed.

Lemma Alike_handleMetrics v5 reg :
  Alike (W1:=W1) (W2:=W2) eq
        (handleMetrics hw mapOrder v5 reg) (handleMetrics hw mapOrder v5 reg).
Proof.
  unfold handleMetrics.
  eapply Alike_bind with (R := eq).
  - intros w1 w2 E. split; [reflexivity|]. unfold withWriter in *.
    cbn [fst snd resp logged ranges].
    inversion E as [[H1 H2 H3 H4 H5]].
    unfold echo.WriteHeader, echo.HeaderSet.
    cbn [echo.Header echo.Status echo.Committed]. rewrite H3.
    destruct (echo.Committed (resp w2));
      cbn [echo.Header echo.Status echo.Committed]; congruence.
  - intros _ _ _.
    eapply Alike_bind; [apply Alike_rangeMap | intros al1 al2 ->].
    eapply Alike_bind with (R := eq); [|intros _ _ _; apply Alike_ret].
    apply Alike_forM_. intros [adapterName a].
    eapply Alike_bind; [apply Alike_rangeMap | intros fl1 fl2 ->].
    apply Alike_forM_. intros [frontendName f]. apply Alike_frontend.
Qed.

End TwoWriters.

(** X13. The handler never looks at what a write returned.  Take any two
    writers, however each of them answers a write, and two polls of the
    same registry and hardware that start from the same response head,
    log and map-loop count: both polls return nil, and they end with
    the same response head, the same log records and the same number of
    map loops run.  So a peer that has gone away changes neither what is
    queried nor what is logged. *)
Theorem handleMetrics_ignores_write_errors
        {W1 W2 : Type} `{!io.Writer W1} `{!io.Writer W2}
        (hw : frontend.Driver) (mapOrder : nat -> nat) (v5 : bool)
        (reg : gmap string adapterEntry) (w : World W1) (wr : W2) :
  (handleMetrics hw mapOrder v5 reg w).1 = None
  /\ (handleMetrics hw mapOrder v5 reg (withWriter wr w)).1 = None
  /\ withWriter tt (handleMetrics hw mapOrder v5 reg w).2
     = withWriter tt (handleMetrics hw mapOrder v5 reg (withWriter wr w)).2.
Proof.
  destruct (Alike_handleMetrics hw mapOrder v5 reg w (withWriter wr w))
    as [Hr He]; [reflexivity|].
  split; [|split; [|exact He]].
  - unfold handleMetrics, mbind, M_bind.
    repeat match goal with |- context [let '(_, _) := ?x in _] =>
      destruct x end. reflexivity.
  - unfold handleMetrics, mbind, M_bind.
    repeat match goal with |- context [let '(_, _) := ?x in _] =>
      destruct x end. reflexivity.
Qed.

(** * The examples of the specification, end to end *)

Ltac pick_chunk := vm_compute; repeat first [left; reflexivity | right].

(** The tuner has lock and its SNR register reads 123: the response has
    the line of [dvb_fe_has_lock] with value 1 and the line of
    [dvb_fe_snr_percent] with value 0. *)
Example poll_of_a_locked_tuner :
  (main ex_single "dvb-exporter" [] boot).1 = inr Serving
  /\ In (sampleText "gauge" "dvb_fe_has_lock" "1" "Frontend is receiving data"
                    ["adapter"; "0"; "frontend"; "0"])
        (echo.Writer
           (resp (handleMetrics ex_locked (fun _ => 0%nat) false
                    (adapters (main ex_single "dvb-exporter" [] boot).2)
                    (ex_request [])).2))
  /\ In (sampleText "gauge" "dvb_fe_snr_percent" "0" snrHelp
                    ["adapter"; "0"; "frontend"; "0"])
        (echo.Writer
           (resp (handleMetrics ex_locked (fun _ => 0%nat) false
                    (adapters (main ex_single "dvb-exporter" [] boot).2)
                    (ex_request [])).2)).
Proof.
  split; [vm_compute; reflexivity|]. split; pick_chunk.
Qed.

(** No adapter: status 200 and an empty body. *)
Example poll_without_adapters :
  (main ex_bare "dvb-exporter" [] boot).1 = inr Serving
  /\ registered (adapters (main ex_bare "dvb-exporter" [] boot).2) = []
  /\ (handleMetrics ex_locked (fun _ => 0%nat) true
        (adapters (main ex_bare "dvb-exporter" [] boot).2)
        (ex_request [])).1
     = None
  /\ echo.Status
       (resp (handleMetrics ex_locked (fun _ => 0%nat) true
                (adapters (main ex_bare "dvb-exporter" [] boot).2)
                (ex_request [])).2)
     = 200
  /\ echo.Writer
       (resp (handleMetrics ex_locked (fun _ => 0%nat) true
                (adapters (main ex_bare "dvb-exporter" [] boot).2)
                (ex_request [])).2)
     = [].
Proof.
  split; [vm_compute; reflexivity|]. split; [vm_compute; reflexivity|].
  split; [vm_compute; reflexivity|]. split; vm_compute; reflexivity.
Qed.

(** [adapterX] is reported and skipped; [adapter0] and [adapter00] after
    it are registered. *)
Example scan_skips_adapterX :
  (main ex_tree "dvb-exporter" [] boot).1 = inr Serving
  /\ stderr (main ex_tree "dvb-exporter" [] boot).2
     = ["Invalid adapter number: X" +:+ nl]
  /\ length (registered (adapters (main ex_tree "dvb-exporter" [] boot).2))
     = 3%nat.
Proof.
  split; [vm_compute; reflexivity|]. split; vm_compute; reflexivity.
Qed.

(** The v5 statistics of [ex_stat]: the carrier SNR is in decibels and the
    count of bits before the inner code is a counter, and both are
    written; the signal level is on the relative scale and the count of
    bit errors after the inner code is not available, and neither is. *)
Example poll_of_the_v5_statistics :
  map rName (v5Readings ex_locked ex_device)
  = ["dvb_fe_snr"; "dvb_fe_pre_total_bit_count"]
  /\ In (sampleText "gauge" "dvb_fe_snr" "12.500000"
                    "Indicates the Signal to Noise ratio for the main carrier"
                    ["adapter"; "0"; "frontend"; "0"])
        (echo.Writer (resp (handleMetrics ex_locked (fun _ => 0%nat) true
                                          ex_registry (ex_request [])).2)).
Proof. split; [vm_compute; reflexivity | pick_chunk]. Qed.

(** The command line: a request for help, a flag that is not declared, a
    flag without its value, and the two ways of giving the base path. *)
Example command_lines :
  main ex_tree "dvb-exporter" ["-h"] boot
  = (inl (Exit 0), (flag.usage "dvb-exporter" boot).2)
  /\ main ex_tree "dvb-exporter" ["-port"; "80"] boot
     = (inl (Exit 2),
        (flag.usage "dvb-exporter"
           (printed boot ("flag provided but not defined: -port" +:+ nl))).2)
  /\ (main ex_tree "dvb-exporter" ["-listen"] boot).1 = inl (Exit 2)
  /\ stderr (main ex_tree "dvb-exporter" ["--devpath=/srv/dvb"] boot).2
     = ["Base path /srv/dvb does not exist" +:+ nl]
  /\ (main ex_tree "dvb-exporter" ["-devpath"; "/dev/dvb"; "-listen=:80"]
        boot).1
     = inr Serving.
Proof. repeat split; vm_compute; reflexivity. Qed.
